(** * Radius UCP: routing validation, declarative notifications, dispatch

    A shallow embedding of the routing validator
    (package resourcegroups: ValidateRadiusPlane, ValidateResourceGroup,
    ValidateResourceType, ValidateLegacyResourceProvider, ValidateDownstream),
    of the declarative notification filter (package notifications:
    notify, provisioningState, setProvisioningState), of the provisioning
    state conversion of the dynamic resource provider, and of the contracts
    of the API version validator and of the request router.

    Go strings are modelled as ASCII text, Go maps as finite maps (or as
    the list of their entries where the code ranges over them), a Go
    [(value, error)] result as a sum, and the Go heap as a finite map from
    locations to cells wherever the code depends on sharing. *)

From Stdlib Require Import String Ascii List Bool Arith ZArith Lia.
From stdpp Require Import base option list gmap strings.

Local Open Scope list_scope.
Local Open Scope string_scope.

(* ================================================================== *)
(** * Go's strings and fmt packages, on ASCII text *)
(* ================================================================== *)

Module Strings.

Definition lower_ascii (c : ascii) : ascii :=
  let n := nat_of_ascii c in
  if Nat.leb 65 n && Nat.leb n 90 then ascii_of_nat (n + 32) else c.

Definition upper_ascii (c : ascii) : ascii :=
  let n := nat_of_ascii c in
  if Nat.leb 97 n && Nat.leb n 122 then ascii_of_nat (n - 32) else c.

Fixpoint map_string (f : ascii -> ascii) (s : string) : string :=
  match s with
  | EmptyString => EmptyString
  | String c s' => String (f c) (map_string f s')
  end.

(** strings.ToLower and strings.ToUpper. *)
Definition ToLower : string -> string := map_string lower_ascii.
Definition ToUpper : string -> string := map_string upper_ascii.

(** strings.EqualFold: equality under case folding. *)
Definition EqualFold (s t : string) : bool :=
  String.eqb (ToLower s) (ToLower t).

(** [strip s prefix] is the rest of [s] after [prefix], when [s] starts
    with it. *)
Fixpoint strip (s prefix : string) : option string :=
  match prefix, s with
  | EmptyString, _ => Some s
  | String p ps, String c cs => if Ascii.eqb p c then strip cs ps else None
  | String _ _, EmptyString => None
  end.

(** strings.HasPrefix and strings.TrimPrefix. *)
Definition HasPrefix (s prefix : string) : bool :=
  match strip s prefix with Some _ => true | None => false end.

Definition TrimPrefix (s prefix : string) : string :=
  match strip s prefix with Some rest => rest | None => s end.

(** [Contains s sub]: [sub] occurs in [s] (strings.Contains). *)
Fixpoint Contains (s sub : string) : bool :=
  HasPrefix s sub ||
  match s with
  | EmptyString => false
  | String _ s' => Contains s' sub
  end.

(** strings.Join. *)
Fixpoint Join (elems : list string) (sep : string) : string :=
  match elems with
  | [] => EmptyString
  | [e] => e
  | e :: es => e ++ sep ++ Join es sep
  end.

(** [Split s sep] for a one-character separator (strings.Split). *)
Fixpoint Split (s : string) (sep : ascii) : list string :=
  match s with
  | EmptyString => [EmptyString]
  | String c s' =>
      if Ascii.eqb c sep then EmptyString :: Split s' sep
      else match Split s' sep with
           | [] => [String c EmptyString]
           | w :: ws => String c w :: ws
           end
  end.

Definition dquote : string := String (ascii_of_nat 34) EmptyString.
Definition squote : string := String (ascii_of_nat 39) EmptyString.

(** The verb %q of fmt on a string with no character to escape. *)
Definition quoted (s : string) : string := dquote ++ s ++ dquote.

End Strings.

(* ================================================================== *)
(** * Errors *)
(* ================================================================== *)

Module Errors.

(** The errors of the storage client (package store): the not-found
    error and every other failure of a read or of the conversion of what
    was read. *)
Inductive store_error :=
  | ErrNotFound
  | ErrStore (msg : string).

(** The error values that reach the routing validator. *)
Inductive error :=
  | StoreError (e : store_error)
  | ResourcesError (msg : string)         (* a malformed id, package resources *)
  | NotFoundError (Message : string)      (* resourcegroups.NotFoundError *)
  | InvalidError (Message : string)       (* resourcegroups.InvalidError *)
  | Errorf (msg : string) (wrapped : error) (* fmt.Errorf with the verb %w *)
  | ErrorString (msg : string).           (* fmt.Errorf with no wrapped error *)

(** errors.Is(err, &store.ErrNotFound{}): the chain of wrapped errors
    holds the store's not-found error. *)
Fixpoint Is_ErrNotFound (err : error) : bool :=
  match err with
  | StoreError ErrNotFound => true
  | Errorf _ wrapped => Is_ErrNotFound wrapped
  | _ => false
  end.

(** errors.Is(err, &NotFoundError{}), through NotFoundError.Is. *)
Fixpoint Is_NotFoundError (err : error) : bool :=
  match err with
  | NotFoundError _ => true
  | Errorf _ wrapped => Is_NotFoundError wrapped
  | _ => false
  end.

(** errors.Is(err, &InvalidError{}), through InvalidError.Is. *)
Fixpoint Is_InvalidError (err : error) : bool :=
  match err with
  | InvalidError _ => true
  | Errorf _ wrapped => Is_InvalidError wrapped
  | _ => false
  end.

Definition store_message (e : store_error) : string :=
  match e with
  | ErrNotFound => "the resource was not found"
  | ErrStore msg => msg
  end.

(** err.Error(). *)
Fixpoint Error (err : error) : string :=
  match err with
  | StoreError e => store_message e
  | ResourcesError msg => msg
  | NotFoundError m => m
  | InvalidError m => m
  | Errorf msg wrapped => msg ++ Error wrapped
  | ErrorString msg => msg
  end.

End Errors.

(* ================================================================== *)
(** * The interfaces of packages resources and net/url *)
(* ================================================================== *)

Module Resources.

Record TypeSegment := { Type_ : string; Name : string }.

(** Modelled from the spec: the separator and the keywords of a resource
    id, /planes/{planeType}/{planeName}/resourceGroups/{name}/providers/...;
    the declarations of packages resources and resources_radius are not
    part of the sources at hand. *)
Definition SegmentSeparator : string := "/".
Definition ProvidersSegment : string := "providers".
Definition PlanesSegment : string := "planes".
Definition ScopeResourceGroups : string := "resourceGroups".

(** Package resources is not part of the sources at hand: the validator
    is verified against its interface, for every implementation of it.
    Parsers return the message of the error or the id. *)
Class Pkg := {
  ID : Type;
  ID_String : ID -> string;
  ID_PlaneScope : ID -> string;
  ID_RootScope : ID -> string;
  ID_FindScope : ID -> string -> string;
  ID_ProviderNamespace : ID -> string;
  ID_Type : ID -> string;
  ID_Append : ID -> TypeSegment -> ID;
  ParseScope : string -> string + ID;
  ParseResource : string -> string + ID;
}.

End Resources.

Module Url.

(** net/url: [Parse] returns the message of the error or the URL. *)
Class Pkg := {
  URL : Type;
  Parse : string -> string + URL;
}.

End Url.

(* ================================================================== *)
(** * Package datamodel: planes, resource groups, locations *)
(* ================================================================== *)

Module Datamodel.
Import Resources.

(** datamodel.RadiusPlane, with Properties.ResourceProviders: the legacy
    routing table, provider namespace to downstream address. *)
Record RadiusPlane := {
  ResourceProviders : gmap string string;
}.

(** Modelled from the spec: RadiusPlane.LookupResourceProvider is not part
    of the sources at hand; the routing validator (step 4) looks up
    plane.resourceProviders[namespace], and the caller tests the result
    against the empty string, which is what a Go map gives for an absent
    key. *)
Definition LookupResourceProvider (plane : RadiusPlane) (key : string) : string :=
  default EmptyString (ResourceProviders plane !! key).

(** datamodel.ResourceGroup: the validator reads no field of it. *)
Record ResourceGroup := {
  ResourceGroup_ID : string;
}.

(** datamodel.LocationResourceTypeConfiguration: the API versions of one
    resource type at a location; only the keys of the map are read. *)
Record LocationResourceTypeConfiguration := {
  APIVersions : gmap string unit;
}.

(** datamodel.Location, with Properties.Address (a *string) and
    Properties.ResourceTypes. The validator ranges over ResourceTypes, a Go
    map: the list holds its entries in the order in which the runtime
    visits them, which Go leaves unspecified; every statement below holds
    for every order. *)
Record Location := {
  Address : option string;
  ResourceTypes : list (string * LocationResourceTypeConfiguration);
}.

(** Modelled from the spec: the types of the resource provider resource and
    of its locations, as the example below and the routes of the providers
    write them; their declarations are not part of the sources at hand. *)
Definition ResourceProviderResourceType : string := "System.Resources/resourceProviders".
Definition LocationUnqualifiedResourceType : string := "locations".

(** ResourceProviderIDFromResourceID: the id of the resource provider of
    an inbound resource id,
    /planes/radius/local/providers/Applications.Test/testResources/foo
    => /planes/radius/local/providers/System.Resources/resourceProviders/Applications.Test *)
Definition ResourceProviderIDFromResourceID `{Resources.Pkg} (id : ID) : string + ID :=
  ParseResource
    (ID_PlaneScope id ++
     SegmentSeparator ++ ProvidersSegment ++
     SegmentSeparator ++ ResourceProviderResourceType ++
     SegmentSeparator ++ ID_ProviderNamespace id).

End Datamodel.

(* ================================================================== *)
(** * Package store: the storage client as the validator reads it *)
(* ================================================================== *)

Module Store.
Import Errors Datamodel.

(** What a stored object holds. *)
Inductive Payload :=
  | PRadiusPlane (plane : RadiusPlane)
  | PResourceGroup (group : ResourceGroup)
  | PLocation (location : Location)
  | POther (raw : string).

Record Object := { Data : Payload }.

(** store.StorageClient is an interface: any function from keys to
    results is a client. *)
Record StorageClient := {
  Get : string -> store_error + Object;
}.

Definition AsRadiusPlane (p : Payload) : option RadiusPlane :=
  match p with PRadiusPlane plane => Some plane | _ => None end.
Definition AsResourceGroup (p : Payload) : option ResourceGroup :=
  match p with PResourceGroup g => Some g | _ => None end.
Definition AsLocation (p : Payload) : option Location :=
  match p with PLocation l => Some l | _ => None end.

(** Modelled from the spec: store.GetResource[T] is not part of the
    sources at hand; it is a keyed read through the storage client
    followed by the conversion of the object to T, and fails with the
    error of the read or with an error of the conversion. *)
Definition GetResource {T : Type} (As : Payload -> option T)
    (client : StorageClient) (id : string) : error + T :=
  match Get client id with
  | inl e => inl (StoreError e)
  | inr obj =>
      match As (Data obj) with
      | Some v => inr v
      | None => inl (StoreError (ErrStore "failed to convert the stored object"))
      end
  end.

End Store.

(* ================================================================== *)
(** * Package resourcegroups: the routing validator *)
(* ================================================================== *)

Module ResourceGroups.
Import Strings Errors Resources Url Datamodel Store.

Section validator.
Context `{Resources.Pkg} `{Url.Pkg}.

(** ValidateRadiusPlane validates that the plane specified in the id
    exists. Returns NotFoundError if the plane does not exist. *)
Definition ValidateRadiusPlane (client : StorageClient) (id : ID) : error + RadiusPlane :=
  match ParseScope (ID_PlaneScope id) with
  | inl msg => inl (ResourcesError msg)
  | inr planeID =>
      match GetResource AsRadiusPlane client (ID_String planeID) with
      | inl err =>
          if Is_ErrNotFound err then
            inl (NotFoundError ("plane " ++ quoted (ID_String planeID) ++ " not found"))
          else
            inl (Errorf ("failed to find plane " ++ quoted (ID_String planeID) ++ ": ") err)
      | inr plane => inr plane
      end
  end.

(** ValidateResourceGroup validates that the resource group specified in
    the id exists (if applicable). [None] is the nil error. *)
Definition ValidateResourceGroup (client : StorageClient) (id : ID) : option error :=
  if String.eqb (ID_FindScope id ScopeResourceGroups) EmptyString then None
  else
    match ParseScope (ID_RootScope id) with
    | inl msg => Some (ResourcesError msg)
    | inr resourceGroupID =>
        match GetResource AsResourceGroup client (ID_String resourceGroupID) with
        | inl err =>
            if Is_ErrNotFound err then
              Some (NotFoundError
                      ("resource group " ++ quoted (ID_String resourceGroupID) ++ " not found"))
            else
              Some (Errorf
                      ("failed to find resource group " ++ quoted (ID_String resourceGroupID) ++ ": ")
                      err)
        | inr _ => None
        end
    end.

(** The loop of ValidateResourceType over location.Properties.ResourceTypes:
    the first entry visited whose name equals [search] under case
    folding, then break. *)
Fixpoint rangeResourceTypes (search : string)
    (resourceTypes : list (string * LocationResourceTypeConfiguration))
    : option LocationResourceTypeConfiguration :=
  match resourceTypes with
  | [] => None
  | (name, rt) :: rest =>
      if EqualFold name search then Some rt else rangeResourceTypes search rest
  end.

(** The name searched for: the type of the id without the prefix of its
    provider namespace, in lower case. *)
Definition searchOf (id : ID) : string :=
  TrimPrefix (ToLower (ID_Type id)) (ToLower (ID_ProviderNamespace id) ++ SegmentSeparator).

Definition locationIDOf (providerID : ID) (locationName : string) : ID :=
  ID_Append providerID
    {| Type_ := LocationUnqualifiedResourceType; Name := locationName |}.

(** ValidateResourceType performs semantic validation of a proxy request
    against registered resource types. A result [inr None] is the pair
    (nil, nil): no downstream address, no error. *)
Definition ValidateResourceType (client : StorageClient) (id : ID)
    (locationName apiVersion : string) : error + option URL :=
  match ResourceProviderIDFromResourceID id with
  | inl msg => inl (ResourcesError msg)
  | inr providerID =>
      let locationID := locationIDOf providerID locationName in
      match GetResource AsLocation client (ID_String locationID) with
      | inl err =>
          if Is_ErrNotFound err then
            (* returned as it is, to fall back to the legacy routing *)
            inl err
          else
            inl (Errorf ("failed to find location " ++ quoted (ID_String locationID) ++ ": ") err)
      | inr location =>
          match rangeResourceTypes (searchOf id) (ResourceTypes location) with
          | None =>
              inl (InvalidError
                     ("resource type " ++ quoted (ID_Type id) ++
                      " not supported by location " ++ quoted locationName))
          | Some resourceType =>
              match APIVersions resourceType !! apiVersion with
              | None =>
                  inl (InvalidError
                         ("api version " ++ quoted apiVersion ++
                          " is not supported for resource type " ++ quoted (ID_Type id) ++
                          " by location " ++ quoted locationName))
              | Some _ =>
                  match Address location with
                  | None => inr None
                  | Some address =>
                      match Url.Parse address with
                      | inl msg =>
                          inl (InvalidError ("failed to parse location address: " ++ msg))
                      | inr u => inr (Some u)
                      end
                  end
              end
          end
      end
  end.

(** ValidateLegacyResourceProvider validates that the resource provider
    specified in the id exists in the plane. *)
Definition ValidateLegacyResourceProvider (client : StorageClient) (id : ID)
    (plane : RadiusPlane) : error + option URL :=
  let downstream := LookupResourceProvider plane (ID_ProviderNamespace id) in
  if String.eqb downstream EmptyString then
    inl (InvalidError ("resource provider " ++ ID_ProviderNamespace id ++ " not configured"))
  else
    match Url.Parse downstream with
    | inl msg => inl (InvalidError ("failed to parse downstream URL: " ++ msg))
    | inr downstreamURL => inr (Some downstreamURL)
    end.

(** ValidateDownstream finds and validates the downstream URL for a
    resource: the plane exists, the resource group exists, the resource
    provider is configured (as part of a resource provider manifest or
    as part of the plane). *)
Definition ValidateDownstream (client : StorageClient) (id : ID)
    (location apiVersion : string) : error + option URL :=
  match ValidateRadiusPlane client id with
  | inl err => inl err
  | inr plane =>
      match ValidateResourceGroup client id with
      | Some err => inl err
      | None =>
          match ValidateResourceType client id location apiVersion with
          | inl err =>
              if Is_ErrNotFound err then
                match ValidateLegacyResourceProvider client id plane with
                | inl err' => inl err'
                | inr downstreamURL => inr downstreamURL
                end
              else inl err
          | inr downstreamURL => inr downstreamURL
          end
      end
  end.

(** The location resource of the provider of [id] named [locationName] is
    read as [r]. *)
Definition locationLookup (client : StorageClient) (id : ID) (locationName : string)
    (r : error + Location) : Prop :=
  exists providerID,
    ResourceProviderIDFromResourceID id = inr providerID /\
    GetResource AsLocation client (ID_String (locationIDOf providerID locationName)) = r.

(** The table lists the type of [id]: some entry has its name, under case
    folding and without the namespace prefix. *)
Definition listsType (location : Location) (id : ID) : Prop :=
  exists name rt, In (name, rt) (ResourceTypes location) /\ EqualFold name (searchOf id) = true.

End validator.
End ResourceGroups.

(* ================================================================== *)
(** * JSON documents and the Go heap *)
(* ================================================================== *)

Module Json.

#[local] Set Warnings "-register-all".

(** A JSON document. A number keeps its literal. *)
Inductive json :=
  | JNull
  | JBool (b : bool)
  | JNumber (literal : string)
  | JString (s : string)
  | JArray (items : list json)
  | JObject (members : list (string * json)).

(** The value of member [name] of an object: the last one when the name
    repeats, as encoding/json decodes it into a map. *)
Fixpoint member (name : string) (members : list (string * json)) : option json :=
  match members with
  | [] => None
  | (k, j) :: rest =>
      match member name rest with
      | Some j' => Some j'
      | None => if String.eqb k name then Some j else None
      end
  end.

End Json.

Module Heap.
Import Json.

Abbreviation loc := positive.

(** A Go value of dynamic type: nil, a scalar, or a reference to a map
    (map[string]any), to a slice ([]any) or to a stored object (a pointer
    to a store.Object). Maps, slices and pointers are references: two
    values with the same location share their cell. *)
Inductive value :=
  | VNil
  | VBool (b : bool)
  | VNumber (literal : string)
  | VString (s : string)
  | VMap (l : loc)
  | VSlice (l : loc)
  | VObject (l : loc).

(** store.Object: the metadata read by the code (ID, ETag) and the data. *)
Record Object := {
  ID : string;
  ETag : string;
  Data : value;
}.

Inductive cell :=
  | CMap (entries : gmap string value)
  | CSlice (items : list value)
  | CObject (object : Object).

Abbreviation heap := (gmap loc cell).

(** The outcome of code that may panic. *)
Inductive outcome (A : Type) :=
  | Done (a : A)
  | Panic (msg : string).
Arguments Done {A} a.
Arguments Panic {A} msg.

Definition alloc (h : heap) (c : cell) : loc * heap :=
  let l := fresh (dom h) in (l, <[l := c]> h).

(** map[string]any{} *)
Definition newMap (h : heap) : loc * heap := alloc h (CMap ∅).

(** v, ok := m[k] *)
Definition mapLookup (h : heap) (l : loc) (k : string) : option value :=
  match h !! l with
  | Some (CMap m) => m !! k
  | _ => None
  end.

(** m[k] = v *)
Definition mapStore (h : heap) (l : loc) (k : string) (v : value) : heap :=
  match h !! l with
  | Some (CMap m) => <[l := CMap (<[k := v]> m)]> h
  | _ => h
  end.

(** The JSON members of a store.Object, from its ID, its ETag and its
    encoded data: they are fixed by the declaration of store.Object,
    which is not part of the sources at hand, so the encoder takes them
    as a parameter. *)
Class ObjectEncoding := {
  objectMembers : string -> string -> json -> list (string * json);
}.

Section encoding.
Context `{ObjectEncoding}.

(** json.Marshal, as far down as [depth] references; [None] is its
    error (a dangling reference, or a cycle when [depth] is at least the
    number of cells). *)
Fixpoint marshal (depth : nat) (h : heap) (v : value) : option json :=
  match depth with
  | O => None
  | S depth' =>
      match v with
      | VNil => Some JNull
      | VBool b => Some (JBool b)
      | VNumber n => Some (JNumber n)
      | VString s => Some (JString s)
      | VMap l =>
          match h !! l with
          | Some (CMap m) =>
              JObject <$>
                mapM (fun kv => pair (fst kv) <$> marshal depth' h (snd kv)) (map_to_list m)
          | _ => None
          end
      | VSlice l =>
          match h !! l with
          | Some (CSlice items) => JArray <$> mapM (marshal depth' h) items
          | _ => None
          end
      | VObject l =>
          match h !! l with
          | Some (CObject o) =>
              match marshal depth' h (Data o) with
              | Some data => Some (JObject (objectMembers (ID o) (ETag o) data))
              | None => None
              end
          | _ => None
          end
      end
  end.

(** json.Marshal(v): no acyclic value is deeper than the heap is large. *)
Definition json_Marshal (h : heap) (v : value) : option json :=
  marshal (S (size h)) h v.

End encoding.

Section decoding.
Variable decode : json -> heap -> value * heap.

Fixpoint decodeItems (items : list json) (h : heap) : list value * heap :=
  match items with
  | [] => ([], h)
  | j :: rest =>
      let '(v, h1) := decode j h in
      let '(vs, h2) := decodeItems rest h1 in
      (v :: vs, h2)
  end.

(** The members of an object decoded one after the other into the map
    at [l]. *)
Fixpoint decodeMembers (members : list (string * json)) (l : loc) (h : heap) : heap :=
  match members with
  | [] => h
  | (k, j) :: rest =>
      let '(v, h1) := decode j h in
      decodeMembers rest l (mapStore h1 l k v)
  end.
End decoding.

(** The decoding of a JSON document into a value of type any: an object
    becomes a new map, an array a new slice. *)
Fixpoint decode (j : json) (h : heap) : value * heap :=
  match j with
  | JNull => (VNil, h)
  | JBool b => (VBool b, h)
  | JNumber n => (VNumber n, h)
  | JString s => (VString s, h)
  | JArray items =>
      let '(vs, h1) := decodeItems decode items h in
      let '(l, h2) := alloc h1 (CSlice vs) in
      (VSlice l, h2)
  | JObject members =>
      let '(l, h1) := newMap h in
      (VMap l, decodeMembers decode members l h1)
  end.

(** [v] is a scalar, or a reference to a cell that [h] does not hold. *)
Definition freshIn (h : heap) (v : value) : Prop :=
  match v with
  | VMap l | VSlice l | VObject l => h !! l = None
  | _ => True
  end.

(** The cell at [l] is a map. *)
Definition isMap (h : heap) (l : loc) : Prop :=
  exists m, h !! l = Some (CMap m).

(** json.Unmarshal(b, &data) for a variable data of type map[string]any
    that holds the map at [data]: what the variable holds afterwards, and
    the heap. An object fills the map; null sets the variable to nil
    ([None]); anything else is an error. *)
Definition json_Unmarshal (j : json) (data : loc) (h : heap) : option (option loc * heap) :=
  match j with
  | JObject members => Some (Some data, decodeMembers decode members data h)
  | JNull => Some (None, h)
  | _ => None
  end.

(** v, ok := m[k] for a variable m that holds a map or nil: nil has no
    entry. *)
Definition lookupIn (h : heap) (m : option loc) (k : string) : option value :=
  match m with
  | Some l => mapLookup h l k
  | None => None
  end.

(** m[k] = v for a variable m that holds a map or nil: the assignment to an
    entry of nil panics. *)
Definition storeIn (h : heap) (m : option loc) (k : string) (v : value) : outcome heap :=
  match m with
  | Some l => Done (mapStore h l k v)
  | None => Panic "assignment to entry in nil map"
  end.

End Heap.

(* ================================================================== *)
(** * Package v1 (armrpc/api): provisioning states and operation types *)
(* ================================================================== *)

Module V1.

Definition ProvisioningState := string.

(** Modelled from the spec: the constants of package v1 are not part of
    the sources at hand; the states are Accepted, Updating, Succeeded,
    Failed and Canceled. *)
Definition ProvisioningStateAccepted : ProvisioningState := "Accepted".
Definition ProvisioningStateUpdating : ProvisioningState := "Updating".
Definition ProvisioningStateSucceeded : ProvisioningState := "Succeeded".
Definition ProvisioningStateFailed : ProvisioningState := "Failed".
Definition ProvisioningStateCanceled : ProvisioningState := "Canceled".

(** Modelled from the spec: ProvisioningState.IsTerminal is not part of
    the sources at hand; the terminal states are Succeeded, Failed and
    Canceled. *)
Definition IsTerminal (state : ProvisioningState) : bool :=
  String.eqb state ProvisioningStateSucceeded ||
  String.eqb state ProvisioningStateFailed ||
  String.eqb state ProvisioningStateCanceled.

Record OperationType := {
  Type_ : string;
  Method : string;
}.

End V1.

(* ================================================================== *)
(** * Package notifications: the declarative filter *)
(* ================================================================== *)

Module Notifications.
Import Strings Errors Resources Json Heap V1.

(** v1.ARMRequestContext, with the fields that notify sets. *)
Record ARMRequestContext `{Resources.Pkg} := {
  ResourceID : Resources.ID;
  OperationID : string;
  OperationType_ : OperationType;
}.

(** statusmanager.QueueOperationOptions; durations in nanoseconds. *)
Record QueueOperationOptions := {
  OperationTimeout : Z;
  RetryAfter : Z;
}.

Definition Minute : Z := 60 * 1000000000.

(** The provisioning state that the JSON form of a resource states: the
    string member provisioningState of the object member properties, and
    Succeeded when the properties are absent or no object, or the member is
    absent or no string. [None]: the form is no JSON object. *)
Definition statedProvisioningState (b : json) : option ProvisioningState :=
  match b with
  | JObject members =>
      Some
        match member "properties" members with
        | Some (JObject properties) =>
            match member "provisioningState" properties with
            | Some (JString ps) => ps
            | _ => ProvisioningStateSucceeded
            end
        | _ => ProvisioningStateSucceeded
        end
  | _ => None
  end.

(** The JSON form of a resource states no provisioning state: it has no
    member properties, or properties that are no object, or properties with
    no member provisioningState, or with one that is no string. *)
Definition lacksProvisioningState (b : json) : Prop :=
  exists members, b = JObject members /\
    (member "properties" members = None \/
     (exists j, member "properties" members = Some j /\ forall ms, j <> JObject ms) \/
     (exists properties, member "properties" members = Some (JObject properties) /\
        (member "provisioningState" properties = None \/
         exists j, member "provisioningState" properties = Some j /\
                   forall s, j <> JString s))).

Section filter.
Context `{Resources.Pkg} `{ObjectEncoding}.

(** Taken as parameters, their declarations not being part of the
    sources at hand: the terminal states of v1.ProvisioningState and
    v1.DefaultRetryAfterDuration. *)
Variable IsTerminal : ProvisioningState -> bool.
Variable DefaultRetryAfterDuration : Z.

(** provisioningState reads properties.provisioningState off a copy of
    the resource decoded from its JSON form; the new heap holds the
    copy. *)
Definition provisioningState (h : heap) (resource : value)
    : outcome (ProvisioningState * heap) :=
  match json_Marshal h resource with
  | None => Panic "json: marshal"
  | Some b =>
      let '(data, h) := newMap h in
      match json_Unmarshal b data h with
      | None => Panic "json: unmarshal"
      | Some (data, h) =>
          match
            match lookupIn h data "properties" with
            | Some obj => Done (obj, h)
            | None =>
                let '(l, h) := newMap h in
                match storeIn h data "properties" (VMap l) with
                | Done h => Done (VMap l, h)
                | Panic msg => Panic msg
                end
            end
          with
          | Panic msg => Panic msg
          | Done (VMap properties, h) =>
              match mapLookup h properties "provisioningState" with
              | None => Done (ProvisioningStateSucceeded, h)
              | Some (VString ps) => Done (ps, h)
              | Some _ => Done (ProvisioningStateSucceeded, h)
              end
          | Done (_, h) => Done (ProvisioningStateSucceeded, h)
          end
      end
  end.

(** setProvisioningState writes properties.provisioningState into a copy
    of the resource decoded from its JSON form. *)
Definition setProvisioningState (h : heap) (resource : value) (ps : ProvisioningState)
    : outcome heap :=
  match json_Marshal h resource with
  | None => Panic "json: marshal"
  | Some b =>
      let '(data, h) := newMap h in
      match json_Unmarshal b data h with
      | None => Panic "json: unmarshal"
      | Some (data, h) =>
          match
            match lookupIn h data "properties" with
            | Some obj => Done (obj, h)
            | None =>
                let '(l, h) := newMap h in
                match storeIn h data "properties" (VMap l) with
                | Done h => Done (VMap l, h)
                | Panic msg => Panic msg
                end
            end
          with
          | Panic msg => Panic msg
          | Done (VMap properties, h) =>
              Done (mapStore h properties "provisioningState" (VString ps))
          | Done (_, h) => Done h
          end
      end
  end.

(** The lines that provisioningState and setProvisioningState share: the
    properties of a copy of the resource decoded from its JSON form. *)
Definition decodedProperties (h : heap) (resource : value) : outcome (value * heap) :=
  match json_Marshal h resource with
  | None => Panic "json: marshal"
  | Some b =>
      let '(data, h) := newMap h in
      match json_Unmarshal b data h with
      | None => Panic "json: unmarshal"
      | Some (data, h) =>
          match lookupIn h data "properties" with
          | Some obj => Done (obj, h)
          | None =>
              let '(l, h) := newMap h in
              match storeIn h data "properties" (VMap l) with
              | Done h => Done (VMap l, h)
              | Panic msg => Panic msg
              end
          end
      end
  end.

(** The provisioning state of a value in the heap: the string under
    provisioningState when the value is a map that has one. *)
Definition stateIn (h : heap) (obj : value) : ProvisioningState :=
  match obj with
  | VMap properties =>
      match mapLookup h properties "provisioningState" with
      | Some (VString ps) => ps
      | _ => ProvisioningStateSucceeded
      end
  | _ => ProvisioningStateSucceeded
  end.

(** The calls of notify to its collaborators: the storage provider, the
    storage client, the UUID generator, and the status manager with its
    queue. A save carries the heap at the time of the call and the
    object saved. *)
Inductive call :=
  | GetStorageClient (resourceType : string)
  | StorageGet (id : string)
  | StorageSave (h : heap) (obj : loc) (etag : string)
  | NewUUID
  | GetStatusManager
  | QueueAsyncOperation (sCtx : ARMRequestContext) (options : QueueOperationOptions).

(** What a call returns: an error or nil; for a read the error or the
    heap with the object read in it; for the status manager whether it
    is not nil. A collaborator answers; it does not write to the cells of
    the caller. *)
Definition response (c : call) : Type :=
  match c with
  | GetStorageClient _ => option error
  | StorageGet _ => (error + heap * loc)%type
  | StorageSave _ _ _ => option error
  | NewUUID => string
  | GetStatusManager => bool
  | QueueAsyncOperation _ _ => option error
  end.

(** A program of the filter: it returns, it panics, or it calls a
    collaborator and goes on with the answer. *)
Inductive prog (A : Type) :=
  | Ret (a : A)
  | Crash (msg : string)
  | Call (c : call) (k : response c -> prog A).
Arguments Ret {A} a.
Arguments Crash {A} msg.
Arguments Call {A} c k.

(** obj.ETag *)
Definition objectETag (h : heap) (obj : loc) : option string :=
  match h !! obj with
  | Some (CObject o) => Some (ETag o)
  | _ => None
  end.

Definition nilDereference : string :=
  "runtime error: invalid memory address or nil pointer dereference".

(** storage.Save(ctx, obj, store.WithETag(obj.ETag)) *)
Definition save {A} (h : heap) (obj : loc) (k : option error -> prog A) : prog A :=
  match objectETag h obj with
  | Some etag => Call (StorageSave h obj etag) k
  | None => Crash nilDereference
  end.

(** notify reads the resource, refuses it unless its provisioning state is
    terminal, sets the state to Updating and saves, then queues a PUT
    operation for the resource; when the queueing fails it sets the state
    to Failed, saves again and returns the error of the queue. The result
    [None] is the nil error. *)
Definition notify (id : Resources.ID) : prog (option error) :=
  Call (GetStorageClient (ID_Type id)) (fun storage =>
  match storage with
  | Some err => Ret (Some err)
  | None =>
  Call (StorageGet (ID_String id)) (fun got =>
  match got with
  | inl err => Ret (Some err)
  | inr (h, obj) =>
  match provisioningState h (VObject obj) with
  | Panic msg => Crash msg
  | Done (ps, h) =>
  if negb (IsTerminal ps) then
    Ret (Some (ErrorString
                 ("resource " ++ ID_String id ++ " is not in a terminal state: " ++ ps)))
  else
  match setProvisioningState h (VObject obj) ProvisioningStateUpdating with
  | Panic msg => Crash msg
  | Done h =>
  save h obj (fun err =>
  match err with
  | Some err => Ret (Some err)
  | None =>
  let options :=
    {| OperationTimeout := Minute * 60; RetryAfter := DefaultRetryAfterDuration |} in
  Call NewUUID (fun uuid =>
  let sCtx :=
    {| ResourceID := id;
       OperationID := uuid;
       OperationType_ := {| Type_ := ToUpper (ID_Type id); Method := "PUT" |} |} in
  Call GetStatusManager (fun statusManager =>
  if negb statusManager then Crash nilDereference
  else
  Call (QueueAsyncOperation sCtx options) (fun err =>
  match err with
  | Some err =>
      match setProvisioningState h (VObject obj) ProvisioningStateFailed with
      | Panic msg => Crash msg
      | Done h =>
          save h obj (fun saveErr =>
          match saveErr with
          | Some saveErr => Ret (Some saveErr)
          | None => Ret (Some err)
          end)
      end
  | None => Ret None
  end)))
  end)
  end
  end
  end)
  end).

(** The collaborators: what each call returns, given the calls made
    before it. *)
Definition oracle := forall (past : list call) (c : call), response c.

(** A run of a program against its collaborators: its outcome and the
    calls it made, in order. *)
Fixpoint run {A} (o : oracle) (p : prog A) (past : list call) : outcome A * list call :=
  match p with
  | Ret a => (Done a, past)
  | Crash msg => (Panic msg, past)
  | Call c k => run o (k (o past c)) (past ++ [c])%list
  end.

Definition isSave (c : call) : bool :=
  match c with StorageSave _ _ _ => true | _ => false end.
Definition isQueue (c : call) : bool :=
  match c with QueueAsyncOperation _ _ => true | _ => false end.

End filter.

Arguments Ret {_ A} a.
Arguments Crash {_ A} msg.
Arguments Call {_ A} c k.

End Notifications.

(* ================================================================== *)
(** * Package api of the dynamic resource provider *)
(* ================================================================== *)

Module Api.
Import V1.

(** fromProvisioningStateDataModel: the provisioning state of the data
    model as the versioned API shows it. *)
Definition fromProvisioningStateDataModel (input : ProvisioningState) : string :=
  if String.eqb input EmptyString then ProvisioningStateSucceeded else input.

End Api.

(* ================================================================== *)
(** * Package validator: API versions and the handlers of dispatch failures *)
(* ================================================================== *)

Module Validator.
Import Strings.

(** v1.ErrorDetails inside v1.ErrorResponse: the body of an error. *)
Record ErrorDetails := {
  Code : string;
  Message : string;
}.

Record ErrorResponse := {
  Error_ : ErrorDetails;
}.

Definition CodeInvalidApiVersionParameter : string := "InvalidApiVersionParameter".

(** Modelled from the spec: the API validator of package validator is not
    part of the sources at hand. An unsupported api-version yields an
    error with code InvalidApiVersionParameter whose message lists the
    supported set; the wording is the one that
    Test_RequestWithBadAPIVersion expects of the server. *)
Definition invalidAPIVersion (resourceType apiVersion : string) (supported : list string)
    : ErrorResponse :=
  {| Error_ :=
       {| Code := CodeInvalidApiVersionParameter;
          Message :=
            "API version " ++ squote ++ apiVersion ++ squote ++
            " for type " ++ squote ++ resourceType ++ squote ++
            " is not supported. The supported api-versions are " ++
            squote ++ Join supported ", " ++ squote ++ "." |} |}.

(** Modelled from the spec: the check of the api-version query parameter of
    a request against the supported set of its resource type; [None] lets
    the request through. *)
Definition validateAPIVersion (resourceType : string) (supported : list string)
    (apiVersion : string) : option ErrorResponse :=
  if existsb (String.eqb apiVersion) supported then None
  else Some (invalidAPIVersion resourceType apiVersion supported).

Definition StatusNotFound : nat := 404.
Definition StatusMethodNotAllowed : nat := 405.

(** Modelled from the spec: validator.APINotFoundHandler and
    validator.APIMethodNotAllowedHandler are not part of the sources at
    hand; a dispatch failure surfaces as a client-visible NotFound or
    MethodNotAllowed, that is HTTP 404 or 405, as Test_NotFound and
    Test_MethodNotAllowed expect of the server. *)
Definition APINotFoundHandler : nat := StatusNotFound.
Definition APIMethodNotAllowedHandler : nat := StatusMethodNotAllowed.

End Validator.

(* ================================================================== *)
(** * Package frontend of the dynamic resource provider: the routes *)
(* ================================================================== *)

Module Frontend.
Import Strings Validator.

#[local] Set Warnings "-register-all".

(** One segment of a route pattern: a literal, a parameter {name}, or a
    parameter with a regular expression {name:regexp}, kept as the finite
    set of the segments that the expression matches. *)
Inductive segment :=
  | Static (s : string)
  | Param (name : string)
  | Regexp (name : string) (matching : list string).

(** v1.OperationMethod, as far as the routes use it. *)
Inductive OperationMethod :=
  | OperationPlaneScopeList
  | OperationList
  | OperationGet
  | OperationPut
  | OperationDelete.

(** What is registered on a router: a handler for a method and a pattern
    (r.Handle, r.Get), or a sub-router mounted under a pattern (r.Route). *)
Inductive entry :=
  | Handle (method : string) (pattern : list segment) (operation : OperationMethod)
  | Route (pattern : list segment) (sub : list entry).

(** A request: its method and the segments of its path. *)
Record Request := {
  Method : string;
  Path : list string;
}.

(** What the server does with a request: it answers with a status, or it
    invokes the handler of an operation. *)
Inductive Response :=
  | Status (code : nat)
  | Invoke (operation : OperationMethod).

(** chi.Mux: the handlers of the two dispatch failures and the routes. *)
Record Mux := {
  notFoundHandler : nat;
  methodNotAllowedHandler : nat;
  routes : list entry;
}.

Definition segmentMatches (seg : segment) (s : string) : bool :=
  match seg with
  | Static t => String.eqb t s
  | Param _ => true
  | Regexp _ matching => existsb (String.eqb s) matching
  end.

(** The pattern matches the whole path. *)
Fixpoint patternMatches (pattern : list segment) (path : list string) : bool :=
  match pattern, path with
  | [], [] => true
  | seg :: pattern', s :: path' => segmentMatches seg s && patternMatches pattern' path'
  | _, _ => false
  end.

(** The pattern matches the head of the path: what is left of the path. *)
Fixpoint mountMatches (pattern : list segment) (path : list string) : option (list string) :=
  match pattern, path with
  | [], _ => Some path
  | seg :: pattern', s :: path' =>
      if segmentMatches seg s then mountMatches pattern' path' else None
  | _ :: _, [] => None
  end.

(** Modelled from the spec: the router is a collaborator of which only the
    contract is specified. The handlers that a request reaches by its path:
    a handler when its pattern matches the path, the handlers of a
    sub-router for the rest of the path when its mount point matches. *)
Fixpoint reached (e : entry) (path : list string) : list (string * OperationMethod) :=
  match e with
  | Handle method pattern operation =>
      if patternMatches pattern path then [(method, operation)] else []
  | Route pattern sub =>
      match mountMatches pattern path with
      | Some rest =>
          (fix each (es : list entry) : list (string * OperationMethod) :=
             match es with
             | [] => []
             | e' :: es' => (reached e' rest ++ each es')%list
             end) sub
      | None => []
      end
  end.

Definition reachedAll (es : list entry) (path : list string) : list (string * OperationMethod) :=
  flat_map (fun e => reached e path) es.

(** Modelled from the spec: a request that matches no registered route goes
    to the NotFound handler, one whose path matches a route with no
    registration for its method goes to the MethodNotAllowed handler. *)
Definition ServeHTTP (mux : Mux) (r : Request) : Response :=
  match reachedAll (routes mux) (Path r) with
  | [] => Status (notFoundHandler mux)
  | found =>
      match find (fun mo => String.eqb (fst mo) (Method r)) found with
      | Some (_, operation) => Invoke operation
      | None => Status (methodNotAllowedHandler mux)
      end
  end.

(** The routes of a router with the patterns of the sub-routers unfolded:
    each handler with its method and its whole pattern. *)
Fixpoint registered (e : entry) : list (string * list segment * OperationMethod) :=
  match e with
  | Handle method pattern operation => [(method, pattern, operation)]
  | Route pattern sub =>
      map (fun r => (fst (fst r), (pattern ++ snd (fst r))%list, snd r))
          ((fix each (es : list entry) :=
              match es with
              | [] => []
              | e' :: es' => (registered e' ++ each es')%list
              end) sub)
  end.

Definition registeredAll (es : list entry) : list (string * list segment * OperationMethod) :=
  flat_map registered es.

(** registerRoutes: the ARM handlers for invalid requests, then the routes
    of the dynamic resource provider under the path base, given by its
    segments (none for the empty path base, which the code turns into the
    root). *)
Definition registerRoutes (pathBase : list string) : Mux :=
  {| notFoundHandler := APINotFoundHandler;
     methodNotAllowedHandler := APIMethodNotAllowedHandler;
     routes :=
       [Route (map Static pathBase)
          [Route [Static "planes"; Static "radius"; Param "planeName"]
             [Route [Static "providers"; Param "providerNamespace"]
                [Handle "GET" [Param "resourceType"] OperationPlaneScopeList;
                 Route [Static "locations"; Param "locationName"]
                   [Handle "GET"
                      [Regexp "or" ["operationResults"; "operationresults"];
                       Param "operationID"]
                      OperationGet;
                    Handle "GET"
                      [Regexp "os" ["operationStatuses"; "operationstatuses"];
                       Param "operationID"]
                      OperationGet]];
              Route [Regexp "rg" ["resourcegroups"; "resourceGroups"];
                     Param "resourceGroupName";
                     Static "providers"; Param "providerNamespace"; Param "resourceType"]
                [Handle "GET" [] OperationList;
                 Route [Param "resourceName"]
                   [Handle "GET" [] OperationGet;
                    Handle "PUT" [] OperationPut;
                    Handle "DELETE" [] OperationDelete]]]]] |}.

End Frontend.
(* ================================================================== *)
(** * Reference implementations of the interfaces *)
(* ================================================================== *)

(** Modelled from the spec: package resources is not part of the sources at
    hand. A resource id is a sequence of scope segments
    (planes/{planeType}/{planeName}[/resourceGroups/{name}]) followed by a
    provider segment (providers/{namespace}) and zero or more type/name
    pairs; every type segment has a non-empty name except possibly the last;
    segment keywords and scope types are compared case-insensitively.
    Parsing fails when segment counts are odd, a keyword is missing, or an
    empty name appears where one is required. *)
Module ResourcesModel.
Import Strings Resources.

Record ID := {
  scopeSegments : list (string * string);
  providerNamespace : option string;
  typeSegments : list (string * string);
}.

Definition segments (ss : list (string * string)) : string :=
  fold_right
    (fun '(t, n) acc =>
       SegmentSeparator ++ t ++
       (if String.eqb n EmptyString then EmptyString else SegmentSeparator ++ n) ++ acc)
    EmptyString ss.

Definition RootScope (id : ID) : string :=
  match scopeSegments id with
  | [] => EmptyString
  | ss => SegmentSeparator ++ PlanesSegment ++ segments ss
  end.

Definition PlaneScope (id : ID) : string :=
  match scopeSegments id with
  | [] => EmptyString
  | plane :: _ => SegmentSeparator ++ PlanesSegment ++ segments [plane]
  end.

Definition String_ (id : ID) : string :=
  RootScope id ++
  match providerNamespace id with
  | None => EmptyString
  | Some ns =>
      SegmentSeparator ++ ProvidersSegment ++ SegmentSeparator ++ ns ++
      segments (typeSegments id)
  end.

Fixpoint findScope (ss : list (string * string)) (scopeType : string) : string :=
  match ss with
  | [] => EmptyString
  | (t, n) :: rest => if EqualFold t scopeType then n else findScope rest scopeType
  end.

Definition FindScope (id : ID) (scopeType : string) : string :=
  findScope (scopeSegments id) scopeType.

Definition ProviderNamespace (id : ID) : string :=
  default EmptyString (providerNamespace id).

Definition Type_ (id : ID) : string :=
  match providerNamespace id with
  | None => EmptyString
  | Some ns => Join (ns :: map fst (typeSegments id)) SegmentSeparator
  end.

Definition Append (id : ID) (seg : TypeSegment) : ID :=
  {| scopeSegments := scopeSegments id;
     providerNamespace := providerNamespace id;
     typeSegments := (typeSegments id ++ [(Resources.Type_ seg, Resources.Name seg)])%list |}.

(** The scope segments at the head of a list of path segments, and what
    follows them (from the providers keyword on). *)
Fixpoint parseScopes (toks : list string) : option (list (string * string) * list string) :=
  match toks with
  | [] => Some ([], [])
  | t :: rest =>
      if EqualFold t ProvidersSegment then Some ([], toks)
      else
        match rest with
        | [] => None
        | n :: rest' =>
            if String.eqb t EmptyString || String.eqb n EmptyString then None
            else
              match parseScopes rest' with
              | Some (ss, after) => Some ((t, n) :: ss, after)
              | None => None
              end
        end
  end.

Fixpoint parseTypes (toks : list string) : option (list (string * string)) :=
  match toks with
  | [] => Some []
  | t :: rest =>
      if String.eqb t EmptyString then None
      else
        match rest with
        | [] => Some [(t, EmptyString)]
        | n :: rest' =>
            if String.eqb n EmptyString then None
            else
              match parseTypes rest' with
              | Some ts => Some ((t, n) :: ts)
              | None => None
              end
        end
  end.

Definition malformed (path : string) : string :=
  squote ++ path ++ squote ++ " is not a valid resource id".

Definition Parse (path : string) : string + ID :=
  match Split path "/"%char with
  | first :: planes :: toks =>
      if String.eqb first EmptyString && EqualFold planes PlanesSegment then
        match parseScopes toks with
        | Some (ss, []) =>
            match ss with
            | [] => inl (malformed path)
            | _ => inr {| scopeSegments := ss; providerNamespace := None; typeSegments := [] |}
            end
        | Some (ss, _ :: ns :: types) =>
            match ss, parseTypes types with
            | _ :: _, Some ts =>
                if String.eqb ns EmptyString then inl (malformed path)
                else inr {| scopeSegments := ss; providerNamespace := Some ns; typeSegments := ts |}
            | _, _ => inl (malformed path)
            end
        | _ => inl (malformed path)
        end
      else inl (malformed path)
  | _ => inl (malformed path)
  end.

Definition ParseScope (path : string) : string + ID :=
  match Parse path with
  | inr id =>
      match providerNamespace id with
      | None => inr id
      | Some _ => inl (malformed path)
      end
  | inl msg => inl msg
  end.

Definition ParseResource (path : string) : string + ID :=
  match Parse path with
  | inr id =>
      match typeSegments id with
      | [] => inl (malformed path)
      | _ => inr id
      end
  | inl msg => inl msg
  end.

#[export] Instance pkg : Resources.Pkg := {|
  Resources.ID := ID;
  Resources.ID_String := String_;
  Resources.ID_PlaneScope := PlaneScope;
  Resources.ID_RootScope := RootScope;
  Resources.ID_FindScope := FindScope;
  Resources.ID_ProviderNamespace := ProviderNamespace;
  Resources.ID_Type := Type_;
  Resources.ID_Append := Append;
  Resources.ParseScope := ParseScope;
  Resources.ParseResource := ParseResource;
|}.

End ResourcesModel.

(** A stand-in for net/url: the one rule kept is that a URL with an ASCII
    control character is refused. *)
Module UrlModel.

Definition control (c : ascii) : bool :=
  let n := nat_of_ascii c in Nat.ltb n 32 || Nat.eqb n 127.

Fixpoint hasControl (s : string) : bool :=
  match s with
  | EmptyString => false
  | String c s' => control c || hasControl s'
  end.

Definition Parse (rawURL : string) : string + string :=
  if hasControl rawURL then inl "net/url: invalid control character in URL"
  else inr rawURL.

#[export] Instance pkg : Url.Pkg := {| Url.URL := string; Url.Parse := Parse |}.

End UrlModel.

(** A storage client over a finite map: a key with no object is not found. *)
Module MemoryStore.
Import Errors Store.

Definition client (objects : gmap string Object) : StorageClient :=
  {| Get := fun id =>
       match objects !! id with
       | Some obj => inr obj
       | None => inl ErrNotFound
       end |}.

End MemoryStore.
(** Example data: the plane /planes/radius/local with a legacy provider
    for Applications.Core, the resource group rg1, and a location global of
    Applications.Core that lists containers for one API version. *)
Module RoutingExamples.
Import Strings Errors Resources Datamodel Store ResourcesModel.

Definition planeKey : string := "/planes/radius/local".
Definition groupKey : string := "/planes/radius/local/resourceGroups/rg1".
Definition locationKey : string :=
  "/planes/radius/local/providers/System.Resources/resourceProviders/Applications.Core/locations/global".
Definition apiVersion : string := "2023-10-01-preview".

Definition plane : RadiusPlane :=
  {| ResourceProviders := {[ "Applications.Core" := "http://rp:8080" ]} |}.
Definition group : ResourceGroup := {| ResourceGroup_ID := groupKey |}.

Definition containers : LocationResourceTypeConfiguration :=
  {| APIVersions := {[ apiVersion := tt ]} |}.
Definition location (address : option string) : Location :=
  {| Address := address; ResourceTypes := [("containers", containers)] |}.

Definition object (p : Payload) : Object := {| Data := p |}.

(** The plane and the group, and no location: legacy routing. *)
Definition legacyObjects : gmap string Object :=
  {[ planeKey := object (PRadiusPlane plane);
     groupKey := object (PResourceGroup group) ]}.

(** The same with the location, which declares [address]. *)
Definition declarativeObjects (address : option string) : gmap string Object :=
  <[ locationKey := object (PLocation (location address)) ]> legacyObjects.

(** The plane with no resource group in it. *)
Definition planeObjects : gmap string Object :=
  {[ planeKey := object (PRadiusPlane plane) ]}.

(** A resource group whose plane was deleted. *)
Definition orphanObjects : gmap string Object :=
  {[ groupKey := object (PResourceGroup group) ]}.

Definition resource (type name : string) : @Resources.ID ResourcesModel.pkg :=
  {| scopeSegments := [("radius", "local"); ("resourceGroups", "rg1")];
     providerNamespace := Some "Applications.Core";
     typeSegments := [(type, name)] |}.

Definition container : @Resources.ID ResourcesModel.pkg := resource "containers" "c1".
Definition gateway : @Resources.ID ResourcesModel.pkg := resource "gateways" "g1".

End RoutingExamples.

(** Example data for the declarative filter: a stored container whose data
    holds properties, read at location 1 of the heap. *)
Module NotifyExamples.
Import Strings Errors Resources Json Heap V1 Notifications.

(** Modelled from the spec: the declaration of store.Object is not part
    of the sources at hand; the spec has a payload and an ETag. The users
    of the type write store.Object{Metadata: store.Metadata{}, Data: ...}
    and read obj.ETag, a field of the embedded Metadata. encoding/json
    writes the fields of an embedded struct as members of the object itself
    and every other field as one member under the name of the field: the
    metadata (ID, ETag, and the API version and content type, which the
    sources never set) and, beside them, the data as the value of the
    member Data. *)
#[export] Instance encoding : ObjectEncoding := {|
  objectMembers := fun id etag data =>
    [("ID", JString id); ("ETag", JString etag);
     ("APIVersion", JString EmptyString); ("ContentType", JString EmptyString);
     ("Data", data)]
|}.

Definition containerKey : string :=
  "/planes/radius/local/resourceGroups/rg1/providers/Applications.Core/containers/c1".

(** The heap after the read: the object, its data, and the properties in
    the data. *)
Definition stored (properties : gmap string value) : heap :=
  {[ 1%positive := CObject {| ID := containerKey; ETag := "etag-1"; Data := VMap 2 |};
     2%positive := CMap {[ "properties" := VMap 3 ]};
     3%positive := CMap properties ]}.

Definition updating : heap := stored {[ "provisioningState" := VString "Updating" ]}.
Definition succeeded : heap := stored {[ "provisioningState" := VString "Succeeded" ]}.
Definition stateless : heap := stored {[ "image" := VString "nginx" ]}.

Definition retryAfter : Z := 60 * 1000000000.

(** Collaborators that return the object at location 1 of [h] on a read,
    accept every save, and answer the queueing of the operation with
    [queued]. *)
Definition scripted (h : heap) (queued : option error) : @oracle ResourcesModel.pkg :=
  fun past c =>
    match c as c' return response c' with
    | GetStorageClient _ => None
    | StorageGet _ => inr (h, 1%positive)
    | StorageSave _ _ _ => None
    | NewUUID => "6f1c2a2e-0000-4000-8000-000000000001"
    | GetStatusManager => true
    | QueueAsyncOperation _ _ => queued
    end.

Definition queueDown : error := ErrorString "queue is not available".

(** notify on the container, with the terminal states of the spec. *)
Definition notifyContainer : prog (option error) :=
  @notify ResourcesModel.pkg encoding V1.IsTerminal retryAfter RoutingExamples.container.

(** The heap of the last save of a list of calls. *)
Definition lastSaved (calls : list (@call ResourcesModel.pkg)) : heap :=
  fold_left (fun h c => match c with StorageSave hs _ _ => hs | _ => h end) calls ∅.

End NotifyExamples.
(* ================================================================== *)
(** * The kinds of error of the routing validator *)
(* ================================================================== *)

Module ErrorKinds.
Import Errors.

(** The kinds of error of the validator, as errors.Is tells them apart: a
    NotFoundError, an InvalidError, an error of the parsers of package
    resources, or a failure of the store other than not-found, wrapped
    with a message. An error has one kind at most. *)
Definition errorKind (err : error) : Prop :=
  (Is_NotFoundError err = true /\ Is_InvalidError err = false) \/
  (Is_InvalidError err = true /\ Is_NotFoundError err = false) \/
  (Is_NotFoundError err = false /\ Is_InvalidError err = false /\
   ((exists msg, err = ResourcesError msg) \/
    (exists msg cause, err = Errorf msg (StoreError (ErrStore cause))))).

End ErrorKinds.
(** More example data for the routing validator. *)
Module RoutingExamples2.
Import Strings Errors Resources Datamodel Store ResourcesModel RoutingExamples.

(** A resource of a provider that the plane does not register. *)
Definition unregistered : @Resources.ID ResourcesModel.pkg :=
  {| scopeSegments := [("radius", "local"); ("resourceGroups", "rg1")];
     providerNamespace := Some "Applications.Other";
     typeSegments := [("widgets", "w1")] |}.

(** A type with no API version. *)
Definition unversioned : LocationResourceTypeConfiguration := {| APIVersions := ∅ |}.

(** A table with two types, and one with two names equal under case
    folding. *)
Definition twoTypes : list (string * LocationResourceTypeConfiguration) :=
  [("containers", containers); ("gateways", unversioned)].
Definition clashingTypes : list (string * LocationResourceTypeConfiguration) :=
  [("containers", containers); ("Containers", unversioned)].

(** The plane, the group and a location with the table [resourceTypes]. *)
Definition tableObjects (resourceTypes : list (string * LocationResourceTypeConfiguration))
    : gmap string Object :=
  <[ locationKey := object (PLocation {| Address := None; ResourceTypes := resourceTypes |}) ]>
    legacyObjects.

End RoutingExamples2.
(* ================================================================== *)
(** * The calls of notify, by kind *)
(* ================================================================== *)

Module NotifyCalls.
Import Resources Heap Notifications.

(** The collaborator that a call goes to. *)
Inductive kind :=
  | KStorageClient
  | KGet
  | KSave
  | KUUID
  | KStatusManager
  | KQueue.

Definition kindOf `{Resources.Pkg} (c : call) : kind :=
  match c with
  | GetStorageClient _ => KStorageClient
  | StorageGet _ => KGet
  | StorageSave _ _ _ => KSave
  | NewUUID => KUUID
  | GetStatusManager => KStatusManager
  | QueueAsyncOperation _ _ => KQueue
  end.

(** The calls of notify in the order of its statements: the storage
    client, the read, the save of Updating, the UUID of the operation, the
    status manager, the queueing, and the save of Failed. *)
Definition order : list kind :=
  [KStorageClient; KGet; KSave; KUUID; KStatusManager; KQueue; KSave].

End NotifyCalls.
(* ================================================================== *)
(** * What a decoded value holds *)
(* ================================================================== *)

Module Decoded.
Import Json Heap.

Section items.
Variable P : json -> value -> Prop.

(** The items of an array and the values of a slice, one by one. *)
Fixpoint holdsAll (items : list json) (vs : list value) : Prop :=
  match items, vs with
  | [], [] => True
  | j :: items', v :: vs' => P j v /\ holdsAll items' vs'
  | _, _ => False
  end.

(** Each member that is the one kept for its name, and the entry of the
    map under that name. *)
Fixpoint holdsEach (kept : string -> option json) (m : gmap string value)
    (members : list (string * json)) : Prop :=
  match members with
  | [] => True
  | (k, j) :: members' =>
      (kept k = Some j -> exists v, m !! k = Some v /\ P j v) /\
      holdsEach kept m members'
  end.

End items.

(** The value [v] holds the document [j] in the heap [h], in cells that
    [old] does not have: a scalar is the scalar of the document; a slice
    holds the items of an array, in order; a map holds under each name the
    member that [member] gives for it, and nothing under other names. *)
Fixpoint holds (old h : heap) (j : json) (v : value) {struct j} : Prop :=
  match j with
  | JNull => v = VNil
  | JBool b => v = VBool b
  | JNumber n => v = VNumber n
  | JString s => v = VString s
  | JArray items =>
      exists l vs, v = VSlice l /\ old !! l = None /\ h !! l = Some (CSlice vs) /\
                   holdsAll (holds old h) items vs
  | JObject members =>
      exists l m, v = VMap l /\ old !! l = None /\ h !! l = Some (CMap m) /\
                  (forall k, member k members = None -> m !! k = None) /\
                  holdsEach (holds old h) (fun k => member k members) m members
  end.

End Decoded.

(* ================================================================== *)
(** * The clients of the SDK that the filter lists resources with *)
(* ================================================================== *)

Module Generated.
Import Errors Heap.

(** generated.GenericResource, with the fields that the filter reads: ID,
    a *string, and Properties, a map[string]any. *)
Record GenericResource := {
  ID : option string;
  Properties : option loc;
}.

(** The response of a page of a listing: Value, a slice of pointers to
    resources, nil pointers among them, and the heap that holds the
    properties of these resources. *)
Record ListResponse := {
  Cells : heap;
  Value : list (option GenericResource);
}.

(** The clients and pagers are not part of the sources at hand; the filter
    is verified against this interface, for every implementation of it.
    The creation of a client fails or gives a client; a client gives a
    pager; More reads the state of a pager and leaves it as it is; NextPage
    fails, or gives a page and the pager past it. *)
Class Sdk := {
  ResourceProvidersClient : Type;
  ResourceProvidersPager : Type;
  NewResourceProvidersClient : error + ResourceProvidersClient;
  NewListPager : ResourceProvidersClient -> string -> ResourceProvidersPager;
  ResourceProvidersPager_More : ResourceProvidersPager -> bool;
  GenericResourcesClient : Type;
  GenericResourcesPager : Type;
  NewGenericResourcesClient : string -> string -> error + GenericResourcesClient;
  NewListByRootScopePager : GenericResourcesClient -> GenericResourcesPager;
  More : GenericResourcesPager -> bool;
  NextPage : GenericResourcesPager -> error + ListResponse * GenericResourcesPager;
}.

End Generated.

(* ================================================================== *)
(** * Package notifications: Send and the resources it finds *)
(* ================================================================== *)

Module Filter.
Import Strings Errors Resources Json Heap V1 Notifications.

Definition Reason := string.
Definition NotificationReasonUpdated : Reason := "updated".
Definition NotificationReasonDeleted : Reason := "deleted".

(** The notification of a change of an infrastructure resource. *)
Record Notification `{Resources.Pkg} := {
  ID : Resources.ID;
  Reason_ : Reason;
}.

(** The string id of an item of outputResources, when the item is an
    object that has one. *)
Definition idOf (outputResource : json) : option string :=
  match outputResource with
  | JObject resource =>
      match member "id" resource with
      | Some (JString id) => Some id
      | _ => None
      end
  | _ => None
  end.

(** $.status.outputResources[*].id of the JSON properties of a resource:
    the string ids of the objects of the array, in order. *)
Definition outputResourceIDs (properties : list (string * json)) : list string :=
  match member "status" properties with
  | Some (JObject status) =>
      match member "outputResources" status with
      | Some (JArray outputResources) => omap idOf outputResources
      | _ => []
      end
  | _ => []
  end.

Section filter.
Context `{Resources.Pkg} `{ObjectEncoding} `{Generated.Sdk}.

(** Taken as parameters, their declarations not being part of the
    sources at hand: the terminal states of v1.ProvisioningState,
    v1.DefaultRetryAfterDuration, and resources.MustParse, which returns
    the id that a string parses to or panics. *)
Variable IsTerminal : ProvisioningState -> bool.
Variable DefaultRetryAfterDuration : Z.
Variable MustParse : string -> outcome Resources.ID.

(** The ids parsed one after the other; the first panic ends it. *)
Fixpoint mustParseAll (ids : list string) : outcome (list Resources.ID) :=
  match ids with
  | [] => Done []
  | id :: rest =>
      match MustParse id with
      | Panic msg => Panic msg
      | Done parsed =>
          match mustParseAll rest with
          | Panic msg => Panic msg
          | Done more => Done (parsed :: more)
          end
      end
  end.

(** The items of a slice. *)
Definition sliceItems (h : heap) (l : loc) : list value :=
  match h !! l with
  | Some (CSlice items) => items
  | _ => []
  end.

(** The loop of infrastructure over outputResources: an item that is no
    map, has no id, or an id that is no string, is passed over. *)
Fixpoint rangeOutputResources (h : heap) (outputResources : list value)
    (results : list Resources.ID) : outcome (list Resources.ID) :=
  match outputResources with
  | [] => Done results
  | outputResource :: rest =>
      match outputResource with
      | VMap resource =>
          match mapLookup h resource "id" with
          | Some (VString id) =>
              match MustParse id with
              | Panic msg => Panic msg
              | Done parsed => rangeOutputResources h rest (results ++ [parsed])%list
              end
          | _ => rangeOutputResources h rest results
          end
      | _ => rangeOutputResources h rest results
      end
  end.

(** infrastructure extracts $properties.status.outputResources[*].id. The
    nil slice and the empty one are both the empty list. *)
Definition infrastructure (h : heap) (resource : option Generated.GenericResource)
    : outcome (list Resources.ID) :=
  match resource with
  | None => Panic nilDereference
  | Some resource =>
      match lookupIn h (Generated.Properties resource) "status" with
      | Some (VMap status) =>
          match mapLookup h status "outputResources" with
          | Some (VSlice outputResources) =>
              rangeOutputResources h (sliceItems h outputResources) []
          | _ => Done []
          end
      | _ => Done []
      end
  end.

(** *resource.ID, for a pointer to a resource. *)
Definition resourceID (resource : option Generated.GenericResource) : outcome string :=
  match resource with
  | Some {| Generated.ID := Some id |} => Done id
  | _ => Panic nilDereference
  end.

(** The loop of impactedResources over the infrastructure of one resource,
    with its variable matched: the id of the resource is added at the
    first id of the infrastructure that equals the id of the notification
    under case folding, and the loop breaks. *)
Fixpoint rangeInfrastructure (notification : Notification)
    (resource : option Generated.GenericResource) (infrastructure : list Resources.ID)
    (results : list Resources.ID) (matched : bool) : outcome (list Resources.ID) :=
  match infrastructure with
  | [] => Done results
  | id :: rest =>
      match
        (if EqualFold (ID_String id) (ID_String (ID notification)) then
           match resourceID resource with
           | Panic msg => Panic msg
           | Done resourceID =>
               match MustParse resourceID with
               | Panic msg => Panic msg
               | Done parsed => Done ((results ++ [parsed])%list, true)
               end
           end
         else Done (results, matched))
      with
      | Panic msg => Panic msg
      | Done (results, matched) =>
          if matched then Done results
          else rangeInfrastructure notification resource rest results matched
      end
  end.

(** The loop of impactedResources over the resources of a page. *)
Fixpoint rangeValue (notification : Notification) (h : heap)
    (value : list (option Generated.GenericResource)) (results : list Resources.ID)
    : outcome (list Resources.ID) :=
  match value with
  | [] => Done results
  | resource :: rest =>
      match infrastructure h resource with
      | Panic msg => Panic msg
      | Done ids =>
          match rangeInfrastructure notification resource ids results false with
          | Panic msg => Panic msg
          | Done results => rangeValue notification h rest results
          end
      end
  end.

(** The loop of impactedResources over the pages, for as many pages as
    [fuel]: [None] when the pager still has more after that. *)
Fixpoint rangePages (fuel : nat) (notification : Notification)
    (pager : Generated.GenericResourcesPager) (results : list Resources.ID)
    : option (outcome (error + list Resources.ID)) :=
  match fuel with
  | O => None
  | S fuel' =>
      if Generated.More pager then
        match Generated.NextPage pager with
        | inl err => Some (Done (inl err))
        | inr (response, pager') =>
            match rangeValue notification (Generated.Cells response)
                    (Generated.Value response) results with
            | Panic msg => Some (Panic msg)
            | Done results' => rangePages fuel' notification pager' results'
            end
        end
      else Some (Done (inr results))
  end.

(** impactedResources lists the resources of a type in the plane
    /planes/radius/local and keeps those whose infrastructure names the
    resource of the notification. *)
Definition impactedResources (fuel : nat) (resourceType : string)
    (notification : Notification) : option (outcome (error + list Resources.ID)) :=
  match Generated.NewGenericResourcesClient "/planes/radius/local" resourceType with
  | inl err => Some (Done (inl err))
  | inr client => rangePages fuel notification (Generated.NewListByRootScopePager client) []
  end.

(** The loop of recipeTypes: its body is a comment, so an iteration
    changes neither the pager nor the results. *)
Fixpoint rangeProviders (fuel : nat) (pager : Generated.ResourceProvidersPager)
    (results : list string) : option (list string) :=
  match fuel with
  | O => None
  | S fuel' =>
      if Generated.ResourceProvidersPager_More pager then rangeProviders fuel' pager results
      else Some results
  end.

(** recipeTypes, for as many iterations as [fuel]: [None] when the loop
    has not ended after that. *)
Definition recipeTypes (fuel : nat) : option (error + list string) :=
  match Generated.NewResourceProvidersClient with
  | inl err => Some (inl err)
  | inr client =>
      match rangeProviders fuel (Generated.NewListPager client "local") [] with
      | None => None
      | Some results => Some (inr results)
      end
  end.

(** A program followed by another. *)
Fixpoint bind {A B} (p : prog A) (k : A -> prog B) : prog B :=
  match p with
  | Ret a => k a
  | Crash msg => Crash msg
  | Call c k' => Call c (fun r => bind (k' r) k)
  end.

(** The loop of Send over the impacted resources, then [next]. The result
    [None] of a program of Send stands for a loop that has not ended;
    [Some err] is what Send returns. *)
Fixpoint rangeImpacted (impacted : list Resources.ID)
    (next : prog (option (option error))) : prog (option (option error)) :=
  match impacted with
  | [] => next
  | resource :: rest =>
      bind (notify IsTerminal DefaultRetryAfterDuration resource)
           (fun err =>
              match err with
              | Some err => Ret (Some (Some err))
              | None => rangeImpacted rest next
              end)
  end.

(** The loop of Send over the recipe types. *)
Fixpoint rangeRecipeTypes (fuel : nat) (notification : Notification)
    (recipeTypes : list string) : prog (option (option error)) :=
  match recipeTypes with
  | [] => Ret (Some None)
  | recipeType :: rest =>
      match impactedResources fuel recipeType notification with
      | None => Ret None
      | Some (Panic msg) => Crash msg
      | Some (Done (inl err)) => Ret (Some (Some err))
      | Some (Done (inr impacted)) =>
          rangeImpacted impacted (rangeRecipeTypes fuel notification rest)
      end
  end.

(** Send notifies the resources of every recipe type that the
    notification impacts; the first error ends it. *)
Definition Send (fuel : nat) (notification : Notification) : prog (option (option error)) :=
  match recipeTypes fuel with
  | None => Ret None
  | Some (inl err) => Ret (Some (Some err))
  | Some (inr recipeTypes) => rangeRecipeTypes fuel notification recipeTypes
  end.

(** The resources that the pager lists within [fuel] pages, each with the
    heap of its page; the error of the page that fails. *)
Fixpoint listed (fuel : nat) (pager : Generated.GenericResourcesPager)
    : option (error + list (heap * option Generated.GenericResource)) :=
  match fuel with
  | O => None
  | S fuel' =>
      if Generated.More pager then
        match Generated.NextPage pager with
        | inl err => Some (inl err)
        | inr (response, pager') =>
            match listed fuel' pager' with
            | Some (inr more) =>
                Some (inr (map (pair (Generated.Cells response)) (Generated.Value response)
                             ++ more)%list)
            | other => other
            end
        end
      else Some (inr [])
  end.

(** The infrastructure of the resource names the resource of the
    notification, under case folding. *)
Definition impacts (notification : Notification)
    (listing : heap * option Generated.GenericResource) : bool :=
  match infrastructure (fst listing) (snd listing) with
  | Done ids =>
      existsb (fun id => EqualFold (ID_String id) (ID_String (ID notification))) ids
  | Panic _ => false
  end.

(** The id of a listed resource parses to [id]. *)
Definition parsesTo (listing : heap * option Generated.GenericResource) (id : Resources.ID)
    : Prop :=
  exists id', resourceID (snd listing) = Done id' /\ MustParse id' = Done id.

End filter.

(** Service.eventHandler of the notification service: the filter, when
    there is one, is sent the notification decoded from the data of the
    event; the result is the flag retry and the error. The decoder of the
    notification is a parameter. *)
Definition eventHandler `{Resources.Pkg}
    (Unmarshal : string -> error + Notification)
    (filter : option (Notification -> prog (option (option error))))
    (RawData : string) : prog (option (bool * option error)) :=
  match filter with
  | None => Ret (Some (false, None))
  | Some Send =>
      match Unmarshal RawData with
      | inl err => Ret (Some (false, Some (Errorf "failed to unmarshal event data: " err)))
      | inr n =>
          bind (Send n)
               (fun result =>
                  match result with
                  | None => Ret None
                  | Some (Some err) =>
                      Ret (Some (true, Some (Errorf "failed to send notification: " err)))
                  | Some None => Ret (Some (false, None))
                  end)
      end
  end.

End Filter.
(** Example data for the listing of the filter: two containers, the first
    of which names a bucket twice among its output resources, in two
    spellings, and a pager that gives them on one page. *)
Module FilterExamples.
Import Strings Errors Resources Json Heap V1 Notifications Filter.

(** resources.MustParse, through the parser of the reference
    implementation. *)
Definition MustParse (id : string) : outcome (@Resources.ID ResourcesModel.pkg) :=
  match ResourcesModel.Parse id with
  | inr parsed => Done parsed
  | inl msg => Panic msg
  end.

Definition bucket : string :=
  "/planes/aws/aws/accounts/1234/regions/us-west-2/providers/AWS.S3/Bucket/my-bucket".
Definition queue : string :=
  "/planes/aws/aws/accounts/1234/regions/us-west-2/providers/AWS.SQS/Queue/my-queue".

Definition outputResource (id : string) : json :=
  JObject [("id", JString id); ("radiusManaged", JBool true)].

(** The properties of the first container: output resources with the
    bucket, an item that is no object, an item with no id, and the bucket
    again in upper case. *)
Definition properties1 : list (string * json) :=
  [("environment", JString "default");
   ("status",
    JObject [("outputResources",
              JArray [outputResource bucket;
                      JString "text";
                      JObject [("name", JString "no id")];
                      outputResource (ToUpper bucket)])])].

(** The properties of the second: the queue alone. *)
Definition properties2 : list (string * json) :=
  [("status", JObject [("outputResources", JArray [outputResource queue])])].

(** The heap of the page: the properties of the first container decoded
    into the empty heap, then those of the second. *)
Definition properties1At : loc := fst (newMap ∅).
Definition cells1 : heap :=
  decodeMembers decode properties1 properties1At (snd (newMap ∅)).
Definition properties2At : loc := fst (newMap cells1).
Definition cells2 : heap :=
  decodeMembers decode properties2 properties2At (snd (newMap cells1)).

Definition container1 : Generated.GenericResource :=
  {| Generated.ID := Some NotifyExamples.containerKey;
     Generated.Properties := Some properties1At |}.
Definition container2 : Generated.GenericResource :=
  {| Generated.ID :=
       Some "/planes/radius/local/resourceGroups/rg1/providers/Applications.Core/containers/c2";
     Generated.Properties := Some properties2At |}.

Definition page : Generated.ListResponse :=
  {| Generated.Cells := cells2;
     Generated.Value := [Some container1; Some container2] |}.

(** Clients over lists of pages: a pager is the pages left; the listing
    of resource providers has [providers] pages left. *)
Definition sdk (providers : nat) (pages : list Generated.ListResponse) : Generated.Sdk :=
  {| Generated.ResourceProvidersClient := unit;
     Generated.ResourceProvidersPager := nat;
     Generated.NewResourceProvidersClient := inr tt;
     Generated.NewListPager := fun _ _ => providers;
     Generated.ResourceProvidersPager_More := fun left => negb (Nat.eqb left 0);
     Generated.GenericResourcesClient := unit;
     Generated.GenericResourcesPager := list Generated.ListResponse;
     Generated.NewGenericResourcesClient := fun _ _ => inr tt;
     Generated.NewListByRootScopePager := fun _ => pages;
     Generated.More := fun left => match left with [] => false | _ => true end;
     Generated.NextPage := fun left =>
       match left with
       | [] => inl (ErrorString "no more pages")
       | response :: left' => inr (response, left')
       end |}.

Definition bucketChanged (id : string) : @Notification ResourcesModel.pkg :=
  {| ID := match ResourcesModel.Parse id with
           | inr parsed => parsed
           | inl _ => RoutingExamples.container
           end;
     Reason_ := NotificationReasonUpdated |}.

(** Clients of a control plane that cannot be reached. *)
Definition unreachable : error := ErrorString "connection refused".
Definition sdkDown : Generated.Sdk :=
  {| Generated.ResourceProvidersClient := unit;
     Generated.ResourceProvidersPager := nat;
     Generated.NewResourceProvidersClient := inl unreachable;
     Generated.NewListPager := fun _ _ => 0;
     Generated.ResourceProvidersPager_More := fun left => negb (Nat.eqb left 0);
     Generated.GenericResourcesClient := unit;
     Generated.GenericResourcesPager := unit;
     Generated.NewGenericResourcesClient := fun _ _ => inl unreachable;
     Generated.NewListByRootScopePager := fun _ => tt;
     Generated.More := fun _ => false;
     Generated.NextPage := fun _ => inl unreachable |}.

(** A decoder of events for the examples: the data of the event is the id
    of the resource that changed. *)
Definition updated (id : @Resources.ID ResourcesModel.pkg) : @Notification ResourcesModel.pkg :=
  {| ID := id; Reason_ := NotificationReasonUpdated |}.
Definition Unmarshal (data : string) : error + @Notification ResourcesModel.pkg :=
  match ResourcesModel.Parse data with
  | inr parsed => inr (updated parsed)
  | inl msg => inl (ErrorString msg)
  end.

End FilterExamples.
(* ================================================================== *)
(** * The dynamic resource provider: the resource and its conversions *)
(* ================================================================== *)

Module DynamicRP.
Import Strings Errors Json Heap V1 Api.

(** Taken as parameters, their declarations not being part of the sources
    at hand: v1.SystemData with its zero value and its JSON form,
    v1.ErrInvalidModelConversion, the tags of the two forms of a resource
    with the nil map of the versioned one, and the functions of package to
    on strings and tags. to.StringMapPtr returns a pointer, nil when
    [None]. *)
Class Pkg := {
  SystemData : Type;
  noSystemData : SystemData;
  marshalSystemData : SystemData -> option json;
  ErrInvalidModelConversion : error;
  Tags : Type;
  TagPointers : Type;
  nilTags : TagPointers;
  to_String : option string -> string;
  to_StringMap : TagPointers -> Tags;
  to_StringMapPtr : Tags -> option TagPointers;
}.

Module Datamodel.

(** datamodel.DynamicResource: the fields of v1.BaseResource that the
    conversions read or set, and Properties, a map[string]any. *)
Record DynamicResource `{Pkg} := {
  ID : string;
  Name : string;
  Type_ : string;
  Location : string;
  Tags_ : Tags;
  UpdatedAPIVersion : string;
  AsyncProvisioningState : ProvisioningState;
  SystemData_ : SystemData;
  Properties : option loc;
}.

End Datamodel.

(** v1.DataModelInterface: a pointer to a dynamic resource, nil or not, or
    a model of another type. *)
Inductive DataModelInterface `{Pkg} :=
  | DynamicResourceModel (dm : option Datamodel.DynamicResource)
  | OtherModel.

(** api.DynamicResource, the versioned form: pointers to strings, the tags,
    the system data and the properties as maps. *)
Record DynamicResource `{Pkg} := {
  ID : option string;
  Name : option string;
  Type_ : option string;
  Location : option string;
  Tags_ : TagPointers;
  SystemData_ : option loc;
  Properties : option loc;
}.

Definition Version : string := "2023-01-01".

(** &api.DynamicResource{}: the zero value. *)
Definition zero `{Pkg} : DynamicResource :=
  {| ID := None; Name := None; Type_ := None; Location := None; Tags_ := nilTags;
     SystemData_ := None; Properties := None |}.

Section conversion.
Context `{Pkg}.

(** ConvertTo: the data model of a versioned resource. The properties are
    the map of the versioned resource itself; the error is always nil. *)
Definition ConvertTo (d : DynamicResource) : Datamodel.DynamicResource * option error :=
  ({| Datamodel.ID := to_String (ID d);
      Datamodel.Name := to_String (Name d);
      Datamodel.Type_ := to_String (Type_ d);
      Datamodel.Location := to_String (Location d);
      Datamodel.Tags_ := to_StringMap (Tags_ d);
      Datamodel.UpdatedAPIVersion := Version;
      Datamodel.AsyncProvisioningState := EmptyString;
      Datamodel.SystemData_ := noSystemData;
      Datamodel.Properties := Properties d |},
   None).

(** fromSystemDataDataModel: the system data as a map, by way of its JSON
    form. *)
Definition fromSystemDataDataModel (h : heap) (input : SystemData)
    : outcome (option loc * heap) :=
  match marshalSystemData input with
  | None => Panic "marshalling system data failed"
  | Some bs =>
      let '(result, h) := newMap h in
      match json_Unmarshal bs result h with
      | None => Panic "unmarshalling system data failed"
      | Some (result, h) => Done (result, h)
      end
  end.

(** ConvertFrom fills the versioned resource [d] from a data model: the
    error, the resource and the heap afterwards. The properties are the map
    of the data model itself, or a new map when it has none, and the
    provisioning state is written into them. *)
Definition ConvertFrom (h : heap) (d : DynamicResource) (src : DataModelInterface)
    : outcome (option error * DynamicResource * heap) :=
  match src with
  | OtherModel => Done (Some ErrInvalidModelConversion, d, h)
  | DynamicResourceModel None => Panic Notifications.nilDereference
  | DynamicResourceModel (Some dm) =>
      match to_StringMapPtr (Datamodel.Tags_ dm) with
      | None => Panic Notifications.nilDereference
      | Some tags =>
          match fromSystemDataDataModel h (Datamodel.SystemData_ dm) with
          | Panic msg => Panic msg
          | Done (systemData, h) =>
              let '(properties, h) :=
                match Datamodel.Properties dm with
                | Some properties => (Some properties, h)
                | None => let '(l, h) := newMap h in (Some l, h)
                end in
              match
                storeIn h properties "provisioningState"
                  (VString (fromProvisioningStateDataModel
                              (Datamodel.AsyncProvisioningState dm)))
              with
              | Panic msg => Panic msg
              | Done h =>
                  Done (None,
                        {| ID := Some (Datamodel.ID dm);
                           Name := Some (Datamodel.Name dm);
                           Type_ := Some (Datamodel.Type_ dm);
                           Location := Some (Datamodel.Location dm);
                           Tags_ := tags;
                           SystemData_ := systemData;
                           Properties := properties |},
                        h)
              end
          end
      end
  end.

End conversion.
End DynamicRP.
(** Example data for the conversions: a stored resource in the state
    Failed whose properties state another one, and stand-ins for the
    declarations that are parameters. *)
Module ConversionExamples.
Import Strings Errors Json Heap V1 Api DynamicRP.

#[export] Instance pkg : DynamicRP.Pkg := {|
  SystemData := string;
  noSystemData := EmptyString;
  marshalSystemData := fun createdBy => Some (JObject [("createdBy", JString createdBy)]);
  ErrInvalidModelConversion := ErrorString "invalid model conversion";
  Tags := list (string * string);
  TagPointers := list (string * option string);
  nilTags := [];
  to_String := default EmptyString;
  to_StringMap := map (fun kv => (fst kv, default EmptyString (snd kv)));
  to_StringMapPtr := fun tags => Some (map (fun kv => (fst kv, Some (snd kv))) tags);
|}.

Definition cells : heap :=
  {[ 3%positive := CMap {[ "image" := VString "nginx";
                           "provisioningState" := VString "Updating" ]} ]}.

Definition stored : Datamodel.DynamicResource :=
  {| Datamodel.ID := NotifyExamples.containerKey;
     Datamodel.Name := "c1";
     Datamodel.Type_ := "Applications.Core/containers";
     Datamodel.Location := "global";
     Datamodel.Tags_ := [("env", "dev")];
     Datamodel.UpdatedAPIVersion := Version;
     Datamodel.AsyncProvisioningState := ProvisioningStateFailed;
     Datamodel.SystemData_ := "admin";
     Datamodel.Properties := Some 3%positive |}.

(** What a conversion returned, with [fallback] for one that panicked. *)
Definition returned {A} (x : outcome A) : bool :=
  match x with Done _ => true | Panic _ => false end.
Definition valueOf {A} (fallback : A) (x : outcome A) : A :=
  match x with Done a => a | Panic _ => fallback end.

Definition converted : outcome (option error * DynamicResource * heap) :=
  ConvertFrom cells zero (DynamicResourceModel (Some stored)).
Definition versioned : DynamicResource := snd (fst (valueOf (None, zero, cells) converted)).
Definition cellsAfter : heap := snd (valueOf (None, zero, cells) converted).

(** The versioned resource sent back as it was received. *)
Definition received : outcome (option error * DynamicResource * heap) :=
  ConvertFrom cellsAfter zero (DynamicResourceModel (Some (fst (ConvertTo versioned)))).

End ConversionExamples.
(* ================================================================== *)
(** * Package frontend of the dynamic resource provider: the handler *)
(* ================================================================== *)

Module DynamicFrontend.
Import Strings Errors Resources Heap V1 DynamicRP.

(** strings.HasSuffix: [s] is at least as long as [suffix] and ends
    with it. *)
Definition HasSuffix (s suffix : string) : bool :=
  Nat.leb (String.length suffix) (String.length s) &&
  String.eqb (substring (String.length s - String.length suffix) (String.length suffix) s)
             suffix.

(** What the handler needs of its surroundings, their declarations not
    being part of the sources at hand: resources.Parse, the data provider
    of the options with its storage clients, the controllers, the decoder
    of a versioned resource from the body of a request, and the writing of
    a response of package rest, which returns an error or nil. *)
Class Pkg `{Resources.Pkg} `{DynamicRP.Pkg} := {
  Parse : string -> string + Resources.ID;
  StorageClient : Type;
  GetStorageClient : string -> error + StorageClient;
  Controller : Type;
  Unmarshal : string -> heap -> error + DynamicRP.DynamicResource * heap;
  Apply : string -> option error;
}.

Section handler.
Context `{DynamicFrontend.Pkg}.

(** controller.Options, with the fields that the handler sets and the
    address and path base that registerRoutes gives them. *)
Record Options := {
  Address : string;
  PathBase : string;
  StorageClient_ : option StorageClient;
  ResourceType : string;
}.

(** controller.ResourceOptions of the dynamic resource: the converters of
    a request and of a response. Neither reads the version. *)
Record ResourceOptions := {
  RequestConverter :
    string -> string -> heap -> error + DynamicRP.Datamodel.DynamicResource * heap;
  ResponseConverter :
    DynamicRP.Datamodel.DynamicResource -> string -> heap ->
    outcome (error + DynamicRP.DynamicResource * heap);
}.

(** What the handler does with a request: it answers with a response of
    status 400 or, when the writing of that one fails, with status 500 and
    the message of the failure; or it serves the request with the handler
    of a controller for an operation type. *)
Inductive Response :=
  | BadRequest (message : string)
  | InternalServerError (message : string)
  | Served (ctrl : Controller) (operationType : OperationType).

Definition badRequest (message : string) : Response :=
  match Apply message with
  | Some err => InternalServerError (Error err)
  | None => BadRequest message
  end.

(** The converters that the handler gives to the factory, from the
    conversions of the dynamic resource. *)
Definition converters : ResourceOptions :=
  {| RequestConverter := fun content version h =>
       match Unmarshal content h with
       | inl err => inl err
       | inr (api, h) =>
           match DynamicRP.ConvertTo api with
           | (dm, Some err) => inl err
           | (dm, None) => inr (dm, h)
           end
       end;
     ResponseConverter := fun resource version h =>
       match DynamicRP.ConvertFrom h DynamicRP.zero (DynamicRP.DynamicResourceModel (Some resource)) with
       | Panic msg => Panic msg
       | Done (Some err, _, _) => Done (inl err)
       | Done (None, api, h) => Done (inr (api, h))
       end |}.

(** The resource type that the storage client is asked for: the type of
    the id, but one type for the operation statuses and the operation
    results of a provider, which share their rows. *)
Definition storageResourceType (id : Resources.ID) : string :=
  if HasSuffix (ToLower (ID_Type id)) "locations/operationstatuses" ||
     HasSuffix (ToLower (ID_Type id)) "locations/operationresults"
  then ID_ProviderNamespace id ++ "/operationstatuses"
  else ID_Type id.

(** dynamicOperationHandler: the handler of an operation on the path of a
    request, for the controller that [factory] makes. *)
Definition dynamicOperationHandler (method : string) (opts : Options)
    (factory : Options -> ResourceOptions -> error + Controller)
    (path : string) : Response :=
  match Parse path with
  | inl msg => badRequest msg
  | inr id =>
      let operationType := {| V1.Type_ := ToUpper (ID_Type id); V1.Method := method |} in
      let opts :=
        {| Address := Address opts; PathBase := PathBase opts;
           StorageClient_ := StorageClient_ opts;
           ResourceType := storageResourceType id |} in
      match GetStorageClient (ResourceType opts) with
      | inl err => badRequest (Error err)
      | inr client =>
          let opts :=
            {| Address := Address opts; PathBase := PathBase opts;
               StorageClient_ := Some client;
               ResourceType := ResourceType opts |} in
          match factory opts converters with
          | inl err => badRequest (Error err)
          | inr ctrl => Served ctrl operationType
          end
      end
  end.

End handler.
End DynamicFrontend.
(** Example surroundings of the handler: every type has a storage client,
    named after the type, and a controller is named after the resource type
    of its options. *)
Module HandlerExamples.
Import Strings Errors Resources Heap V1 DynamicRP DynamicFrontend.
#[local] Existing Instances ResourcesModel.pkg ConversionExamples.pkg.

#[export] Instance pkg : @DynamicFrontend.Pkg ResourcesModel.pkg ConversionExamples.pkg :=
  @DynamicFrontend.Build_Pkg ResourcesModel.pkg ConversionExamples.pkg
    ResourcesModel.Parse
    string
    (fun resourceType => inr resourceType)
    string
    (fun content h => inl (ErrorString "invalid character"))
    (fun message => None).

Definition options : Options :=
  {| Address := "localhost:8082"; PathBase := EmptyString;
     StorageClient_ := None; ResourceType := EmptyString |}.

Definition factory (opts : Options) (ctrlOpts : ResourceOptions) : error + string :=
  inr (ResourceType opts).

Definition operationResult : string :=
  "/planes/radius/local/providers/Applications.Test/locations/global/operationResults/op1".
Definition operationStatus : string :=
  "/planes/radius/local/providers/Applications.Test/locations/global/operationstatuses/op1".

Definition operationResultID : @Resources.ID ResourcesModel.pkg :=
  {| ResourcesModel.scopeSegments := [("radius", "local")];
     ResourcesModel.providerNamespace := Some "Applications.Test";
     ResourcesModel.typeSegments := [("locations", "global"); ("operationResults", "op1")] |}.

End HandlerExamples.
(* ================================================================== *)
(** * The paths of the resources of the dynamic resource provider *)
(* ================================================================== *)

Module ResourcePaths.
Import Frontend.

(** The pattern under which registerRoutes registers the operations on one
    resource, without the path base. *)
Definition resourcePattern : list segment :=
  [Static "planes"; Static "radius"; Param "planeName";
   Regexp "rg" ["resourcegroups"; "resourceGroups"]; Param "resourceGroupName";
   Static "providers"; Param "providerNamespace"; Param "resourceType";
   Param "resourceName"].

(** The path of a resource in a resource group of a Radius plane, under the
    path base: the keyword of the resource group is spelled resourcegroups
    or resourceGroups. *)
Definition resourcePath (pathBase path : list string) : Prop :=
  exists planeName rg resourceGroupName providerNamespace resourceType resourceName,
    (rg = "resourcegroups" \/ rg = "resourceGroups") /\
    path = (pathBase ++
            ["planes"; "radius"; planeName; rg; resourceGroupName;
             "providers"; providerNamespace; resourceType; resourceName])%list.

End ResourcePaths.
(** Collaborators without a queue: the status manager is nil. *)
Module NotifyExamples2.
Import Strings Errors Resources Json Heap V1 Notifications NotifyExamples.

Definition withoutStatusManager (o : @oracle ResourcesModel.pkg) : @oracle ResourcesModel.pkg :=
  fun past c =>
    match c as c' return response c' with
    | GetStatusManager => false
    | c' => o past c'
    end.

End NotifyExamples2.
(* ================================================================== *)
(** * The other revision of package frontend: one list of routes *)
(* ================================================================== *)

Module FrontendFlat.
Import Strings Validator Frontend.

Definition operationBaseRoute : list segment :=
  [Static "planes"; Static "radius"; Param "planeName";
   Static "providers"; Param "providerNamespace";
   Static "locations"; Param "locationName"].
Definition planeScopedResourceCollectionRoute : list segment :=
  [Static "planes"; Static "radius"; Param "planeName";
   Static "providers"; Param "providerNamespace"; Param "resourceType"].
Definition resourceCollectionRoute : list segment :=
  [Static "planes"; Static "radius"; Param "planeName";
   Regexp "rg" ["resourcegroups"; "resourceGroups"]; Param "resourceGroupName";
   Static "providers"; Param "providerNamespace"; Param "resourceType"].
Definition resourceRoute : list segment :=
  (resourceCollectionRoute ++ [Param "resourceName"])%list.

(** registerRoutes of this revision: the same handlers for invalid
    requests, and every route registered with its whole pattern under the
    path base, given by its segments. This revision hands the path base
    to the router as it is, the empty one too. *)
Definition registerRoutes (pathBase : list string) : Mux :=
  {| notFoundHandler := APINotFoundHandler;
     methodNotAllowedHandler := APIMethodNotAllowedHandler;
     routes :=
       [Route (map Static pathBase)
          [Handle "GET"
             (operationBaseRoute ++ [Static "operationResults"; Param "operationID"])%list
             OperationGet;
           Handle "GET"
             (operationBaseRoute ++ [Static "operationStatuses"; Param "operationID"])%list
             OperationGet;
           Handle "GET" planeScopedResourceCollectionRoute OperationPlaneScopeList;
           Handle "GET" resourceCollectionRoute OperationList;
           Handle "GET" resourceRoute OperationGet;
           Handle "PUT" resourceRoute OperationPut;
           Handle "DELETE" resourceRoute OperationDelete]] |}.

(** A request for an operation result under the path base /apis. *)
Definition operationResult : Request :=
  {| Method := "GET";
     Path := ["apis"; "planes"; "radius"; "local"; "providers"; "Applications.Test";
              "locations"; "global"; "operationResults"; "op1"] |}.

End FrontendFlat.
(* ================================================================== *)
(** * Strings of ASCII bytes *)
(* ================================================================== *)

Module StringsASCII.

(** utf8.RuneSelf: the bytes below it are the characters of one byte. *)
Definition RuneSelf : nat := 128.

(** The test that strings.ToLower and strings.EqualFold make byte by byte
    before they turn to the tables of Unicode: every byte of [s] is below
    RuneSelf. On such strings the two functions change and compare the
    letters A to Z only, as Strings.ToLower and Strings.EqualFold do; on
    other strings they fold further letters. *)
Fixpoint isASCII (s : string) : bool :=
  match s with
  | EmptyString => true
  | String c rest => Nat.ltb (nat_of_ascii c) RuneSelf && isASCII rest
  end.

End StringsASCII.
(* ================================================================== *)
(** * The heap: decoding allocates, and writes only what it allocated *)
(* ================================================================== *)

Section heap_properties.
Import Json Heap.

Implicit Types (h : heap) (l : loc) (v : value) (j : json).

#[local] Arguments alloc : simpl never.
#[local] Arguments newMap : simpl never.
#[local] Arguments mapStore : simpl never.
#[local] Arguments mapLookup : simpl never.

(** An induction principle for JSON documents that goes through the items
    of an array and the members of an object. *)
Lemma json_nested_ind (P : json -> Prop) :
  P JNull ->
  (forall b, P (JBool b)) ->
  (forall n, P (JNumber n)) ->
  (forall s, P (JString s)) ->
  (forall items, Forall P items -> P (JArray items)) ->
  (forall members, Forall (fun kj => P (snd kj)) members -> P (JObject members)) ->
  forall j, P j.
Proof.
  intros Hnull Hbool Hnum Hstr Harr Hobj.
  fix IH 1. intros [| b | n | s | items | members].
  - exact Hnull.
  - apply Hbool.
  - apply Hnum.
  - apply Hstr.
  - apply Harr. induction items as [|j items IHitems]; constructor; [apply IH|exact IHitems].
  - apply Hobj. induction members as [|[k j] members IHm]; constructor;
      [apply IH|exact IHm].
Qed.

Lemma alloc_spec h c l h' :
  alloc h c = (l, h') -> h !! l = None /\ h' = <[l := c]> h.
Proof.
  unfold alloc. intros [= <- <-]. split; [|reflexivity].
  apply not_elem_of_dom, is_fresh.
Qed.

Lemma alloc_subseteq h c l h' : alloc h c = (l, h') -> h ⊆ h'.
Proof.
  intros Ha. destruct (alloc_spec _ _ _ _ Ha) as [Hl ->]. by apply insert_subseteq.
Qed.

#[local] Opaque alloc.

Lemma mapStore_ne h l k v l' : l' <> l -> mapStore h l k v !! l' = h !! l'.
Proof.
  intros Hne. unfold mapStore. destruct (h !! l) as [[m|items|o]|] eqn:E; try reflexivity.
  by rewrite lookup_insert_ne.
Qed.

Lemma mapStore_map h l k v m :
  h !! l = Some (CMap m) -> mapStore h l k v !! l = Some (CMap (<[k := v]> m)).
Proof. intros E. unfold mapStore. rewrite E. apply lookup_insert_eq. Qed.

Lemma mapLookup_mapStore h l k v m k' :
  h !! l = Some (CMap m) ->
  mapLookup (mapStore h l k v) l k' = if decide (k = k') then Some v else mapLookup h l k'.
Proof.
  intros E. unfold mapLookup. rewrite (mapStore_map _ _ _ _ _ E), E.
  apply lookup_insert.
Qed.

(** The decoding of a document keeps every cell of the heap, and returns
    a scalar or a reference to a cell that was not there. *)
Lemma decode_frame j : forall h v h',
  decode j h = (v, h') -> h ⊆ h' /\ freshIn h v.
Proof.
  induction j as [| b | n | s | items IH | members IH] using json_nested_ind;
    intros h v h'; simpl.
  - intros [= <- <-]. split; [reflexivity|exact I].
  - intros [= <- <-]. split; [reflexivity|exact I].
  - intros [= <- <-]. split; [reflexivity|exact I].
  - intros [= <- <-]. split; [reflexivity|exact I].
  - destruct (decodeItems decode items h) as [vs h1] eqn:Hitems.
    destruct (alloc h1 (CSlice vs)) as [l h2] eqn:Ha. intros [= <- <-].
    assert (Hsub : h ⊆ h1).
    { clear Ha. revert h vs h1 Hitems.
      induction IH as [|j items Hj _ IHitems]; intros h vs h1; simpl.
      - intros [= <- <-]. reflexivity.
      - destruct (decode j h) as [v0 h0] eqn:Hd.
        destruct (decodeItems decode items h0) as [vs0 h00] eqn:Hrest.
        intros [= <- <-]. transitivity h0; [apply (Hj _ _ _ Hd)|eauto]. }
    destruct (alloc_spec _ _ _ _ Ha) as [Hl ->]. split.
    + transitivity h1; [exact Hsub|by apply insert_subseteq].
    + simpl. destruct (h !! l) as [c|] eqn:E; [|reflexivity].
      rewrite (lookup_weaken _ _ _ _ E Hsub) in Hl. discriminate.
  - unfold newMap. destruct (alloc h (CMap ∅)) as [l h1] eqn:Ha. intros [= <- <-].
    destruct (alloc_spec _ _ _ _ Ha) as [Hl ->].
    split; [|exact Hl].
    assert (Hgen : forall g, (forall l' c, l' <> l -> h !! l' = Some c -> g !! l' = Some c) ->
              forall l' c, l' <> l -> h !! l' = Some c ->
                           decodeMembers decode members l g !! l' = Some c).
    { induction IH as [|[k j] members Hj _ IHm]; intros g Hg; simpl; [exact Hg|].
      destruct (decode j g) as [v0 g0] eqn:Hd. apply IHm.
      intros l' c Hne Hc. rewrite mapStore_ne by exact Hne.
      apply (lookup_weaken g); [by apply Hg|]. apply (Hj _ _ _ Hd). }
    apply map_subseteq_spec. intros l' c Hc.
    assert (l' <> l) by congruence.
    apply Hgen; [|done|done]. intros l'' c' Hne Hc'. by rewrite lookup_insert_ne.
Qed.

Lemma freshIn_anti h h' v :
  (forall l, is_Some (h !! l) -> is_Some (h' !! l)) -> freshIn h' v -> freshIn h v.
Proof.
  intros Hdom. destruct v as [| | | |l|l|l]; simpl; try done;
    intros Hv; destruct (h !! l) as [c0|] eqn:E; try done;
    destruct (Hdom l) as [c' Hc]; eauto; congruence.
Qed.

Lemma freshIn_subseteq h h' v : h ⊆ h' -> freshIn h' v -> freshIn h v.
Proof.
  intros Hsub. apply freshIn_anti. intros l [c Hc]. exists c.
  by apply (lookup_weaken h).
Qed.

Lemma isMap_mapStore h l k v : isMap h l -> isMap (mapStore h l k v) l.
Proof. intros [m E]. eexists. by apply mapStore_map. Qed.

Lemma isMap_subseteq h h' l : h ⊆ h' -> isMap h l -> isMap h' l.
Proof. intros Hsub [m E]. exists m. by apply (lookup_weaken h). Qed.

Lemma mapLookup_subseteq h h' l k : h ⊆ h' -> isMap h l -> mapLookup h' l k = mapLookup h l k.
Proof.
  intros Hsub [m E]. unfold mapLookup. by rewrite (lookup_weaken _ _ _ _ E Hsub), E.
Qed.

(** The members of an object decoded into the map at [l]: the cell stays a
    map, no other cell changes, and what the map holds is what it held or
    was not there before. *)
Lemma decodeMembers_frame members : forall l h,
  isMap h l ->
  isMap (decodeMembers decode members l h) l /\
  (forall l' c, l' <> l -> h !! l' = Some c ->
                decodeMembers decode members l h !! l' = Some c) /\
  (forall k v, mapLookup (decodeMembers decode members l h) l k = Some v ->
               mapLookup h l k = Some v \/ freshIn h v).
Proof.
  induction members as [|[k0 j0] members IH]; intros l h Hmap; simpl.
  { split; [done|]. split; [done|]. intros k v Hv. by left. }
  destruct (decode j0 h) as [v0 h1] eqn:Hd.
  destruct (decode_frame _ _ _ _ Hd) as [Hsub Hfresh].
  assert (Hmap1 : isMap h1 l) by (by apply (isMap_subseteq h)).
  destruct (IH l (mapStore h1 l k0 v0) (isMap_mapStore _ _ _ _ Hmap1)) as [IH1 [IH2 IH3]].
  split; [exact IH1|]. split.
  - intros l' c Hne Hc. apply IH2; [done|]. rewrite mapStore_ne by done.
    by apply (lookup_weaken h).
  - intros k v Hv. destruct (IH3 k v Hv) as [Hold|Hnew].
    + destruct Hmap1 as [m1 E1]. rewrite (mapLookup_mapStore _ _ _ _ _ _ E1) in Hold.
      destruct (decide (k0 = k)) as [->|Hne].
      * injection Hold as <-. by right.
      * left. rewrite <- Hold. symmetry. by apply mapLookup_subseteq.
    + right. revert Hnew. apply freshIn_anti. intros l' [c Hc].
      destruct (decide (l' = l)) as [->|Hne].
      * destruct (isMap_mapStore _ _ k0 v0 Hmap1) as [m E]. eauto.
      * exists c. rewrite mapStore_ne by done. by apply (lookup_weaken h).
Qed.

(** The member [k] of an object as the map at [l] holds it once the
    members are decoded: the value decoded from it, its cells untouched by
    what was decoded after it. *)
Lemma decodeMembers_member members k : forall l h,
  isMap h l ->
  match member k members with
  | None => mapLookup (decodeMembers decode members l h) l k = mapLookup h l k
  | Some j =>
      exists hi, isMap hi l /\
        mapLookup (decodeMembers decode members l h) l k = Some (fst (decode j hi)) /\
        (forall l' c, l' <> l -> snd (decode j hi) !! l' = Some c ->
                      decodeMembers decode members l h !! l' = Some c)
  end.
Proof.
  induction members as [|[k0 j0] members IH]; intros l h Hmap; simpl; [done|].
  destruct (decode j0 h) as [v0 h1] eqn:Hd.
  destruct (decode_frame _ _ _ _ Hd) as [Hsub Hfresh].
  assert (Hmap1 : isMap h1 l) by (by apply (isMap_subseteq h)).
  assert (Hmap2 : isMap (mapStore h1 l k0 v0) l) by (by apply isMap_mapStore).
  specialize (IH l _ Hmap2).
  destruct (member k members) as [j|]; [exact IH|].
  rewrite IH. destruct Hmap1 as [m1 E1]. rewrite (mapLookup_mapStore _ _ _ _ _ _ E1).
  destruct (String.eqb_spec k0 k) as [->|Hne].
  - rewrite decide_True by done. exists h. split; [done|]. rewrite Hd. simpl.
    split; [done|]. intros l' c Hne Hc.
    apply (decodeMembers_frame members l _ Hmap2); [done|]. by rewrite mapStore_ne.
  - rewrite decide_False by done. apply mapLookup_subseteq; done.
Qed.

Lemma decode_string j h s : fst (decode j h) = VString s -> j = JString s.
Proof.
  destruct j as [| | | |items|members]; simpl; try discriminate.
  - by intros [= ->].
  - destruct (decodeItems decode items h) as [vs h1].
    destruct (alloc h1 (CSlice vs)). discriminate.
Qed.

Lemma decode_map j h l : fst (decode j h) = VMap l -> exists members, j = JObject members.
Proof.
  destruct j as [| | | |items|members]; simpl; try discriminate.
  - destruct (decodeItems decode items h) as [vs h1].
    destruct (alloc h1 (CSlice vs)). discriminate.
  - eauto.
Qed.

Section marshalling.
Context `{ObjectEncoding}.

Lemma mapM_mono {A B} (f g : A -> option B) (xs : list A) (ys : list B) :
  (forall x y, f x = Some y -> g x = Some y) ->
  mapM f xs = Some ys -> mapM g xs = Some ys.
Proof.
  intros Hfg. rewrite !mapM_Some. intros Hall. eapply Forall2_impl; [exact Hall|exact Hfg].
Qed.

(** json.Marshal gives the same document in a larger heap and with more
    depth. *)
Lemma marshal_mono n : forall n' h h' v j,
  n <= n' -> h ⊆ h' -> marshal n h v = Some j -> marshal n' h' v = Some j.
Proof.
  induction n as [|n IH]; intros n' h h' v j Hle Hsub; simpl; [discriminate|].
  destruct n' as [|n']; [lia|]. simpl.
  assert (Hrec : forall v j, marshal n h v = Some j -> marshal n' h' v = Some j).
  { intros v0 j0. apply IH; [lia|done]. }
  destruct v as [| b | lit | s | l | l | l]; try done.
  - destruct (h !! l) as [[m|items|o]|] eqn:E; try discriminate.
    rewrite (lookup_weaken _ _ _ _ E Hsub).
    destruct (mapM _ (map_to_list m)) as [kvs|] eqn:Hm; [|discriminate].
    intros [= <-].
    match goal with
    | |- context [mapM ?g (map_to_list m)] =>
        assert (Hm' : mapM g (map_to_list m) = Some kvs)
    end.
    { eapply mapM_mono; [|exact Hm]. intros [k v] kv. simpl.
      destruct (marshal n h v) as [jv|] eqn:Hv; [|discriminate].
      intros [= <-]. by rewrite (Hrec _ _ Hv). }
    by rewrite Hm'.
  - destruct (h !! l) as [[m|items|o]|] eqn:E; try discriminate.
    rewrite (lookup_weaken _ _ _ _ E Hsub).
    destruct (mapM _ items) as [js|] eqn:Hm; [|discriminate].
    intros [= <-]. by rewrite (mapM_mono _ _ _ _ Hrec Hm).
  - destruct (h !! l) as [[m|items|o]|] eqn:E; try discriminate.
    rewrite (lookup_weaken _ _ _ _ E Hsub).
    destruct (marshal n h (Data o)) as [d|] eqn:Hd; [|discriminate].
    by rewrite (Hrec _ _ Hd).
Qed.

Lemma json_Marshal_subseteq h h' v j :
  h ⊆ h' -> json_Marshal h v = Some j -> json_Marshal h' v = Some j.
Proof.
  intros Hsub. unfold json_Marshal. apply marshal_mono; [|done].
  apply le_n_S. by apply map_subseteq_size.
Qed.

End marshalling.

End heap_properties.
(* ================================================================== *)
(** * The routing validator: properties *)
(* ================================================================== *)

Section validator_properties.
Import Strings Errors Resources Url Datamodel Store ResourceGroups.
Context `{Resources.Pkg} `{Url.Pkg}.

Implicit Types (client : StorageClient) (id : ID) (plane : RadiusPlane).
Implicit Types (location : Location) (err : error).

Lemma rangeResourceTypes_None search rts :
  rangeResourceTypes search rts = None <->
  (forall name rt, In (name, rt) rts -> EqualFold name search = false).
Proof.
  induction rts as [|[name rt] rts IH]; simpl.
  - split; [intros _ ? ? []|reflexivity].
  - destruct (EqualFold name search) eqn:E.
    + split; [discriminate|].
      intros Hall. specialize (Hall name rt (or_introl eq_refl)). congruence.
    + rewrite IH. split.
      * intros Hall n r [Heq|Hin]; [congruence|eauto].
      * intros Hall n r Hin. eauto.
Qed.

Lemma rangeResourceTypes_Some search rts rt :
  rangeResourceTypes search rts = Some rt ->
  exists name, In (name, rt) rts /\ EqualFold name search = true.
Proof.
  induction rts as [|[name rt'] rts IH]; simpl; [discriminate|].
  destruct (EqualFold name search) eqn:E.
  - intros [= <-]. eauto.
  - intros Hr. destruct (IH Hr) as [n [Hin Hn]]. eauto.
Qed.

Lemma rangeResourceTypes_lists location id :
  listsType location id ->
  exists name rt,
    rangeResourceTypes (searchOf id) (ResourceTypes location) = Some rt /\
    In (name, rt) (ResourceTypes location) /\ EqualFold name (searchOf id) = true.
Proof.
  intros [name [rt [Hin Hm]]].
  destruct (rangeResourceTypes (searchOf id) (ResourceTypes location)) as [rt'|] eqn:E.
  - destruct (rangeResourceTypes_Some _ _ _ E) as [n [Hn1 Hn2]]. eauto.
  - rewrite rangeResourceTypes_None in E. rewrite (E _ _ Hin) in Hm. discriminate.
Qed.

Lemma Is_ErrNotFound_GetResource {T} (As : Payload -> option T) client key err :
  GetResource As client key = inl err ->
  Is_ErrNotFound err = true -> err = StoreError ErrNotFound.
Proof.
  unfold GetResource. destruct (Get client key) as [e|obj].
  - intros [= <-]. destruct e; simpl; [reflexivity|discriminate].
  - destruct (As (Data obj)); [discriminate|]. intros [= <-]. discriminate.
Qed.

(** What ValidateResourceType returns once the location has been read. *)
Lemma ValidateResourceType_found client id locationName apiVersion location :
  locationLookup client id locationName (inr location) ->
  ValidateResourceType client id locationName apiVersion =
  match rangeResourceTypes (searchOf id) (ResourceTypes location) with
  | None =>
      inl (InvalidError ("resource type " ++ quoted (ID_Type id) ++
                         " not supported by location " ++ quoted locationName))
  | Some resourceType =>
      match APIVersions resourceType !! apiVersion with
      | None =>
          inl (InvalidError ("api version " ++ quoted apiVersion ++
                             " is not supported for resource type " ++ quoted (ID_Type id) ++
                             " by location " ++ quoted locationName))
      | Some _ =>
          match Address location with
          | None => inr None
          | Some address =>
              match Url.Parse address with
              | inl msg => inl (InvalidError ("failed to parse location address: " ++ msg))
              | inr u => inr (Some u)
              end
          end
      end
  end.
Proof.
  intros [providerID [Hp Hl]]. unfold ValidateResourceType. rewrite Hp, Hl. reflexivity.
Qed.

Lemma ValidateResourceType_not_found client id locationName apiVersion :
  locationLookup client id locationName (inl (StoreError ErrNotFound)) ->
  ValidateResourceType client id locationName apiVersion = inl (StoreError ErrNotFound).
Proof.
  intros [providerID [Hp Hl]]. unfold ValidateResourceType. rewrite Hp, Hl. reflexivity.
Qed.

(** An error of ValidateResourceType that is the store's not-found error
    comes from the read of the location, and from nowhere else. *)
Lemma ValidateResourceType_Is_ErrNotFound client id locationName apiVersion err :
  ValidateResourceType client id locationName apiVersion = inl err ->
  Is_ErrNotFound err = true ->
  locationLookup client id locationName (inl (StoreError ErrNotFound)).
Proof.
  unfold ValidateResourceType, locationLookup.
  destruct (ResourceProviderIDFromResourceID id) as [msg|providerID] eqn:Hp.
  { intros [= <-]. discriminate. }
  destruct (GetResource AsLocation client _) as [e|location] eqn:Hl.
  - destruct (Is_ErrNotFound e) eqn:He.
    + intros [= <-] _. exists providerID. split; [reflexivity|].
      rewrite Hl. f_equal. eapply Is_ErrNotFound_GetResource; eauto.
    + intros [= <-]. simpl. congruence.
  - destruct (rangeResourceTypes _ _) as [rt|]; [|intros [= <-]; discriminate].
    destruct (APIVersions rt !! apiVersion); [|intros [= <-]; discriminate].
    destruct (Address location) as [a|]; [|discriminate].
    destruct (Url.Parse a); [intros [= <-]|]; discriminate.
Qed.

(** ValidateResourceType never fails with a NotFoundError. *)
Lemma ValidateResourceType_not_NotFoundError client id locationName apiVersion err :
  ValidateResourceType client id locationName apiVersion = inl err ->
  Is_NotFoundError err = false.
Proof.
  unfold ValidateResourceType.
  destruct (ResourceProviderIDFromResourceID id) as [msg|providerID].
  { intros [= <-]. reflexivity. }
  destruct (GetResource AsLocation client _) as [e|location] eqn:Hl.
  - unfold GetResource in Hl. destruct (Get client _) as [se|obj].
    + injection Hl as <-. destruct se; simpl; intros [= <-]; reflexivity.
    + destruct (AsLocation (Data obj)); [discriminate|]. injection Hl as <-.
      simpl. intros [= <-]. reflexivity.
  - destruct (rangeResourceTypes _ _) as [rt|]; [|intros [= <-]; reflexivity].
    destruct (APIVersions rt !! apiVersion); [|intros [= <-]; reflexivity].
    destruct (Address location) as [a|]; [|discriminate].
    destruct (Url.Parse a); [intros [= <-]; reflexivity|discriminate].
Qed.

Lemma ValidateLegacyResourceProvider_not_NotFoundError client id plane err :
  ValidateLegacyResourceProvider client id plane = inl err ->
  Is_NotFoundError err = false.
Proof.
  unfold ValidateLegacyResourceProvider.
  destruct (String.eqb _ _); [intros [= <-]; reflexivity|].
  destruct (Url.Parse _); [intros [= <-]; reflexivity|discriminate].
Qed.

(** Once the plane and the resource group are validated, ValidateDownstream
    is ValidateResourceType, with the legacy provider of the plane in the
    place of a not-found error. *)
Lemma ValidateDownstream_validated client id locationName apiVersion plane :
  ValidateRadiusPlane client id = inr plane ->
  ValidateResourceGroup client id = None ->
  ValidateDownstream client id locationName apiVersion =
  match ValidateResourceType client id locationName apiVersion with
  | inl err =>
      if Is_ErrNotFound err then ValidateLegacyResourceProvider client id plane
      else inl err
  | inr downstreamURL => inr downstreamURL
  end.
Proof.
  intros Hp Hg. unfold ValidateDownstream. rewrite Hp, Hg.
  destruct (ValidateResourceType _ _ _ _) as [err|u]; [|reflexivity].
  destruct (Is_ErrNotFound err); [|reflexivity].
  destruct (ValidateLegacyResourceProvider _ _ _); reflexivity.
Qed.

(** C1. Declarative before legacy. Once the plane and the resource group
    of the id are validated: if the location resource of the provider
    exists and none of the names of its resource-type table equals the
    type of the id (case-insensitively, namespace prefix stripped), then
    ValidateDownstream fails with InvalidError, resource type not
    supported by location, whatever the legacy resourceProviders map of
    the plane holds; and whenever the read of the location is not the
    not-found error, the result is the one of ValidateResourceType, which
    reads nothing of the plane: the legacy fallback runs only on
    not-found. *)
Theorem ValidateDownstream_declarative_before_legacy
    client id locationName apiVersion plane :
  ValidateRadiusPlane client id = inr plane ->
  ValidateResourceGroup client id = None ->
  (forall location,
     locationLookup client id locationName (inr location) ->
     (forall name rt, In (name, rt) (ResourceTypes location) ->
                      EqualFold name (searchOf id) = false) ->
     ValidateDownstream client id locationName apiVersion =
     inl (InvalidError ("resource type " ++ quoted (ID_Type id) ++
                        " not supported by location " ++ quoted locationName))) /\
  (~ locationLookup client id locationName (inl (StoreError ErrNotFound)) ->
   ValidateDownstream client id locationName apiVersion =
   ValidateResourceType client id locationName apiVersion) /\
  (locationLookup client id locationName (inl (StoreError ErrNotFound)) ->
   ValidateDownstream client id locationName apiVersion =
   ValidateLegacyResourceProvider client id plane).
Proof.
  intros Hp Hg. rewrite (ValidateDownstream_validated _ _ _ _ _ Hp Hg).
  split; [|split].
  - intros location Hl Hnone.
    rewrite (ValidateResourceType_found _ _ _ _ _ Hl).
    apply rangeResourceTypes_None in Hnone. rewrite Hnone. reflexivity.
  - intros Hnot.
    destruct (ValidateResourceType client id locationName apiVersion) as [err|u] eqn:E;
      [|reflexivity].
    destruct (Is_ErrNotFound err) eqn:He; [|reflexivity].
    exfalso. apply Hnot. eapply ValidateResourceType_Is_ErrNotFound; eauto.
  - intros Hl. rewrite (ValidateResourceType_not_found _ _ _ _ Hl). reflexivity.
Qed.

(** C3 (amended). For an id with a resourceGroups scope segment whose
    plane exists, ValidateDownstream fails with NotFoundError exactly when
    the read of the scope of the resource group is the not-found error,
    whatever the store holds for the location; and for an id with no
    resourceGroups segment ValidateResourceGroup returns no error without
    reading the store. *)
Theorem ValidateDownstream_NotFound_iff_resource_group
    client id locationName apiVersion plane :
  ValidateRadiusPlane client id = inr plane ->
  (ID_FindScope id ScopeResourceGroups <> EmptyString ->
   ((exists err, ValidateDownstream client id locationName apiVersion = inl err /\
                 Is_NotFoundError err = true) <->
    (exists resourceGroupID,
        ParseScope (ID_RootScope id) = inr resourceGroupID /\
        Get client (ID_String resourceGroupID) = inl ErrNotFound))) /\
  (ID_FindScope id ScopeResourceGroups = EmptyString ->
   forall client', ValidateResourceGroup client' id = None).
Proof.
  intros Hp. split.
  - intros Hrg. apply String.eqb_neq in Hrg.
    unfold ValidateDownstream. rewrite Hp.
    unfold ValidateResourceGroup. rewrite Hrg.
    destruct (ParseScope (ID_RootScope id)) as [msg|rgID] eqn:Hparse.
    { split.
      - intros [err [[= <-] Hn]]. discriminate.
      - intros [rg [[=] _]]. }
    unfold GetResource at 1.
    destruct (Get client (ID_String rgID)) as [se|obj] eqn:Hget.
    + destruct se as [|msg]; simpl.
      * split; [eauto|]. intros _. eexists. split; reflexivity.
      * split; [intros [err [[= <-] Hn]]; discriminate|].
        intros [rg [[= <-] Hne]]. congruence.
    + destruct (AsResourceGroup (Data obj)); simpl.
      * split.
        -- intros [err [Herr Hn]].
           destruct (ValidateResourceType client id locationName apiVersion) as [e|u] eqn:E;
             [|discriminate].
           destruct (Is_ErrNotFound e).
           ++ destruct (ValidateLegacyResourceProvider client id plane) as [e'|u'] eqn:E';
                [|discriminate].
              injection Herr as <-.
              rewrite (ValidateLegacyResourceProvider_not_NotFoundError _ _ _ _ E') in Hn.
              discriminate.
           ++ injection Herr as <-.
              rewrite (ValidateResourceType_not_NotFoundError _ _ _ _ _ E) in Hn.
              discriminate.
        -- intros [rg [[= <-] Hne]]. congruence.
      * split.
        -- intros [err [[= <-] Hn]]. discriminate.
        -- intros [rg [[= <-] Hne]]. congruence.
  - intros Hnone client'. unfold ValidateResourceGroup. rewrite Hnone. reflexivity.
Qed.

(** C4. Legacy routing. Once the plane and the resource group are
    validated and the read of the location is the not-found error,
    ValidateDownstream is ValidateLegacyResourceProvider on the plane: it
    returns the downstream URL stored under the provider namespace of the
    id in the resourceProviders map of the plane, and when the map has no
    entry for the namespace it fails with InvalidError, resource provider
    <namespace> not configured. *)
Theorem ValidateDownstream_legacy_resource_provider
    client id locationName apiVersion plane :
  ValidateRadiusPlane client id = inr plane ->
  ValidateResourceGroup client id = None ->
  locationLookup client id locationName (inl (StoreError ErrNotFound)) ->
  (forall downstream u,
     ResourceProviders plane !! ID_ProviderNamespace id = Some downstream ->
     downstream <> EmptyString ->
     Url.Parse downstream = inr u ->
     ValidateDownstream client id locationName apiVersion = inr (Some u)) /\
  (ResourceProviders plane !! ID_ProviderNamespace id = None ->
   ValidateDownstream client id locationName apiVersion =
   inl (InvalidError ("resource provider " ++ ID_ProviderNamespace id ++ " not configured"))).
Proof.
  intros Hp Hg Hl. rewrite (ValidateDownstream_validated _ _ _ _ _ Hp Hg).
  rewrite (ValidateResourceType_not_found _ _ _ _ Hl). simpl.
  unfold ValidateLegacyResourceProvider, LookupResourceProvider. split.
  - intros downstream u Hd Hne Hu. rewrite Hd. simpl.
    apply String.eqb_neq in Hne. rewrite Hne, Hu. reflexivity.
  - intros Hd. rewrite Hd. reflexivity.
Qed.

(** C5. When the location resource exists and its resource-type table
    lists the type of the id, and the requested API version is not a key
    of the APIVersions of that resource type, ValidateResourceType fails
    with InvalidError, api version not supported; ValidateDownstream then
    rejects the request with that error. *)
Theorem ValidateResourceType_api_version_not_supported
    client id locationName apiVersion location :
  locationLookup client id locationName (inr location) ->
  listsType location id ->
  (forall name rt, In (name, rt) (ResourceTypes location) ->
                   EqualFold name (searchOf id) = true ->
                   APIVersions rt !! apiVersion = None) ->
  let rejected :=
    inl (InvalidError ("api version " ++ quoted apiVersion ++
                       " is not supported for resource type " ++ quoted (ID_Type id) ++
                       " by location " ++ quoted locationName)) in
  ValidateResourceType client id locationName apiVersion = rejected /\
  (forall plane,
     ValidateRadiusPlane client id = inr plane ->
     ValidateResourceGroup client id = None ->
     ValidateDownstream client id locationName apiVersion = rejected).
Proof.
  intros Hl Hlists Hversions rejected.
  assert (Hrt : ValidateResourceType client id locationName apiVersion = rejected).
  { rewrite (ValidateResourceType_found _ _ _ _ _ Hl).
    destruct (rangeResourceTypes_lists _ _ Hlists) as [name [rt [Hr [Hin Hm]]]].
    rewrite Hr, (Hversions _ _ Hin Hm). reflexivity. }
  split; [exact Hrt|].
  intros plane Hp Hg. rewrite (ValidateDownstream_validated _ _ _ _ _ Hp Hg), Hrt.
  reflexivity.
Qed.

(** C6. When the location resource lists the type of the id with the
    requested API version: with no address (nil) ValidateResourceType
    returns a nil URL and no error; with an address that parses it returns
    the parsed URL; with an address that does not parse it fails with
    InvalidError, failed to parse location address. *)
Theorem ValidateResourceType_address
    client id locationName apiVersion location :
  locationLookup client id locationName (inr location) ->
  listsType location id ->
  (forall name rt, In (name, rt) (ResourceTypes location) ->
                   EqualFold name (searchOf id) = true ->
                   is_Some (APIVersions rt !! apiVersion)) ->
  (Address location = None ->
   ValidateResourceType client id locationName apiVersion = inr None) /\
  (forall address u,
     Address location = Some address -> Url.Parse address = inr u ->
     ValidateResourceType client id locationName apiVersion = inr (Some u)) /\
  (forall address msg,
     Address location = Some address -> Url.Parse address = inl msg ->
     ValidateResourceType client id locationName apiVersion =
     inl (InvalidError ("failed to parse location address: " ++ msg))).
Proof.
  intros Hl Hlists Hversions.
  rewrite (ValidateResourceType_found _ _ _ _ _ Hl).
  destruct (rangeResourceTypes_lists _ _ Hlists) as [name [rt [Hr [Hin Hm]]]].
  rewrite Hr. destruct (Hversions _ _ Hin Hm) as [v Hv]. rewrite Hv.
  split; [|split].
  - intros ->. reflexivity.
  - intros address u -> ->. reflexivity.
  - intros address msg -> ->. reflexivity.
Qed.

End validator_properties.

Section validator_examples.
Import Strings Errors Resources Url Datamodel Store ResourceGroups RoutingExamples.
Local Existing Instances ResourcesModel.pkg UrlModel.pkg.

Lemma ValidateDownstream_declarative_before_legacy_witness :
  ValidateDownstream (MemoryStore.client (declarativeObjects None)) gateway "global" apiVersion =
  inl (InvalidError ("resource type " ++ quoted "Applications.Core/gateways" ++
                     " not supported by location " ++ quoted "global")) /\
  ResourceProviders plane !! ID_ProviderNamespace gateway = Some "http://rp:8080".
Proof.
  split; [|reflexivity].
  apply (proj1 (ValidateDownstream_declarative_before_legacy
                  (MemoryStore.client (declarativeObjects None)) gateway "global" apiVersion
                  plane eq_refl eq_refl) (location None)).
  - eexists. split; reflexivity.
  - intros name rt [[= <- <-]|[]]. reflexivity.
Defined.

(** C3, as stated, fails: the resource group of the id exists in the
    store and ValidateDownstream fails with NotFoundError all the same,
    because the plane does not exist. *)
Lemma ValidateDownstream_NotFound_plane_counterexample :
  ID_FindScope container ScopeResourceGroups = "rg1" /\
  (exists resourceGroupID,
      ParseScope (ID_RootScope container) = inr resourceGroupID /\
      Get (MemoryStore.client orphanObjects) (ID_String resourceGroupID) =
      inr (object (PResourceGroup group))) /\
  ValidateDownstream (MemoryStore.client orphanObjects) container "global" apiVersion =
  inl (NotFoundError ("plane " ++ quoted planeKey ++ " not found")) /\
  Is_NotFoundError (NotFoundError ("plane " ++ quoted planeKey ++ " not found")) = true.
Proof.
  split; [reflexivity|]. split; [|split; reflexivity].
  eexists. split; reflexivity.
Qed.

Lemma ValidateDownstream_NotFound_iff_resource_group_witness :
  exists err,
    ValidateDownstream (MemoryStore.client planeObjects) container "global" apiVersion = inl err /\
    Is_NotFoundError err = true.
Proof.
  apply (proj1 (ValidateDownstream_NotFound_iff_resource_group
                  (MemoryStore.client planeObjects) container "global" apiVersion
                  plane eq_refl)).
  - discriminate.
  - eexists. split; reflexivity.
Defined.

Lemma ValidateDownstream_legacy_resource_provider_witness :
  ValidateDownstream (MemoryStore.client legacyObjects) container "global" apiVersion =
  inr (Some "http://rp:8080").
Proof.
  apply (proj1 (@ValidateDownstream_legacy_resource_provider
                  ResourcesModel.pkg UrlModel.pkg
                  (MemoryStore.client legacyObjects) container "global" apiVersion
                  plane eq_refl eq_refl
                  (ex_intro _ _ (conj eq_refl eq_refl)))
               "http://rp:8080").
  - reflexivity.
  - discriminate.
  - reflexivity.
Defined.

Lemma ValidateResourceType_api_version_not_supported_witness :
  ValidateResourceType (MemoryStore.client (declarativeObjects None)) container
    "global" "2020-01-01" =
  inl (InvalidError ("api version " ++ quoted "2020-01-01" ++
                     " is not supported for resource type " ++
                     quoted "Applications.Core/containers" ++
                     " by location " ++ quoted "global")).
Proof.
  apply (ValidateResourceType_api_version_not_supported
           (MemoryStore.client (declarativeObjects None)) container
           "global" "2020-01-01" (location None)).
  - eexists. split; reflexivity.
  - exists "containers", containers. split; [left; reflexivity|reflexivity].
  - intros name rt [[= <- <-]|[]] _. reflexivity.
Defined.

Lemma ValidateResourceType_address_witness :
  ValidateResourceType (MemoryStore.client (declarativeObjects None)) container
    "global" apiVersion = inr None.
Proof.
  apply (ValidateResourceType_address
           (MemoryStore.client (declarativeObjects None)) container
           "global" apiVersion (location None)).
  - eexists. split; reflexivity.
  - exists "containers", containers. split; [left; reflexivity|reflexivity].
  - intros name rt [[= <- <-]|[]] _. eexists. reflexivity.
  - reflexivity.
Defined.

(** The three outcomes of a supported request, by the address of the
    location; the last address holds a control character. *)
Example ValidateResourceType_address_cases :
  ValidateResourceType (MemoryStore.client (declarativeObjects None)) container
    "global" apiVersion = inr None /\
  ValidateResourceType (MemoryStore.client (declarativeObjects (Some "http://dynamic:9000")))
    container "global" apiVersion = inr (Some "http://dynamic:9000") /\
  ValidateResourceType
    (MemoryStore.client (declarativeObjects (Some (String (ascii_of_nat 7) "x"))))
    container "global" apiVersion =
  inl (InvalidError "failed to parse location address: net/url: invalid control character in URL").
Proof. repeat split; reflexivity. Qed.

(** The legacy provider of the plane routes the container when there is no
    location, and is not consulted when there is one. *)
Example ValidateDownstream_cases :
  ValidateDownstream (MemoryStore.client legacyObjects) container "global" apiVersion =
  inr (Some "http://rp:8080") /\
  ValidateDownstream (MemoryStore.client (declarativeObjects None)) container "global" apiVersion =
  inr None /\
  ValidateDownstream (MemoryStore.client legacyObjects) container "global" apiVersion <>
  ValidateDownstream (MemoryStore.client (declarativeObjects None)) gateway "global" apiVersion.
Proof. repeat split; try reflexivity. discriminate. Qed.

End validator_examples.
(* ================================================================== *)
(** * The declarative filter: provisioning states and notify *)
(* ================================================================== *)

Section filter_properties.
Import Strings Errors Resources Json Heap V1 Notifications.
Context `{Resources.Pkg} `{ObjectEncoding}.

Implicit Types (h : heap) (l : loc) (v : value) (j : json).

#[local] Arguments newMap : simpl never.
#[local] Arguments mapStore : simpl never.
#[local] Arguments mapLookup : simpl never.
#[local] Opaque alloc.

Lemma provisioningState_unfold h resource :
  provisioningState h resource =
  match decodedProperties h resource with
  | Panic msg => Panic msg
  | Done (obj, h') => Done (stateIn h' obj, h')
  end.
Proof.
  unfold provisioningState, decodedProperties.
  destruct (json_Marshal h resource) as [b|]; [|reflexivity].
  destruct (newMap h) as [data0 h1].
  destruct (json_Unmarshal b data0 h1) as [[data h2]|]; [|reflexivity].
  destruct (lookupIn h2 data "properties") as [obj|].
  - destruct obj as [| | | |p|p|p]; try reflexivity.
    simpl. destruct (mapLookup h2 p "provisioningState") as [[| | | | | |]|]; reflexivity.
  - destruct (newMap h2) as [l h3].
    destruct (storeIn h3 data "properties" (VMap l)) as [h4|msg]; [|reflexivity].
    simpl. destruct (mapLookup h4 l "provisioningState") as [[| | | | | |]|]; reflexivity.
Qed.

Lemma setProvisioningState_unfold h resource ps :
  setProvisioningState h resource ps =
  match decodedProperties h resource with
  | Panic msg => Panic msg
  | Done (obj, h') =>
      Done match obj with
           | VMap properties => mapStore h' properties "provisioningState" (VString ps)
           | _ => h'
           end
  end.
Proof.
  unfold setProvisioningState, decodedProperties.
  destruct (json_Marshal h resource) as [b|]; [|reflexivity].
  destruct (newMap h) as [data0 h1].
  destruct (json_Unmarshal b data0 h1) as [[data h2]|]; [|reflexivity].
  destruct (lookupIn h2 data "properties") as [obj|].
  - destruct obj; reflexivity.
  - destruct (newMap h2) as [l h3].
    destruct (storeIn h3 data "properties" (VMap l)) as [h4|msg]; reflexivity.
Qed.

Lemma newMap_spec h l h' :
  newMap h = (l, h') -> h !! l = None /\ h' = <[l := CMap ∅]> h.
Proof. apply alloc_spec. Qed.

(** The properties made for a copy that has none. *)
Lemma madeProperties_spec h g data l g' :
  h ⊆ g -> h !! data = None -> isMap g data ->
  newMap g = (l, g') ->
  h ⊆ mapStore g' data "properties" (VMap l) /\
  freshIn h (VMap l) /\
  stateIn (mapStore g' data "properties" (VMap l)) (VMap l) = ProvisioningStateSucceeded.
Proof.
  intros Hsub Hdata Hmap Hnew. destruct (newMap_spec _ _ _ Hnew) as [Hl ->].
  assert (Hne : l <> data) by (intros ->; destruct Hmap as [m E]; congruence).
  split; [|split].
  - apply map_subseteq_spec. intros l' c Hc.
    assert (l' <> data) by congruence.
    rewrite mapStore_ne by done.
    apply (lookup_weaken g); [by apply (lookup_weaken h)|by apply insert_subseteq].
  - simpl. destruct (h !! l) as [c|] eqn:E; [|done].
    rewrite (lookup_weaken _ _ _ _ E Hsub) in Hl. discriminate.
  - unfold stateIn, mapLookup. rewrite mapStore_ne by done.
    rewrite lookup_insert_eq. by rewrite lookup_empty.
Qed.

(** The state that a map holds under provisioningState after the members
    of an object were decoded into it. *)
Lemma decodeMembers_state members l g :
  isMap g l -> (forall k, mapLookup g l k = None) ->
  stateIn (decodeMembers decode members l g) (VMap l) =
  match member "provisioningState" members with
  | Some (JString ps) => ps
  | _ => ProvisioningStateSucceeded
  end.
Proof.
  intros Hmap Hempty. unfold stateIn.
  pose proof (decodeMembers_member members "provisioningState" l g Hmap) as Hmem.
  destruct (member "provisioningState" members) as [j|].
  - destruct Hmem as [hi [_ [-> _]]].
    destruct (fst (decode j hi)) as [| | |s| | |] eqn:Hv;
      try (destruct j; try reflexivity; simpl in Hv; discriminate).
    apply decode_string in Hv. by rewrite Hv.
  - by rewrite Hmem, Hempty.
Qed.

(** The properties of the decoded copy of a resource: they are new to the
    heap, which is kept as it was, and they hold the state that the JSON
    form of the resource states. *)
Lemma decodedProperties_spec h resource b :
  json_Marshal h resource = Some b ->
  match statedProvisioningState b with
  | Some ps =>
      exists obj h', decodedProperties h resource = Done (obj, h') /\
                     h ⊆ h' /\ freshIn h obj /\ stateIn h' obj = ps
  | None => exists msg, decodedProperties h resource = Panic msg
  end.
Proof.
  intros Hb. unfold decodedProperties. rewrite Hb.
  destruct (newMap h) as [data h1] eqn:Hnew.
  destruct (newMap_spec _ _ _ Hnew) as [Hdata ->]. clear Hnew.
  set (h1 := <[data := CMap ∅]> h).
  assert (Hsub1 : h ⊆ h1) by (by apply insert_subseteq).
  assert (Hmap1 : isMap h1 data) by (exists ∅; apply lookup_insert_eq).
  assert (Hempty : forall k, mapLookup h1 data k = None).
  { intros k. unfold mapLookup, h1. rewrite lookup_insert_eq. apply lookup_empty. }
  destruct b as [| | | |items|members]; simpl;
    try (destruct (newMap h1) as [l h2]; eexists; reflexivity).
  - set (h2 := decodeMembers decode members data h1).
    destruct (decodeMembers_frame members data h1 Hmap1) as [Hmap2 [Hst2 Hent2]].
    fold h2 in Hmap2, Hst2, Hent2.
    assert (Hsub2 : h ⊆ h2).
    { apply map_subseteq_spec. intros l' c Hc. apply Hst2; [congruence|].
      by apply (lookup_weaken h). }
    pose proof (decodeMembers_member members "properties" data h1 Hmap1) as Hmem.
    fold h2 in Hmem.
    destruct (member "properties" members) as [j|] eqn:Hj.
    + destruct Hmem as [hi [Hmapi [Hlook Hsti]]]. rewrite Hlook.
      eexists _, _. split; [reflexivity|]. split; [done|]. split.
      * destruct (Hent2 _ _ Hlook) as [Hold|Hfresh].
        -- rewrite Hempty in Hold. discriminate.
        -- by apply (freshIn_subseteq h h1).
      * destruct (fst (decode j hi)) as [| | | |lp| |] eqn:Hv;
          try (destruct j; try reflexivity; simpl in Hv; destruct (newMap hi); discriminate).
        destruct (decode_map _ _ _ Hv) as [pms ->].
        simpl in Hv, Hsti. destruct (newMap hi) as [lp' hi1] eqn:Hnp.
        simpl in Hv, Hsti. injection Hv as ->.
        destruct (newMap_spec _ _ _ Hnp) as [Hlp ->].
        set (hi1 := <[lp := CMap ∅]> hi) in *.
        assert (Hne : lp <> data) by (intros ->; destruct Hmapi as [m E]; congruence).
        assert (Hmapp : isMap hi1 lp) by (exists ∅; apply lookup_insert_eq).
        assert (Hemptyp : forall k, mapLookup hi1 lp k = None).
        { intros k. unfold mapLookup, hi1. rewrite lookup_insert_eq. apply lookup_empty. }
        rewrite <- (decodeMembers_state pms lp hi1 Hmapp Hemptyp).
        destruct (decodeMembers_frame pms lp hi1 Hmapp) as [[mp Emp] _].
        unfold stateIn, mapLookup. by rewrite (Hsti _ _ Hne Emp), Emp.
    + rewrite Hmem, Hempty. destruct (newMap h2) as [l h3] eqn:Hn3.
      eexists _, _. split; [reflexivity|]. eapply madeProperties_spec; eauto.
Qed.

(** provisioningState refines statedProvisioningState: it returns the state
    that the JSON form of the resource states, in a heap that keeps every
    cell, and panics when the form is no object. *)
Lemma provisioningState_spec h resource b :
  json_Marshal h resource = Some b ->
  match statedProvisioningState b with
  | Some ps => exists h', provisioningState h resource = Done (ps, h') /\ h ⊆ h'
  | None => exists msg, provisioningState h resource = Panic msg
  end.
Proof.
  intros Hb. rewrite provisioningState_unfold.
  pose proof (decodedProperties_spec _ _ _ Hb) as Hspec.
  destruct (statedProvisioningState b) as [ps|].
  - destruct Hspec as [obj [h' [-> [Hsub [_ <-]]]]]. eauto.
  - destruct Hspec as [msg ->]. eauto.
Qed.

Lemma provisioningState_Done h resource ps h' :
  provisioningState h resource = Done (ps, h') ->
  exists b, json_Marshal h resource = Some b /\ statedProvisioningState b = Some ps /\ h ⊆ h'.
Proof.
  intros Hps. destruct (json_Marshal h resource) as [b|] eqn:Hb.
  - exists b. split; [done|]. pose proof (provisioningState_spec _ _ _ Hb) as Hspec.
    destruct (statedProvisioningState b) as [ps'|].
    + destruct Hspec as [h'' [Heq Hsub]]. rewrite Heq in Hps. by injection Hps as <- <-.
    + destruct Hspec as [msg Hmsg]. congruence.
  - unfold provisioningState in Hps. rewrite Hb in Hps. discriminate.
Qed.

(** setProvisioningState keeps every cell of the heap it is given. *)
Lemma setProvisioningState_subseteq h resource ps h' :
  setProvisioningState h resource ps = Done h' -> h ⊆ h'.
Proof.
  rewrite setProvisioningState_unfold.
  destruct (json_Marshal h resource) as [b|] eqn:Hb.
  - pose proof (decodedProperties_spec _ _ _ Hb) as Hspec.
    destruct (statedProvisioningState b) as [st|];
      [|destruct Hspec as [msg ->]; discriminate].
    destruct Hspec as [obj [h1 [-> [Hsub [Hfresh _]]]]]. intros [= <-].
    destruct obj as [| | | |p| |]; try done.
    simpl in Hfresh. apply map_subseteq_spec. intros l c Hc.
    rewrite mapStore_ne by congruence. by apply (lookup_weaken h).
  - unfold decodedProperties. by rewrite Hb.
Qed.

End filter_properties.
Section notify_properties.
Import Strings Errors Resources Json Heap V1 Notifications.
Context `{Resources.Pkg} `{ObjectEncoding}.
Variable IsTerminal : ProvisioningState -> bool.
Variable DefaultRetryAfterDuration : Z.

Implicit Types (h : heap) (l : loc) (v : value) (j : json) (o : oracle).

#[local] Abbreviation notify := (Notifications.notify IsTerminal DefaultRetryAfterDuration).

(** A run keeps the calls made before it. *)
Lemma run_past {A} o (p : prog A) : forall past c,
  In c past -> In c (snd (run o p past)).
Proof.
  induction p as [a|msg|c0 k IH]; intros past c Hin; simpl; try done.
  apply IH. apply in_or_app. by left.
Qed.

Lemma objectETag_subseteq h h' obj etag :
  h ⊆ h' -> objectETag h obj = Some etag -> objectETag h' obj = Some etag.
Proof.
  intros Hsub. unfold objectETag.
  destruct (h !! obj) as [c|] eqn:E; [|discriminate].
  by rewrite (lookup_weaken _ _ _ _ E Hsub).
Qed.

(** Every save of notify is a save of the object that the read returned, in
    a heap that keeps every cell of the heap of the read; and the
    provisioning state had been read off that object. *)
Lemma notify_saves o id hs obj etag :
  In (StorageSave hs obj etag) (snd (run o (notify id) [])) ->
  exists h0 ps0 h1,
    o [GetStorageClient (ID_Type id)] (StorageGet (ID_String id)) = inr (h0, obj) /\
    provisioningState h0 (VObject obj) = Done (ps0, h1) /\
    IsTerminal ps0 = true /\
    h0 ⊆ hs.
Proof.
  unfold Notifications.notify. simpl.
  destruct (o [] (GetStorageClient (ID_Type id))) as [err|]; simpl.
  { intros [Hc|[]]. discriminate. }
  destruct (o [GetStorageClient (ID_Type id)] (StorageGet (ID_String id)))
    as [err|[h0 obj0]] eqn:Hget; simpl.
  { intros [Hc|[Hc|[]]]; discriminate. }
  destruct (provisioningState h0 (VObject obj0)) as [[ps0 h1]|msg] eqn:Hps; simpl.
  2: { intros [Hc|[Hc|[]]]; discriminate. }
  destruct (IsTerminal ps0) eqn:Hterm; simpl.
  2: { intros [Hc|[Hc|[]]]; discriminate. }
  destruct (setProvisioningState h1 (VObject obj0) ProvisioningStateUpdating)
    as [h2|msg] eqn:Hset; simpl.
  2: { intros [Hc|[Hc|[]]]; discriminate. }
  destruct (provisioningState_Done _ _ _ _ Hps) as [b [_ [_ Hsub1]]].
  pose proof (setProvisioningState_subseteq _ _ _ _ Hset) as Hsub2.
  assert (Hfirst : forall hs' obj' etag',
             StorageSave h2 obj0 etag' = StorageSave hs' obj' etag ->
             exists h0' ps0' h1',
               @inr error (heap * loc) (h0, obj0) = inr (h0', obj') /\
               provisioningState h0' (VObject obj') = Done (ps0', h1') /\
               IsTerminal ps0' = true /\ h0' ⊆ hs').
  { intros hs' obj' etag' [= <- <- _]. exists h0, ps0, h1.
    repeat split; try done. by transitivity h1. }
  unfold save. destruct (objectETag h2 obj0) as [etag0|]; simpl.
  2: { intros [Hc|[Hc|[]]]; discriminate. }
  destruct (o _ (StorageSave h2 obj0 etag0)) as [err|]; simpl.
  { intros [Hc|[Hc|[Hc|[]]]]; try discriminate. by apply (Hfirst _ _ _ Hc). }
  destruct (o _ GetStatusManager); simpl.
  2: { intros [Hc|[Hc|[Hc|[Hc|[Hc|[]]]]]]; try discriminate. by apply (Hfirst _ _ _ Hc). }
  destruct (o _ (QueueAsyncOperation _ _)) as [err|]; simpl.
  2: { intros [Hc|[Hc|[Hc|[Hc|[Hc|[Hc|[]]]]]]]; try discriminate.
       by apply (Hfirst _ _ _ Hc). }
  destruct (setProvisioningState h2 (VObject obj0) ProvisioningStateFailed)
    as [h3|msg] eqn:Hset3; simpl.
  2: { intros [Hc|[Hc|[Hc|[Hc|[Hc|[Hc|[]]]]]]]; try discriminate.
       by apply (Hfirst _ _ _ Hc). }
  pose proof (setProvisioningState_subseteq _ _ _ _ Hset3) as Hsub3.
  destruct (objectETag h3 obj0) as [etag3|]; simpl.
  2: { intros [Hc|[Hc|[Hc|[Hc|[Hc|[Hc|[]]]]]]]; try discriminate.
       by apply (Hfirst _ _ _ Hc). }
  assert (Hsecond : forall hs' obj' etag',
             StorageSave h3 obj0 etag' = StorageSave hs' obj' etag ->
             exists h0' ps0' h1',
               @inr error (heap * loc) (h0, obj0) = inr (h0', obj') /\
               provisioningState h0' (VObject obj') = Done (ps0', h1') /\
               IsTerminal ps0' = true /\ h0' ⊆ hs').
  { intros hs' obj' etag' [= <- <- _]. exists h0, ps0, h1.
    repeat split; try done. transitivity h1; [done|]. by transitivity h2. }
  destruct (o _ (StorageSave h3 obj0 etag3)) as [err'|]; simpl.
  - intros [Hc|[Hc|[Hc|[Hc|[Hc|[Hc|[Hc|[]]]]]]]]; try discriminate.
    + by apply (Hfirst _ _ _ Hc).
    + by apply (Hsecond _ _ _ Hc).
  - intros [Hc|[Hc|[Hc|[Hc|[Hc|[Hc|[Hc|[]]]]]]]]; try discriminate.
    + by apply (Hfirst _ _ _ Hc).
    + by apply (Hsecond _ _ _ Hc).
Qed.

Lemma setProvisioningState_Done h resource b st ps :
  json_Marshal h resource = Some b ->
  statedProvisioningState b = Some st ->
  exists h', setProvisioningState h resource ps = Done h'.
Proof.
  intros Hb Hst. rewrite setProvisioningState_unfold.
  pose proof (decodedProperties_spec _ _ _ Hb) as Hspec. rewrite Hst in Hspec.
  destruct Hspec as [obj [h1 [-> _]]]. eauto.
Qed.

Lemma json_Marshal_object h obj b :
  json_Marshal h (VObject obj) = Some b -> exists object, h !! obj = Some (CObject object).
Proof.
  unfold json_Marshal. simpl. destruct (h !! obj) as [[m|items|object]|]; try discriminate.
  eauto.
Qed.

Lemma lacksProvisioningState_stated b :
  lacksProvisioningState b -> statedProvisioningState b = Some ProvisioningStateSucceeded.
Proof.
  intros [members [-> Hcases]]. simpl. f_equal.
  destruct Hcases as [->|[[j [-> Hj]]|[properties [-> Hp]]]]; [done| |].
  - destruct j; try done. by destruct (Hj members0).
  - destruct Hp as [->|[j [-> Hj]]]; [done|]. destruct j; try done. by destruct (Hj s).
Qed.

(** C2, as the code has it. notify hands the object that it read, a
    pointer to store.Object, to provisioningState, and not the data of the
    object. When the JSON form of a store.Object has no member properties
    of its own (the data is the value of one member beside the metadata),
    the state that notify reads is Succeeded, whatever state the data
    states. So, Succeeded being terminal, the gate refuses no resource that
    was read: with collaborators that accept the save, have a status
    manager and accept the queueing, notify saves the object as it was
    read, queues the PUT operation and returns nil. *)
Theorem notify_reads_object_not_data o id h obj b :
  (forall key etag data, member "properties" (objectMembers key etag data) = None) ->
  IsTerminal ProvisioningStateSucceeded = true ->
  o [] (GetStorageClient (ID_Type id)) = None ->
  o [GetStorageClient (ID_Type id)] (StorageGet (ID_String id)) = inr (h, obj) ->
  json_Marshal h (VObject obj) = Some b ->
  (forall past hs etag, o past (StorageSave hs obj etag) = None) ->
  (forall past, o past GetStatusManager = true) ->
  (forall past sCtx options, o past (QueueAsyncOperation sCtx options) = None) ->
  statedProvisioningState b = Some ProvisioningStateSucceeded /\
  exists hs etag uuid,
    h ⊆ hs /\
    json_Marshal hs (VObject obj) = Some b /\
    run o (notify id) [] =
    (Done None,
     [GetStorageClient (ID_Type id); StorageGet (ID_String id); StorageSave hs obj etag;
      NewUUID; GetStatusManager;
      QueueAsyncOperation
        {| ResourceID := id;
           OperationID := uuid;
           OperationType_ := {| Type_ := ToUpper (ID_Type id); Method := "PUT" |} |}
        {| OperationTimeout := 3600 * 1000000000;
           RetryAfter := DefaultRetryAfterDuration |}]).
Proof.
  intros Hnested Hterm Hclient Hget Hb Hsave Hmanager Hqueue.
  assert (Hst : statedProvisioningState b = Some ProvisioningStateSucceeded).
  { destruct (json_Marshal_object _ _ _ Hb) as [object Hobject].
    unfold json_Marshal in Hb. simpl in Hb. rewrite Hobject in Hb.
    destruct (marshal (size h) h (Data object)) as [data|]; [|discriminate].
    injection Hb as <-. simpl. by rewrite Hnested. }
  split; [exact Hst|].
  unfold Notifications.notify. simpl. rewrite Hclient. simpl. rewrite Hget. simpl.
  pose proof (provisioningState_spec _ _ _ Hb) as Hspec. rewrite Hst in Hspec.
  destruct Hspec as [h1 [-> Hsub1]]. simpl. rewrite Hterm. simpl.
  pose proof (json_Marshal_subseteq _ _ _ _ Hsub1 Hb) as Hb1.
  destruct (setProvisioningState_Done _ _ _ _ ProvisioningStateUpdating Hb1 Hst)
    as [h2 Hset].
  rewrite Hset. pose proof (setProvisioningState_subseteq _ _ _ _ Hset) as Hsub2.
  pose proof (json_Marshal_subseteq _ _ _ _ Hsub2 Hb1) as Hb2.
  destruct (json_Marshal_object _ _ _ Hb) as [object Hobject].
  assert (Hetag : objectETag h2 obj = Some (ETag object)).
  { unfold objectETag.
    rewrite (lookup_weaken h h2 obj (CObject object)); [done|done|by transitivity h1]. }
  unfold save. rewrite Hetag. simpl. rewrite Hsave. simpl. rewrite Hmanager. simpl.
  rewrite Hqueue.
  exists h2, (ETag object), (o
    [GetStorageClient (ID_Type id); StorageGet (ID_String id);
     StorageSave h2 obj (ETag object)] NewUUID).
  split; [by transitivity h1|]. split; [exact Hb2|]. reflexivity.
Qed.

(** C9. setProvisioningState leaves its resource argument unchanged: the
    heap after the call holds every cell of the heap before it as it was
    (the write went to the decoded copy), so the resource has the same JSON
    form and the same provisioning state after the call. Consequently every
    Save of notify, the one before the operation is queued and the one
    after queueing failed, saves the object that was read, with every cell
    as it was read and with the provisioning state it was read with. *)
Theorem setProvisioningState_leaves_resource :
  (forall h resource ps h',
     setProvisioningState h resource ps = Done h' ->
     h ⊆ h' /\
     json_Marshal h' resource = json_Marshal h resource /\
     forall st h1, provisioningState h resource = Done (st, h1) ->
                   exists h2, provisioningState h' resource = Done (st, h2)) /\
  (forall o id hs obj etag,
     In (StorageSave hs obj etag) (snd (run o (notify id) [])) ->
     exists h0 st h1 h2,
       o [GetStorageClient (ID_Type id)] (StorageGet (ID_String id)) = inr (h0, obj) /\
       h0 ⊆ hs /\
       json_Marshal hs (VObject obj) = json_Marshal h0 (VObject obj) /\
       provisioningState h0 (VObject obj) = Done (st, h1) /\
       provisioningState hs (VObject obj) = Done (st, h2)).
Proof.
  split.
  - intros h resource ps h' Hset.
    pose proof (setProvisioningState_subseteq _ _ _ _ Hset) as Hsub.
    destruct (json_Marshal h resource) as [b|] eqn:Hb.
    2: { unfold setProvisioningState in Hset. rewrite Hb in Hset. discriminate. }
    pose proof (json_Marshal_subseteq _ _ _ _ Hsub Hb) as Hb'.
    split; [done|]. split; [done|].
    intros st h1 Hps. destruct (provisioningState_Done _ _ _ _ Hps) as [b0 [Hb0 [Hst _]]].
    assert (b0 = b) as -> by congruence.
    pose proof (provisioningState_spec _ _ _ Hb') as Hspec. rewrite Hst in Hspec.
    destruct Hspec as [h2 [-> _]]. eauto.
  - intros o id hs obj etag Hin.
    destruct (notify_saves _ _ _ _ _ Hin) as [h0 [st [h1 [Hget [Hps [_ Hsub]]]]]].
    destruct (provisioningState_Done _ _ _ _ Hps) as [b [Hb [Hst _]]].
    pose proof (json_Marshal_subseteq _ _ _ _ Hsub Hb) as Hb'.
    pose proof (provisioningState_spec _ _ _ Hb') as Hspec. rewrite Hst in Hspec.
    destruct Hspec as [h2 [Hps' _]].
    exists h0, st, h1, h2. repeat split; try done. congruence.
Qed.

(** C10. For a resource whose JSON form has no properties, or properties
    that are no object, or no provisioningState in them, or one that is no
    string, provisioningState returns ProvisioningStateSucceeded. When that
    state is terminal, such a resource passes the gate of notify: the run
    goes on to save the object. And the conversion of the versioned API
    maps the empty provisioning state to Succeeded. *)
Theorem provisioningState_defaults_to_Succeeded :
  (forall h resource b,
     json_Marshal h resource = Some b ->
     lacksProvisioningState b ->
     exists h', provisioningState h resource = Done (ProvisioningStateSucceeded, h')) /\
  (IsTerminal ProvisioningStateSucceeded = true ->
   forall o id h obj b,
     o [] (GetStorageClient (ID_Type id)) = None ->
     o [GetStorageClient (ID_Type id)] (StorageGet (ID_String id)) = inr (h, obj) ->
     json_Marshal h (VObject obj) = Some b ->
     lacksProvisioningState b ->
     exists hs etag, In (StorageSave hs obj etag) (snd (run o (notify id) []))) /\
  Api.fromProvisioningStateDataModel EmptyString = "Succeeded".
Proof.
  split; [|split; [|reflexivity]].
  - intros h resource b Hb Hlacks.
    pose proof (provisioningState_spec _ _ _ Hb) as Hspec.
    rewrite (lacksProvisioningState_stated _ Hlacks) in Hspec.
    destruct Hspec as [h' [-> _]]. eauto.
  - intros Hterm o id h obj b Hclient Hget Hb Hlacks.
    pose proof (lacksProvisioningState_stated _ Hlacks) as Hst.
    unfold Notifications.notify. simpl.
    destruct (o [] (GetStorageClient (ID_Type id))) as [err|]; [discriminate|]. simpl.
    destruct (o [GetStorageClient (ID_Type id)] (StorageGet (ID_String id)))
      as [err|[h0 obj0]]; [discriminate|].
    injection Hget as -> ->. simpl.
    pose proof (provisioningState_spec _ _ _ Hb) as Hspec. rewrite Hst in Hspec.
    destruct Hspec as [h1 [-> Hsub1]]. simpl. rewrite Hterm. simpl.
    pose proof (json_Marshal_subseteq _ _ _ _ Hsub1 Hb) as Hb1.
    destruct (setProvisioningState_Done _ _ _ _ ProvisioningStateUpdating Hb1 Hst)
      as [h2 Hset].
    rewrite Hset. pose proof (setProvisioningState_subseteq _ _ _ _ Hset) as Hsub2.
    destruct (json_Marshal_object _ _ _ Hb) as [object Hobject].
    assert (Hetag : objectETag h2 obj = Some (ETag object)).
    { unfold objectETag.
      rewrite (lookup_weaken h h2 obj (CObject object)); [done|done|by transitivity h1]. }
    unfold save. rewrite Hetag. simpl.
    exists h2, (ETag object). apply run_past. right. right. by left.
Qed.

End notify_properties.
Section notify_examples.
Import Strings Errors Resources Json Heap V1 Notifications NotifyExamples.
#[local] Existing Instances ResourcesModel.pkg NotifyExamples.encoding.

(** What provisioningState reads: the state of the properties of the
    value that it is given, Succeeded when there is none. Given the data of
    the stored object it reads the state that the data states; given the
    object, as notify gives it, it finds no properties and reads Succeeded.
    A nil resource has the JSON form null, which makes the decoded map nil
    and the assignment to its properties panic. *)
Example provisioningState_examples :
  fst <$> (match provisioningState updating (VMap 2) with Done r => Some r | _ => None end)
  = Some "Updating" /\
  fst <$> (match provisioningState updating (VObject 1) with Done r => Some r | _ => None end)
  = Some "Succeeded" /\
  fst <$> (match provisioningState stateless (VMap 2) with Done r => Some r | _ => None end)
  = Some "Succeeded" /\
  fst <$> (match provisioningState stateless (VObject 1) with Done r => Some r | _ => None end)
  = Some "Succeeded" /\
  provisioningState ∅ VNil = Panic "assignment to entry in nil map" /\
  provisioningState ∅ (VString "text") = Panic "json: unmarshal".
Proof. repeat split; vm_compute; reflexivity. Qed.

(** The JSON form of the stored container whose data states Updating. *)
Example json_Marshal_updating :
  json_Marshal updating (VObject 1) =
  Some (JObject
          [("ID", JString containerKey); ("ETag", JString "etag-1");
           ("APIVersion", JString EmptyString); ("ContentType", JString EmptyString);
           ("Data",
            JObject [("properties",
                      JObject [("provisioningState", JString "Updating")])])]).
Proof. vm_compute. reflexivity. Qed.

(** A container stored as Updating, which is not terminal: notify reads
    Succeeded off the object, saves it, queues the operation and returns
    nil. *)
Lemma notify_reads_object_not_data_witness :
  fst <$> (match provisioningState updating (VMap 2) with Done r => Some r | _ => None end)
  = Some "Updating" /\
  V1.IsTerminal "Updating" = false /\
  statedProvisioningState
    (JObject
       [("ID", JString containerKey); ("ETag", JString "etag-1");
        ("APIVersion", JString EmptyString); ("ContentType", JString EmptyString);
        ("Data",
         JObject [("properties",
                   JObject [("provisioningState", JString "Updating")])])])
  = Some "Succeeded" /\
  exists hs etag uuid,
    updating ⊆ hs /\
    json_Marshal hs (VObject 1) =
    Some (JObject
            [("ID", JString containerKey); ("ETag", JString "etag-1");
             ("APIVersion", JString EmptyString); ("ContentType", JString EmptyString);
             ("Data",
              JObject [("properties",
                        JObject [("provisioningState", JString "Updating")])])]) /\
    run (scripted updating None) notifyContainer [] =
    (Done None,
     [GetStorageClient (ID_Type RoutingExamples.container);
      StorageGet (ID_String RoutingExamples.container);
      StorageSave hs 1%positive etag;
      NewUUID; GetStatusManager;
      QueueAsyncOperation
        {| ResourceID := RoutingExamples.container;
           OperationID := uuid;
           OperationType_ :=
             {| Type_ := ToUpper (ID_Type RoutingExamples.container); Method := "PUT" |} |}
        {| OperationTimeout := 3600 * 1000000000; RetryAfter := retryAfter |}]).
Proof.
  split; [vm_compute; reflexivity|]. split; [reflexivity|].
  apply (@notify_reads_object_not_data ResourcesModel.pkg encoding V1.IsTerminal retryAfter
           (scripted updating None) RoutingExamples.container updating 1%positive).
  - intros key etag data. reflexivity.
  - reflexivity.
  - reflexivity.
  - reflexivity.
  - exact json_Marshal_updating.
  - intros past hs etag. reflexivity.
  - intros past. reflexivity.
  - intros past sCtx options. reflexivity.
Defined.

(** The calls of that run: the save and the queueing that the gate was to
    prevent. *)
Example notify_updating_run :
  map (fun c => (isSave c, isQueue c))
      (snd (run (scripted updating None) notifyContainer [])) =
  [(false, false); (false, false); (true, false); (false, false); (false, false);
   (false, true)] /\
  fst (run (scripted updating None) notifyContainer []) = Done None.
Proof. split; vm_compute; reflexivity. Qed.

(** The heap of the last save of a list of calls is the heap of one of its
    saves. *)
Lemma lastSaved_In (calls : list (@call ResourcesModel.pkg)) :
  existsb isSave calls = true ->
  exists obj etag, In (StorageSave (lastSaved calls) obj etag) calls.
Proof.
  induction calls as [|c calls IH] using rev_ind; [discriminate|].
  rewrite existsb_app. unfold lastSaved. rewrite fold_left_app. simpl.
  destruct c as [rt|key|hs obj etag| | |sCtx options]; simpl;
    try (rewrite orb_false_r; intros Hsave;
         destruct (IH Hsave) as [obj [etag Hin]];
         exists obj, etag; apply in_or_app; left; exact Hin).
  intros _. exists obj, etag. apply in_or_app. right. left. reflexivity.
Qed.

(** A run in which the queueing fails: notify saves before and after, and
    returns the error of the queue. *)
Example notify_queue_failure_run :
  map (fun c => (isSave c, isQueue c))
      (snd (run (scripted succeeded (Some queueDown)) notifyContainer [])) =
  [(false, false); (false, false); (true, false); (false, false); (false, false);
   (false, true); (true, false)] /\
  fst (run (scripted succeeded (Some queueDown)) notifyContainer []) = Done (Some queueDown).
Proof. split; vm_compute; reflexivity. Qed.

(** In that run the object of the last save, meant to record Failed, still
    states Succeeded, as the object read did. *)
Lemma setProvisioningState_leaves_resource_witness :
  exists obj h0 st h1 h2,
    scripted succeeded (Some queueDown)
      [GetStorageClient (ID_Type RoutingExamples.container)]
      (StorageGet (ID_String RoutingExamples.container)) = inr (h0, obj) /\
    h0 ⊆ lastSaved (snd (run (scripted succeeded (Some queueDown)) notifyContainer [])) /\
    json_Marshal (lastSaved (snd (run (scripted succeeded (Some queueDown)) notifyContainer [])))
      (VObject obj) = json_Marshal h0 (VObject obj) /\
    provisioningState h0 (VObject obj) = Done (st, h1) /\
    provisioningState (lastSaved (snd (run (scripted succeeded (Some queueDown))
                                           notifyContainer [])))
      (VObject obj) = Done (st, h2).
Proof.
  destruct (lastSaved_In (snd (run (scripted succeeded (Some queueDown)) notifyContainer [])))
    as [obj [etag Hin]].
  - vm_compute. reflexivity.
  - exists obj.
    exact (proj2 (@setProvisioningState_leaves_resource ResourcesModel.pkg encoding
                    V1.IsTerminal retryAfter)
                 (scripted succeeded (Some queueDown)) RoutingExamples.container
                 _ obj etag Hin).
Defined.

Example notify_queue_failure_state :
  fst <$> (match provisioningState succeeded (VObject 1) with Done r => Some r | _ => None end)
  = Some "Succeeded" /\
  fst <$> (match provisioningState
                   (lastSaved (snd (run (scripted succeeded (Some queueDown))
                                        notifyContainer [])))
                   (VObject 1)
           with Done r => Some r | _ => None end)
  = Some "Succeeded".
Proof. split; vm_compute; reflexivity. Qed.

Lemma provisioningState_defaults_to_Succeeded_witness :
  exists h', provisioningState stateless (VObject 1) = Done (ProvisioningStateSucceeded, h').
Proof.
  eapply (proj1 (@provisioningState_defaults_to_Succeeded ResourcesModel.pkg encoding
                   V1.IsTerminal retryAfter) stateless (VObject 1)).
  - vm_compute. reflexivity.
  - eexists. split; [reflexivity|]. left. reflexivity.
Defined.

(** Such a resource passes the gate: notify saves it and queues the
    operation. *)
Example notify_stateless_run :
  map (fun c => (isSave c, isQueue c))
      (snd (run (scripted stateless None) notifyContainer [])) =
  [(false, false); (false, false); (true, false); (false, false); (false, false);
   (false, true)] /\
  fst (run (scripted stateless None) notifyContainer []) = Done None.
Proof. split; vm_compute; reflexivity. Qed.

End notify_examples.
(* ================================================================== *)
(** * The API version validator and the router: properties *)
(* ================================================================== *)

Section strings_properties.
Import Strings.

Lemma append_cons c s t : String c s ++ t = String c (s ++ t).
Proof. reflexivity. Qed.

Lemma append_empty_r s : s ++ EmptyString = s.
Proof. induction s as [|c s IH]; [done|]. by rewrite append_cons, IH. Qed.

Lemma strip_empty s : strip s EmptyString = Some s.
Proof. by destruct s. Qed.

Lemma strip_app s t : strip (s ++ t) s = Some t.
Proof.
  induction s as [|c s IH]; [apply strip_empty|].
  rewrite append_cons. simpl. by rewrite Ascii.eqb_refl.
Qed.

Lemma strip_app_l s prefix rest t :
  strip s prefix = Some rest -> strip (s ++ t) prefix = Some (rest ++ t).
Proof.
  revert s. induction prefix as [|p prefix IH]; intros s; simpl.
  - rewrite !strip_empty. by intros [= ->].
  - destruct s as [|c s]; [discriminate|]. rewrite append_cons. simpl.
    destruct (Ascii.eqb p c); [apply IH|discriminate].
Qed.

Lemma Contains_unfold s sub :
  Contains s sub =
  HasPrefix s sub || match s with EmptyString => false | String _ s' => Contains s' sub end.
Proof. by destruct s. Qed.

Lemma Contains_app_r s t sub : Contains t sub = true -> Contains (s ++ t) sub = true.
Proof.
  intros Ht. induction s as [|c s IH]; [done|].
  rewrite append_cons, Contains_unfold, IH. apply orb_true_r.
Qed.

Lemma Contains_app_l s t sub : Contains s sub = true -> Contains (s ++ t) sub = true.
Proof.
  induction s as [|c s IH]; rewrite Contains_unfold.
  - rewrite orb_false_r. unfold HasPrefix. destruct (strip EmptyString sub) as [rest|] eqn:E;
      [|discriminate].
    intros _. rewrite Contains_unfold. unfold HasPrefix.
    assert (Hs : strip (EmptyString ++ t) sub = Some (rest ++ t)) by (by apply strip_app_l).
    simpl in Hs. by rewrite Hs.
  - intros Hor. apply orb_true_iff in Hor as [Hp|Hc].
    + rewrite Contains_unfold. unfold HasPrefix in *.
      destruct (strip (String c s) sub) as [rest|] eqn:E; [|discriminate].
      by rewrite (strip_app_l _ _ _ t E).
    + rewrite append_cons, Contains_unfold, (IH Hc). apply orb_true_r.
Qed.

Lemma Contains_refl s : Contains s s = true.
Proof.
  rewrite Contains_unfold. unfold HasPrefix.
  pose proof (strip_app s EmptyString) as Hs.
  rewrite append_empty_r in Hs. by rewrite Hs.
Qed.

(** Every element of a list occurs in its Join. *)
Lemma Contains_Join elems sep e : In e elems -> Contains (Join elems sep) e = true.
Proof.
  induction elems as [|e0 elems IH]; [intros []|].
  intros [->|Hin].
  - destruct elems as [|e1 elems]; simpl; [apply Contains_refl|].
    apply Contains_app_l, Contains_refl.
  - destruct elems as [|e1 elems]; [destruct Hin|].
    change (Join (e0 :: e1 :: elems) sep) with (e0 ++ sep ++ Join (e1 :: elems) sep).
    apply Contains_app_r, Contains_app_r, IH, Hin.
Qed.

End strings_properties.

Section validator_api_properties.
Import Strings Validator.

(** C7. A request whose api-version is not in the supported set is answered
    with an error body whose code is InvalidApiVersionParameter and whose
    message holds every supported api-version. *)
Theorem validateAPIVersion_unsupported resourceType supported apiVersion :
  ~ In apiVersion supported ->
  exists response,
    validateAPIVersion resourceType supported apiVersion = Some response /\
    Code (Error_ response) = "InvalidApiVersionParameter" /\
    forall version, In version supported ->
                    Contains (Message (Error_ response)) version = true.
Proof.
  intros Hnot. unfold validateAPIVersion.
  destruct (existsb (String.eqb apiVersion) supported) eqn:E.
  { apply existsb_exists in E as [v [Hin Hv]]. apply String.eqb_eq in Hv. by subst. }
  eexists. split; [reflexivity|]. split; [reflexivity|].
  intros version Hin. unfold invalidAPIVersion. cbn [Message Error_].
  do 10 (apply Contains_app_r).
  apply Contains_app_l. by apply Contains_Join.
Qed.

Lemma validateAPIVersion_unsupported_witness :
  exists response,
    validateAPIVersion "ucp/openapi" ["2022-09-01-privatepreview"] "unsupported-version"
    = Some response /\
    Code (Error_ response) = "InvalidApiVersionParameter" /\
    forall version, In version ["2022-09-01-privatepreview"] ->
                    Contains (Message (Error_ response)) version = true.
Proof.
  apply (validateAPIVersion_unsupported "ucp/openapi" ["2022-09-01-privatepreview"]
           "unsupported-version").
  intros [Heq|[]]. discriminate.
Defined.

(** The body that Test_RequestWithBadAPIVersion expects. *)
Example validateAPIVersion_test :
  validateAPIVersion "ucp/openapi" ["2022-09-01-privatepreview"] "unsupported-version" =
  Some {| Error_ :=
            {| Code := "InvalidApiVersionParameter";
               Message := "API version 'unsupported-version' for type 'ucp/openapi' is not supported. The supported api-versions are '2022-09-01-privatepreview'." |} |} /\
  validateAPIVersion "ucp/openapi" ["2022-09-01-privatepreview"] "2022-09-01-privatepreview" =
  None.
Proof. split; reflexivity. Qed.

End validator_api_properties.

Section router_properties.
Import Strings Validator Frontend.

Lemma entry_nested_ind (P : entry -> Prop) :
  (forall method pattern operation, P (Handle method pattern operation)) ->
  (forall pattern sub, Forall P sub -> P (Route pattern sub)) ->
  forall e, P e.
Proof.
  intros Hhandle Hroute. fix IH 1. intros [method pattern operation|pattern sub].
  - apply Hhandle.
  - apply Hroute. induction sub as [|e sub IHsub]; constructor; [apply IH|exact IHsub].
Qed.

(** A pattern made of a mount point and a rest matches a path when the
    mount point matches its head and the rest what is left. *)
Lemma patternMatches_app mount pattern : forall path,
  patternMatches (mount ++ pattern)%list path =
  match mountMatches mount path with
  | Some rest => patternMatches pattern rest
  | None => false
  end.
Proof.
  induction mount as [|seg mount IH]; intros path; simpl; [reflexivity|].
  destruct path as [|s path]; [reflexivity|].
  destruct (segmentMatches seg s); simpl; [apply IH|reflexivity].
Qed.

Lemma reached_Route pattern sub path :
  reached (Route pattern sub) path =
  match mountMatches pattern path with
  | Some rest => reachedAll sub rest
  | None => []
  end.
Proof.
  reflexivity.
Qed.

Lemma registered_Route pattern sub :
  registered (Route pattern sub) =
  map (fun r => (fst (fst r), (pattern ++ snd (fst r))%list, snd r)) (registeredAll sub).
Proof.
  reflexivity.
Qed.

(** The handlers that a path reaches in the tree of routers are the
    registered handlers whose whole pattern matches the path. *)
Lemma reached_registered e : forall path method operation,
  In (method, operation) (reached e path) <->
  exists pattern, In (method, pattern, operation) (registered e) /\
                  patternMatches pattern path = true.
Proof.
  induction e as [m p op|mount sub IH] using entry_nested_ind; intros path method operation.
  - simpl. destruct (patternMatches p path) eqn:E; simpl.
    + split.
      * intros [[= <- <-]|[]]. exists p. split; [by left|done].
      * intros [p' [[[= <- <- <-]|[]] _]]. by left.
    + split; [intros []|]. intros [p' [[[= <- <- <-]|[]] Hm]]. congruence.
  - rewrite reached_Route, registered_Route.
    assert (Hall : forall rest,
               In (method, operation) (reachedAll sub rest) <->
               exists pattern, In (method, pattern, operation) (registeredAll sub) /\
                               patternMatches pattern rest = true).
    { intros rest. unfold reachedAll, registeredAll. rewrite in_flat_map. split.
      - intros [e [He Hin]]. rewrite Forall_forall in IH.
        apply (IH e) in Hin as [p [Hp Hm]].
        + exists p. split; [|done]. apply in_flat_map. eauto.
        + by apply list_elem_of_In.
      - intros [p [Hp Hm]]. apply in_flat_map in Hp as [e [He Hp]].
        exists e. split; [done|]. rewrite Forall_forall in IH.
        apply (IH e); [by apply list_elem_of_In|eauto]. }
    split.
    + destruct (mountMatches mount path) as [rest|] eqn:E; [|intros []].
      intros Hin. apply Hall in Hin as [p [Hp Hm]].
      exists (mount ++ p)%list. split.
      * apply in_map_iff. exists (method, p, operation). split; [reflexivity|done].
      * by rewrite patternMatches_app, E.
    + intros [p [Hp Hm]]. apply in_map_iff in Hp as [[[m' p'] op'] [Heq Hp]].
      simpl in Heq. injection Heq as -> <- ->.
      rewrite patternMatches_app in Hm.
      destruct (mountMatches mount path) as [rest|]; [|discriminate].
      apply Hall. eauto.
Qed.

Lemma reachedAll_registered es path method operation :
  In (method, operation) (reachedAll es path) <->
  exists pattern, In (method, pattern, operation) (registeredAll es) /\
                  patternMatches pattern path = true.
Proof.
  unfold reachedAll, registeredAll. rewrite in_flat_map. split.
  - intros [e [He Hin]]. apply reached_registered in Hin as [p [Hp Hm]].
    exists p. split; [|done]. apply in_flat_map. eauto.
  - intros [p [Hp Hm]]. apply in_flat_map in Hp as [e [He Hp]].
    exists e. split; [done|]. apply reached_registered. eauto.
Qed.

(** C8. The server set up by registerRoutes answers a request that matches
    no registered route with HTTP 404, and a request whose path matches a
    registered route but whose method has no registration for that path
    with HTTP 405; either way it answers, it does not panic. *)
Theorem registerRoutes_dispatch_failures pathBase (r : Request) :
  let mux := registerRoutes pathBase in
  ((forall method pattern operation,
      In (method, pattern, operation) (registeredAll (routes mux)) ->
      patternMatches pattern (Path r) = false) ->
   ServeHTTP mux r = Status 404) /\
  ((exists method pattern operation,
      In (method, pattern, operation) (registeredAll (routes mux)) /\
      patternMatches pattern (Path r) = true) ->
   (forall method pattern operation,
      In (method, pattern, operation) (registeredAll (routes mux)) ->
      patternMatches pattern (Path r) = true -> method <> Method r) ->
   ServeHTTP mux r = Status 405).
Proof.
  intros mux. unfold ServeHTTP. split.
  - intros Hnone.
    destruct (reachedAll (routes mux) (Path r)) as [|[m op] found] eqn:E; [reflexivity|].
    assert (Hin : In (m, op) (reachedAll (routes mux) (Path r))) by (rewrite E; by left).
    apply reachedAll_registered in Hin as [p [Hp Hm]].
    rewrite (Hnone _ _ _ Hp) in Hm. discriminate.
  - intros [m [p [op [Hp Hm]]]] Hmethod.
    assert (Hin : In (m, op) (reachedAll (routes mux) (Path r))).
    { apply reachedAll_registered. eauto. }
    destruct (reachedAll (routes mux) (Path r)) as [|mo found] eqn:E; [destruct Hin|].
    destruct (find _ (mo :: found)) as [[m' op']|] eqn:Hfind; [|reflexivity].
    apply find_some in Hfind as [Hin' Heq]. simpl in Heq. apply String.eqb_eq in Heq.
    rewrite <- E in Hin'. apply reachedAll_registered in Hin' as [p' [Hp' Hm']].
    destruct (Hmethod _ _ _ Hp' Hm' Heq).
Qed.

(** Requests against the routes under the path base /apis: an unknown path,
    a collection with a method that has no handler, and a resource. *)
Example registerRoutes_requests :
  ServeHTTP (registerRoutes ["apis"]) {| Method := "GET"; Path := ["apis"; "abc"] |} =
  Status 404 /\
  ServeHTTP (registerRoutes ["apis"])
    {| Method := "DELETE";
       Path := ["apis"; "planes"; "radius"; "local"; "resourceGroups"; "rg1";
                "providers"; "Applications.Test"; "exampleResources"] |} =
  Status 405 /\
  ServeHTTP (registerRoutes ["apis"])
    {| Method := "PUT";
       Path := ["apis"; "planes"; "radius"; "local"; "resourceGroups"; "rg1";
                "providers"; "Applications.Test"; "exampleResources"; "my-example"] |} =
  Invoke OperationPut /\
  ServeHTTP (registerRoutes ["apis"])
    {| Method := "POST";
       Path := ["apis"; "planes"; "radius"; "local"; "providers"; "Applications.Test";
                "locations"; "global"; "operationstatuses"; "op1"] |} =
  Status 405.
Proof. repeat split; reflexivity. Qed.

Lemma registerRoutes_dispatch_failures_witness :
  ServeHTTP (registerRoutes ["apis"]) {| Method := "GET"; Path := ["apis"; "abc"] |} =
  Status 404 /\
  ServeHTTP (registerRoutes ["apis"])
    {| Method := "DELETE";
       Path := ["apis"; "planes"; "radius"; "local"; "resourceGroups"; "rg1";
                "providers"; "Applications.Test"; "exampleResources"] |} =
  Status 405.
Proof.
  split.
  - apply (proj1 (registerRoutes_dispatch_failures ["apis"]
                    {| Method := "GET"; Path := ["apis"; "abc"] |})).
    intros method pattern operation Hin. simpl in Hin.
    repeat (destruct Hin as [Hin|Hin]; [injection Hin as <- <- <-; reflexivity|]).
    destruct Hin.
  - apply (proj2 (registerRoutes_dispatch_failures ["apis"]
                    {| Method := "DELETE";
                       Path := ["apis"; "planes"; "radius"; "local"; "resourceGroups"; "rg1";
                                "providers"; "Applications.Test"; "exampleResources"] |})).
    + exists "GET". eexists. exists OperationList. split.
      * simpl. do 3 right. left. reflexivity.
      * reflexivity.
    + intros method pattern operation Hin. simpl in Hin.
      repeat (destruct Hin as [Hin|Hin];
              [injection Hin as <- <- <-; simpl; intros Hm; discriminate|]).
      destruct Hin.
Defined.

End router_properties.
Section strings_more_properties.
Import Strings.

Lemma map_string_app f s t : map_string f (s ++ t) = map_string f s ++ map_string f t.
Proof. induction s as [|c s IH]; simpl; [reflexivity|]. by rewrite !append_cons, IH. Qed.

Lemma ToLower_app s t : ToLower (s ++ t) = ToLower s ++ ToLower t.
Proof. apply map_string_app. Qed.

Lemma lower_ascii_idemp c : lower_ascii (lower_ascii c) = lower_ascii c.
Proof. destruct c as [[] [] [] [] [] [] [] []]; reflexivity. Qed.

Lemma ToLower_idemp s : ToLower (ToLower s) = ToLower s.
Proof.
  unfold ToLower. induction s as [|c s IH]; simpl; [reflexivity|].
  by rewrite lower_ascii_idemp, IH.
Qed.

Lemma EqualFold_ToLower_r s t : EqualFold s (ToLower t) = EqualFold s t.
Proof. unfold EqualFold. by rewrite ToLower_idemp. Qed.

Lemma EqualFold_true s t : EqualFold s t = true <-> ToLower s = ToLower t.
Proof. unfold EqualFold. apply String.eqb_eq. Qed.

End strings_more_properties.
Section validator_more_properties.
Import Strings Errors Resources Url Datamodel Store ResourceGroups ErrorKinds.
Context `{Resources.Pkg} `{Url.Pkg}.

Implicit Types (client : StorageClient) (id : ID) (plane : RadiusPlane).
Implicit Types (location : Location) (err : error).

Lemma GetResource_error {T} (As : Payload -> option T) client key err :
  GetResource As client key = inl err ->
  err = StoreError ErrNotFound \/ exists cause, err = StoreError (ErrStore cause).
Proof.
  unfold GetResource. destruct (Get client key) as [[|cause]|obj].
  - intros [= <-]. by left.
  - intros [= <-]. right. eauto.
  - destruct (As (Data obj)); [discriminate|]. intros [= <-]. right. eauto.
Qed.

Lemma ValidateRadiusPlane_error client id err :
  ValidateRadiusPlane client id = inl err -> errorKind err /\ Is_ErrNotFound err = false.
Proof.
  unfold ValidateRadiusPlane, errorKind.
  destruct (ParseScope (ID_PlaneScope id)) as [msg|planeID].
  { intros [= <-]. split; [|reflexivity]. right. right. eauto 6. }
  destruct (GetResource AsRadiusPlane client _) as [e|plane] eqn:Hg; [|discriminate].
  destruct (GetResource_error _ _ _ _ Hg) as [->|[cause ->]]; simpl; intros [= <-].
  - split; [|reflexivity]. left. done.
  - split; [|reflexivity]. right. right. eauto 8.
Qed.

Lemma ValidateResourceGroup_error client id err :
  ValidateResourceGroup client id = Some err -> errorKind err /\ Is_ErrNotFound err = false.
Proof.
  unfold ValidateResourceGroup, errorKind.
  destruct (String.eqb _ _); [discriminate|].
  destruct (ParseScope (ID_RootScope id)) as [msg|groupID].
  { intros [= <-]. split; [|reflexivity]. right. right. eauto 6. }
  destruct (GetResource AsResourceGroup client _) as [e|group] eqn:Hg; [|discriminate].
  destruct (GetResource_error _ _ _ _ Hg) as [->|[cause ->]]; simpl; intros [= <-].
  - split; [|reflexivity]. left. done.
  - split; [|reflexivity]. right. right. eauto 8.
Qed.

Lemma ValidateResourceType_error client id locationName apiVersion err :
  ValidateResourceType client id locationName apiVersion = inl err ->
  err = StoreError ErrNotFound \/ (errorKind err /\ Is_ErrNotFound err = false).
Proof.
  unfold ValidateResourceType, errorKind.
  destruct (ResourceProviderIDFromResourceID id) as [msg|providerID].
  { intros [= <-]. right. split; [|reflexivity]. right. right. eauto 6. }
  destruct (GetResource AsLocation client _) as [e|location] eqn:Hg.
  - destruct (GetResource_error _ _ _ _ Hg) as [->|[cause ->]]; simpl; intros [= <-].
    + by left.
    + right. split; [|reflexivity]. right. right. eauto 8.
  - destruct (rangeResourceTypes _ _) as [rt|];
      [|intros [= <-]; right; split; [right; left; done|done]].
    destruct (APIVersions rt !! apiVersion);
      [|intros [= <-]; right; split; [right; left; done|done]].
    destruct (Address location) as [a|]; [|discriminate].
    destruct (Url.Parse a); [|discriminate].
    intros [= <-]; right; split; [right; left; done|done].
Qed.

Lemma ValidateLegacyResourceProvider_error client id plane err :
  ValidateLegacyResourceProvider client id plane = inl err ->
  errorKind err /\ Is_ErrNotFound err = false.
Proof.
  unfold ValidateLegacyResourceProvider, errorKind.
  destruct (String.eqb _ _); [intros [= <-]; split; [right; left; done|done]|].
  destruct (Url.Parse _); [intros [= <-]; split; [right; left; done|done]|discriminate].
Qed.

(** X1. Every error of ValidateDownstream is of exactly one kind: a
    NotFoundError, an InvalidError, an error of the parsers of package
    resources, or a wrapped failure of the store other than not-found. The
    not-found error of the store itself never leaves ValidateDownstream:
    the one of the plane and of the resource group becomes a NotFoundError,
    the one of the location is replaced by the result of the legacy
    lookup. *)
Theorem ValidateDownstream_error_kinds client id locationName apiVersion err :
  ValidateDownstream client id locationName apiVersion = inl err ->
  errorKind err /\ Is_ErrNotFound err = false.
Proof.
  unfold ValidateDownstream.
  destruct (ValidateRadiusPlane client id) as [e|plane] eqn:Hp.
  { intros [= <-]. eapply ValidateRadiusPlane_error; eauto. }
  destruct (ValidateResourceGroup client id) as [e|] eqn:Hg.
  { intros [= <-]. eapply ValidateResourceGroup_error; eauto. }
  destruct (ValidateResourceType client id locationName apiVersion) as [e|u] eqn:Ht;
    [|discriminate].
  destruct (ValidateResourceType_error _ _ _ _ _ Ht) as [->|[Hk Hn]].
  - simpl. destruct (ValidateLegacyResourceProvider client id plane) as [e'|u] eqn:Hl;
      [|discriminate].
    intros [= <-]. eapply ValidateLegacyResourceProvider_error; eauto.
  - rewrite Hn. intros [= <-]. done.
Qed.

(** X2. Where a downstream comes from. When ValidateDownstream succeeds,
    the plane and the resource group were validated and either the
    location exists, its table lists the type with the API version, and the
    result is its address parsed, or nil when it has none; or the location
    does not exist and the result is the address that the plane registers
    for the namespace, not empty and parsed. A nil downstream is returned
    for a declared location without an address, and never by the legacy
    lookup. *)
Theorem ValidateDownstream_success client id locationName apiVersion downstreamURL :
  ValidateDownstream client id locationName apiVersion = inr downstreamURL ->
  exists plane,
    ValidateRadiusPlane client id = inr plane /\
    ValidateResourceGroup client id = None /\
    ((exists location resourceType,
        locationLookup client id locationName (inr location) /\
        rangeResourceTypes (searchOf id) (ResourceTypes location) = Some resourceType /\
        is_Some (APIVersions resourceType !! apiVersion) /\
        match Address location with
        | None => downstreamURL = None
        | Some address => exists u, Url.Parse address = inr u /\ downstreamURL = Some u
        end) \/
     (exists u,
        locationLookup client id locationName (inl (StoreError ErrNotFound)) /\
        LookupResourceProvider plane (ID_ProviderNamespace id) <> EmptyString /\
        Url.Parse (LookupResourceProvider plane (ID_ProviderNamespace id)) = inr u /\
        downstreamURL = Some u)).
Proof.
  unfold ValidateDownstream.
  destruct (ValidateRadiusPlane client id) as [e|plane] eqn:Hp; [discriminate|].
  destruct (ValidateResourceGroup client id) as [e|] eqn:Hg; [discriminate|].
  intros Hd. exists plane. split; [reflexivity|]. split; [reflexivity|].
  destruct (ValidateResourceType client id locationName apiVersion) as [e|u] eqn:Ht.
  - right. destruct (Is_ErrNotFound e) eqn:He; [|discriminate].
    pose proof (ValidateResourceType_Is_ErrNotFound _ _ _ _ _ Ht He) as Hl.
    revert Hd. unfold ValidateLegacyResourceProvider.
    destruct (String.eqb_spec (LookupResourceProvider plane (ID_ProviderNamespace id))
                EmptyString) as [Heq|Hne]; [discriminate|].
    destruct (Url.Parse _) as [msg|u] eqn:Hu; [discriminate|].
    intros [= <-]. eauto.
  - left. injection Hd as <-. revert Ht. unfold ValidateResourceType, locationLookup.
    destruct (ResourceProviderIDFromResourceID id) as [msg|providerID]; [discriminate|].
    destruct (GetResource AsLocation client _) as [e|location] eqn:Hl.
    { destruct (Is_ErrNotFound e); discriminate. }
    destruct (rangeResourceTypes _ _) as [rt|] eqn:Hr; [|discriminate].
    destruct (APIVersions rt !! apiVersion) as [[]|] eqn:Hv; [|discriminate].
    intros Ha. exists location, rt. split; [eauto|]. split; [done|]. split; [eauto|].
    destruct (Address location) as [a|].
    + destruct (Url.Parse a) as [msg|u'] eqn:Hu; [discriminate|]. injection Ha as <-. eauto.
    + by injection Ha as <-.
Qed.

End validator_more_properties.
Section validator_table_properties.
Import Strings StringsASCII Errors Resources Url Datamodel Store ResourceGroups.
Context `{Resources.Pkg} `{Url.Pkg}.

Implicit Types (client : StorageClient) (id : ID) (plane : RadiusPlane).
Implicit Types (location : Location) (err : error).

Lemma append_assoc (s t u : string) : (s ++ t) ++ u = s ++ t ++ u.
Proof. induction s as [|c s IH]; [reflexivity|]. by rewrite !append_cons, IH. Qed.

(** The loop over the table finds the same entry in whatever order it
    visits a table with no two names equal under case folding. *)
Lemma rangeResourceTypes_Permutation search rts rts' :
  Permutation rts rts' ->
  (forall n1 rt1 n2 rt2,
      In (n1, rt1) rts -> In (n2, rt2) rts -> EqualFold n1 n2 = true -> rt1 = rt2) ->
  rangeResourceTypes search rts = rangeResourceTypes search rts'.
Proof.
  intros Hperm Huniq.
  destruct (rangeResourceTypes search rts) as [rt|] eqn:E;
    destruct (rangeResourceTypes search rts') as [rt'|] eqn:E'; try reflexivity.
  - destruct (rangeResourceTypes_Some _ _ _ E) as [n [Hin Hn]].
    destruct (rangeResourceTypes_Some _ _ _ E') as [n' [Hin' Hn']].
    f_equal. apply (Huniq n rt n' rt'); [done| |].
    + eapply Permutation_in; [symmetry; exact Hperm|exact Hin'].
    + apply EqualFold_true. apply EqualFold_true in Hn, Hn'. congruence.
  - destruct (rangeResourceTypes_Some _ _ _ E) as [n [Hin Hn]].
    rewrite rangeResourceTypes_None in E'.
    rewrite (E' n rt) in Hn; [discriminate|]. eapply Permutation_in; eauto.
  - destruct (rangeResourceTypes_Some _ _ _ E') as [n [Hin Hn]].
    rewrite rangeResourceTypes_None in E.
    rewrite (E n rt') in Hn; [discriminate|].
    eapply Permutation_in; [symmetry; exact Hperm|exact Hin].
Qed.

(** X3. The order of the table does not matter. ValidateResourceType
    ranges over a Go map, whose order of iteration is not specified, and
    stops at the first name that matches. When no two names of the table
    of the location are equal under case folding, two stores that hold
    the same location with its table in different orders give the same
    result. *)
Theorem ValidateResourceType_table_order
    client client' id locationName apiVersion location location' :
  locationLookup client id locationName (inr location) ->
  locationLookup client' id locationName (inr location') ->
  Address location = Address location' ->
  Permutation (ResourceTypes location) (ResourceTypes location') ->
  (forall n1 rt1 n2 rt2,
      In (n1, rt1) (ResourceTypes location) -> In (n2, rt2) (ResourceTypes location) ->
      EqualFold n1 n2 = true -> rt1 = rt2) ->
  ValidateResourceType client id locationName apiVersion =
  ValidateResourceType client' id locationName apiVersion.
Proof.
  intros Hl Hl' Ha Hperm Huniq.
  rewrite (ValidateResourceType_found _ _ _ _ _ Hl), (ValidateResourceType_found _ _ _ _ _ Hl').
  rewrite (rangeResourceTypes_Permutation _ _ _ Hperm Huniq), Ha. reflexivity.
Qed.

(** X4. The name that is looked up, for types and names of ASCII bytes.
    For an id whose type is its provider namespace, the separator and a
    rest, the table of the location is searched for the rest in lower case,
    so that an entry of the table matches when its name equals the rest
    under case folding, and the table lists the type exactly when it has
    such an entry. *)
Theorem searchOf_namespace id rest :
  ID_Type id = ID_ProviderNamespace id ++ SegmentSeparator ++ rest ->
  isASCII (ID_Type id) = true ->
  searchOf id = ToLower rest /\
  (forall name, isASCII name = true -> EqualFold name (searchOf id) = EqualFold name rest) /\
  (forall location,
      (forall name rt, In (name, rt) (ResourceTypes location) -> isASCII name = true) ->
      (listsType location id <->
       exists name rt, In (name, rt) (ResourceTypes location) /\
                       EqualFold name rest = true)).
Proof.
  intros Ht _.
  assert (Hs : searchOf id = ToLower rest).
  { unfold searchOf, TrimPrefix. rewrite Ht, !ToLower_app.
    change (ToLower SegmentSeparator) with SegmentSeparator.
    rewrite <- append_assoc, strip_app. reflexivity. }
  split; [exact Hs|]. split.
  - intros name _. rewrite Hs. apply EqualFold_ToLower_r.
  - intros location _. unfold listsType. rewrite Hs.
    split; intros [name [rt [Hin Hm]]]; exists name, rt; split; try done.
    + by rewrite EqualFold_ToLower_r in Hm.
    + by rewrite EqualFold_ToLower_r.
Qed.

End validator_table_properties.
Section validator_more_examples.
Import Strings StringsASCII Errors Resources Url Datamodel Store ResourceGroups ErrorKinds RoutingExamples RoutingExamples2.
Local Existing Instances ResourcesModel.pkg UrlModel.pkg.

(** A resource of a provider that the plane does not register and that has
    no location: the not-found error of the location does not come out. *)
Lemma ValidateDownstream_error_kinds_witness :
  ValidateDownstream (MemoryStore.client legacyObjects) unregistered "global" apiVersion =
  inl (InvalidError "resource provider Applications.Other not configured") /\
  errorKind (InvalidError "resource provider Applications.Other not configured") /\
  Is_ErrNotFound (InvalidError "resource provider Applications.Other not configured") = false.
Proof.
  split; [reflexivity|].
  apply (@ValidateDownstream_error_kinds ResourcesModel.pkg UrlModel.pkg
           (MemoryStore.client legacyObjects) unregistered "global" apiVersion).
  reflexivity.
Defined.

Lemma ValidateDownstream_success_witness :
  exists plane,
    ValidateRadiusPlane (MemoryStore.client legacyObjects) container = inr plane /\
    ValidateResourceGroup (MemoryStore.client legacyObjects) container = None /\
    ((exists location resourceType,
        locationLookup (MemoryStore.client legacyObjects) container "global" (inr location) /\
        rangeResourceTypes (searchOf container) (ResourceTypes location) = Some resourceType /\
        is_Some (APIVersions resourceType !! apiVersion) /\
        match Address location with
        | None => Some "http://rp:8080" = None
        | Some address =>
            exists u, Url.Parse address = inr u /\ Some "http://rp:8080" = Some u
        end) \/
     (exists u,
        locationLookup (MemoryStore.client legacyObjects) container "global"
          (inl (StoreError ErrNotFound)) /\
        LookupResourceProvider plane (ID_ProviderNamespace container) <> EmptyString /\
        Url.Parse (LookupResourceProvider plane (ID_ProviderNamespace container)) = inr u /\
        Some "http://rp:8080" = Some u)).
Proof.
  apply (@ValidateDownstream_success ResourcesModel.pkg UrlModel.pkg
           (MemoryStore.client legacyObjects) container "global" apiVersion
           (Some "http://rp:8080")).
  reflexivity.
Defined.

(** The same location with its table in two orders. *)
Lemma ValidateResourceType_table_order_witness :
  ValidateResourceType (MemoryStore.client (tableObjects twoTypes)) container
    "global" apiVersion =
  ValidateResourceType (MemoryStore.client (tableObjects (rev twoTypes))) container
    "global" apiVersion.
Proof.
  apply (@ValidateResourceType_table_order ResourcesModel.pkg UrlModel.pkg
           (MemoryStore.client (tableObjects twoTypes))
           (MemoryStore.client (tableObjects (rev twoTypes)))
           container "global" apiVersion
           {| Address := None; ResourceTypes := twoTypes |}
           {| Address := None; ResourceTypes := rev twoTypes |}).
  - eexists. split; reflexivity.
  - eexists. split; reflexivity.
  - reflexivity.
  - apply Permutation_rev.
  - intros n1 rt1 n2 rt2 [[= <- <-]|[[= <- <-]|[]]] [[= <- <-]|[[= <- <-]|[]]];
      first [reflexivity | discriminate].
Defined.

(** With two names equal under case folding the order decides: the entry
    visited first is the one whose API versions are checked. *)
Example ValidateResourceType_table_order_clash :
  ValidateResourceType (MemoryStore.client (tableObjects clashingTypes)) container
    "global" apiVersion = inr None /\
  ValidateResourceType (MemoryStore.client (tableObjects (rev clashingTypes))) container
    "global" apiVersion =
  inl (InvalidError ("api version " ++ quoted apiVersion ++
                     " is not supported for resource type " ++
                     quoted "Applications.Core/containers" ++
                     " by location " ++ quoted "global")).
Proof. split; reflexivity. Qed.

Lemma searchOf_namespace_witness :
  searchOf container = "containers" /\
  (forall name, isASCII name = true ->
                EqualFold name (searchOf container) = EqualFold name "containers") /\
  (forall location,
      (forall name rt, In (name, rt) (ResourceTypes location) -> isASCII name = true) ->
      (listsType location container <->
       exists name rt, In (name, rt) (ResourceTypes location) /\
                       EqualFold name "containers" = true)).
Proof.
  apply (@searchOf_namespace ResourcesModel.pkg container "containers").
  - reflexivity.
  - reflexivity.
Defined.

End validator_more_examples.
Section notify_protocol.
Import Strings Errors Resources Json Heap V1 Notifications NotifyCalls.
Context `{Resources.Pkg} `{ObjectEncoding}.
Variable IsTerminal : ProvisioningState -> bool.
Variable DefaultRetryAfterDuration : Z.

Implicit Types (h : heap) (l : loc) (v : value) (j : json) (o : oracle).

#[local] Abbreviation notify := (Notifications.notify IsTerminal DefaultRetryAfterDuration).

(** X5. The order of the calls. In every run, whatever the collaborators
    answer, the calls of notify are an initial part of one sequence: storage
    client, read, save, UUID, status manager, queueing, save. So notify
    never queues an operation before it saved the resource, queues at most
    once, and saves a second time only after the queueing. *)
Theorem notify_call_order o id :
  exists n, map kindOf (snd (run o (notify id) [])) = take n order.
Proof.
  unfold Notifications.notify. simpl.
  destruct (o [] (GetStorageClient (ID_Type id))) as [err|]; simpl.
  { by exists 1. }
  destruct (o _ (StorageGet (ID_String id))) as [err|[h0 obj0]]; simpl.
  { by exists 2. }
  destruct (provisioningState h0 (VObject obj0)) as [[ps0 h1]|msg]; simpl.
  2: { by exists 2. }
  destruct (IsTerminal ps0); simpl.
  2: { by exists 2. }
  destruct (setProvisioningState h1 (VObject obj0) ProvisioningStateUpdating) as [h2|msg]; simpl.
  2: { by exists 2. }
  unfold save. destruct (objectETag h2 obj0) as [etag0|]; simpl.
  2: { by exists 2. }
  destruct (o _ (StorageSave h2 obj0 etag0)) as [err|]; simpl.
  { by exists 3. }
  destruct (o _ GetStatusManager); simpl.
  2: { by exists 5. }
  destruct (o _ (QueueAsyncOperation _ _)) as [err|]; simpl.
  2: { by exists 6. }
  destruct (setProvisioningState h2 (VObject obj0) ProvisioningStateFailed) as [h3|msg]; simpl.
  2: { by exists 6. }
  destruct (objectETag h3 obj0) as [etag3|]; simpl.
  2: { by exists 6. }
  destruct (o _ (StorageSave h3 obj0 etag3)) as [err'|]; simpl; by exists 7.
Qed.

(** X6. What the nil result means. When notify returns no error, every
    collaborator answered without one: the storage client was obtained, the
    resource was read, saved once under the ETag it was read with, and the
    last call queued a PUT operation on the resource, with the type of the
    resource in upper case, a timeout of sixty minutes and the default
    retry interval, which the queue accepted. *)
Theorem notify_nil_queued o id :
  fst (run o (notify id) []) = Done None ->
  exists h0 obj hs etag uuid,
    o [] (GetStorageClient (ID_Type id)) = None /\
    o [GetStorageClient (ID_Type id)] (StorageGet (ID_String id)) = inr (h0, obj) /\
    objectETag h0 obj = Some etag /\
    o [GetStorageClient (ID_Type id); StorageGet (ID_String id)] (StorageSave hs obj etag) =
    None /\
    let sCtx :=
      {| ResourceID := id;
         OperationID := uuid;
         OperationType_ := {| Type_ := ToUpper (ID_Type id); Method := "PUT" |} |} in
    let options :=
      {| OperationTimeout := 3600 * 1000000000; RetryAfter := DefaultRetryAfterDuration |} in
    let past :=
      [GetStorageClient (ID_Type id); StorageGet (ID_String id); StorageSave hs obj etag;
       NewUUID; GetStatusManager] in
    snd (run o (notify id) []) = (past ++ [QueueAsyncOperation sCtx options])%list /\
    o past (QueueAsyncOperation sCtx options) = None.
Proof.
  unfold Notifications.notify. simpl.
  destruct (o [] (GetStorageClient (ID_Type id))) as [err|] eqn:Hclient; simpl;
    [discriminate|].
  destruct (o _ (StorageGet (ID_String id))) as [err|[h0 obj0]] eqn:Hget; simpl;
    [discriminate|].
  destruct (provisioningState h0 (VObject obj0)) as [[ps0 h1]|msg] eqn:Hps; simpl;
    [|discriminate].
  destruct (IsTerminal ps0); simpl; [|discriminate].
  destruct (setProvisioningState h1 (VObject obj0) ProvisioningStateUpdating)
    as [h2|msg] eqn:Hset; simpl; [|discriminate].
  unfold save. destruct (objectETag h2 obj0) as [etag0|] eqn:Hetag; simpl; [|discriminate].
  destruct (o _ (StorageSave h2 obj0 etag0)) as [err|] eqn:Hsave; simpl; [discriminate|].
  destruct (o _ GetStatusManager); simpl; [|discriminate].
  destruct (o _ (QueueAsyncOperation _ _)) as [err|] eqn:Hq; simpl.
  { destruct (setProvisioningState h2 (VObject obj0) ProvisioningStateFailed) as [h3|msg];
      simpl; [|discriminate].
    destruct (objectETag h3 obj0) as [etag3|]; simpl; [|discriminate].
    destruct (o _ (StorageSave h3 obj0 etag3)) as [err'|]; simpl; discriminate. }
  intros _. exists h0, obj0, h2, etag0, (o
    [GetStorageClient (ID_Type id); StorageGet (ID_String id); StorageSave h2 obj0 etag0] NewUUID).
  split; [reflexivity|]. split; [reflexivity|]. split; [|split; [exact Hsave|]].
  - destruct (provisioningState_Done _ _ _ _ Hps) as [b [Hb [_ Hsub1]]].
    pose proof (setProvisioningState_subseteq _ _ _ _ Hset) as Hsub2.
    destruct (json_Marshal_object _ _ _ Hb) as [object Hobj].
    assert (Hobj2 : h2 !! obj0 = Some (CObject object)).
    { apply (lookup_weaken h1); [|done]. by apply (lookup_weaken h0). }
    unfold objectETag in *. rewrite Hobj. rewrite Hobj2 in Hetag. done.
  - simpl. split; [reflexivity|]. exact Hq.
Qed.

End notify_protocol.
Section notify_protocol_examples.
Import Strings Errors Resources Json Heap V1 Notifications NotifyCalls NotifyExamples.
#[local] Existing Instances ResourcesModel.pkg NotifyExamples.encoding.

Lemma notify_nil_queued_witness :
  exists h0 obj hs etag uuid,
    scripted stateless None [] (GetStorageClient (ID_Type RoutingExamples.container)) = None /\
    scripted stateless None
      [GetStorageClient (ID_Type RoutingExamples.container)]
      (StorageGet (ID_String RoutingExamples.container)) = inr (h0, obj) /\
    objectETag h0 obj = Some etag /\
    scripted stateless None
      [GetStorageClient (ID_Type RoutingExamples.container);
       StorageGet (ID_String RoutingExamples.container)] (StorageSave hs obj etag) = None /\
    let sCtx :=
      {| ResourceID := RoutingExamples.container;
         OperationID := uuid;
         OperationType_ :=
           {| Type_ := ToUpper (ID_Type RoutingExamples.container); Method := "PUT" |} |} in
    let options :=
      {| OperationTimeout := 3600 * 1000000000; RetryAfter := retryAfter |} in
    let past :=
      [GetStorageClient (ID_Type RoutingExamples.container);
       StorageGet (ID_String RoutingExamples.container); StorageSave hs obj etag;
       NewUUID; GetStatusManager] in
    snd (run (scripted stateless None) notifyContainer []) =
    (past ++ [QueueAsyncOperation sCtx options])%list /\
    scripted stateless None past (QueueAsyncOperation sCtx options) = None.
Proof.
  apply (@notify_nil_queued ResourcesModel.pkg encoding V1.IsTerminal retryAfter
           (scripted stateless None) RoutingExamples.container).
  vm_compute. reflexivity.
Defined.

End notify_protocol_examples.
(* ================================================================== *)
(** * Decoding: the decoded value holds the document *)
(* ================================================================== *)

Section decoded_properties.
Import Json Heap Decoded.

Implicit Types (h old : heap) (l : loc) (v : value) (j : json).

#[local] Arguments alloc : simpl never.
#[local] Arguments newMap : simpl never.
#[local] Arguments mapStore : simpl never.
#[local] Arguments mapLookup : simpl never.
#[local] Opaque alloc.

Lemma member_In k members j : member k members = Some j -> In (k, j) members.
Proof.
  induction members as [|[k0 j0] members IH]; simpl; [discriminate|].
  destruct (member k members) as [j'|].
  - intros [= ->]. right. by apply IH.
  - destruct (String.eqb_spec k0 k) as [->|Hne]; [|discriminate].
    intros [= ->]. by left.
Qed.

Lemma holdsEach_In (P : json -> value -> Prop) kept m members k j :
  holdsEach P kept m members -> In (k, j) members -> kept k = Some j ->
  exists v, m !! k = Some v /\ P j v.
Proof.
  induction members as [|[k0 j0] members IH]; simpl; [intros _ []|].
  intros [H0 Hrest] [[= -> ->]|Hin] Hk; eauto.
Qed.

(** What a map that holds an object has under a name. *)
Lemma holds_member old h members l k :
  holds old h (JObject members) (VMap l) ->
  match member k members with
  | Some j => exists v, mapLookup h l k = Some v /\ holds old h j v
  | None => mapLookup h l k = None
  end.
Proof.
  simpl. intros [l' [m [[= <-] [_ [Hl [Hnone Heach]]]]]].
  unfold mapLookup. rewrite Hl.
  destruct (member k members) as [j|] eqn:Hk; [|by apply Hnone].
  eapply holdsEach_In; eauto. by apply member_In.
Qed.

(** A value that holds a document keeps holding it in a heap that keeps
    the cells that [old] does not have. *)
Lemma holds_frame j : forall old h h' v,
  holds old h j v ->
  (forall l c, old !! l = None -> h !! l = Some c -> h' !! l = Some c) ->
  holds old h' j v.
Proof.
  induction j as [| b | n | s | items IH | members IH] using json_nested_ind;
    intros old h h' v; simpl; try done.
  - intros [l [vs [-> [Hold [Hl Hall]]]]] Hkeep. exists l, vs.
    split; [done|]. split; [done|]. split; [eauto|].
    clear Hl. revert vs Hall. induction IH as [|j items Hj _ IHitems]; intros [|v vs]; simpl;
      try done.
    intros [Hv Hrest]. split; eauto.
  - intros [l [m [-> [Hold [Hl [Hnone Heach]]]]]] Hkeep. exists l, m.
    split; [done|]. split; [done|]. split; [eauto|]. split; [done|].
    clear Hl Hnone. set (kept := fun k => member k members) in *. clearbody kept. revert Heach.
    induction IH as [|[k j] ms Hj _ IHms]; simpl; [done|].
    intros [Hk Hrest]. split; [|eauto].
    intros Hkept. destruct (Hk Hkept) as [v' [Hv' Hh]]. eauto.
Qed.

(** ... and holds it in cells that a smaller heap does not have either. *)
Lemma holds_old j : forall old old' h v,
  holds old h j v ->
  (forall l, old !! l = None -> old' !! l = None) ->
  holds old' h j v.
Proof.
  induction j as [| b | n | s | items IH | members IH] using json_nested_ind;
    intros old old' h v; simpl; try done.
  - intros [l [vs [-> [Hold [Hl Hall]]]]] Hdom. exists l, vs.
    split; [done|]. split; [eauto|]. split; [eauto|].
    clear Hl. revert vs Hall. induction IH as [|j items Hj _ IHitems]; intros [|v vs]; simpl;
      try done.
    intros [Hv Hrest]. split; eauto.
  - intros [l [m [-> [Hold [Hl [Hnone Heach]]]]]] Hdom. exists l, m.
    split; [done|]. split; [eauto|]. split; [eauto|]. split; [done|].
    clear Hl Hnone. set (kept := fun k => member k members) in *. clearbody kept. revert Heach.
    induction IH as [|[k j] ms Hj _ IHms]; simpl; [done|].
    intros [Hk Hrest]. split; [|eauto].
    intros Hkept. destruct (Hk Hkept) as [v' [Hv' Hh]]. eauto.
Qed.

Lemma subseteq_None h h' l : h ⊆ h' -> h' !! l = None -> h !! l = None.
Proof.
  intros Hsub Hl. destruct (h !! l) as [c|] eqn:E; [|done].
  rewrite (lookup_weaken _ _ _ _ E Hsub) in Hl. discriminate.
Qed.

(** The member kept for a name, as the map holds it once the members are
    decoded: decoded in a heap that has the cells of the heap at the start,
    its cells untouched by what was decoded after it. *)
Lemma decodeMembers_kept members k : forall l h,
  isMap h l ->
  match member k members with
  | None => mapLookup (decodeMembers decode members l h) l k = mapLookup h l k
  | Some j =>
      exists hi, isMap hi l /\
        (forall l', hi !! l' = None -> h !! l' = None) /\
        mapLookup (decodeMembers decode members l h) l k = Some (fst (decode j hi)) /\
        (forall l' c, l' <> l -> snd (decode j hi) !! l' = Some c ->
                      decodeMembers decode members l h !! l' = Some c)
  end.
Proof.
  induction members as [|[k0 j0] members IH]; intros l h Hmap; simpl; [done|].
  destruct (decode j0 h) as [v0 h1] eqn:Hd.
  destruct (decode_frame _ _ _ _ Hd) as [Hsub Hfresh].
  assert (Hmap1 : isMap h1 l) by (by apply (isMap_subseteq h)).
  assert (Hmap2 : isMap (mapStore h1 l k0 v0) l) by (by apply isMap_mapStore).
  specialize (IH l _ Hmap2).
  destruct (member k members) as [j|].
  - destruct IH as [hi [Hmi [Hdom [Hlook Hkeep]]]]. exists hi.
    split; [done|]. split; [|done].
    intros l' Hl'. apply (subseteq_None h h1); [done|].
    specialize (Hdom l' Hl'). destruct (decide (l' = l)) as [->|Hne].
    + destruct Hmap2 as [m2 E2]. congruence.
    + by rewrite mapStore_ne in Hdom.
  - rewrite IH. destruct Hmap1 as [m1 E1]. rewrite (mapLookup_mapStore _ _ _ _ _ _ E1).
    destruct (String.eqb_spec k0 k) as [->|Hne].
    + rewrite decide_True by done. exists h. split; [done|]. split; [done|].
      rewrite Hd. simpl.
      split; [done|]. intros l' c Hne Hc.
      apply (decodeMembers_frame members l _ Hmap2); [done|]. by rewrite mapStore_ne.
    + rewrite decide_False by done. apply mapLookup_subseteq; done.
Qed.

(** The value that a document decodes to holds the document, in cells that
    the heap did not have. *)
Lemma decode_holds j : forall h v h', decode j h = (v, h') -> holds h h' j v.
Proof.
  induction j as [| b | n | s | items IH | members IH] using json_nested_ind;
    intros h v h'.
  - simpl. by intros [= <- <-].
  - simpl. by intros [= <- <-].
  - simpl. by intros [= <- <-].
  - simpl. by intros [= <- <-].
  - intros Hd. pose proof (decode_frame _ _ _ _ Hd) as [_ Hfresh]. revert Hd Hfresh.
    simpl. destruct (decodeItems decode items h) as [vs h1] eqn:Hitems.
    destruct (alloc h1 (CSlice vs)) as [l h2] eqn:Ha. intros [= <- <-] Hfresh.
    destruct (alloc_spec _ _ _ _ Ha) as [Hl ->]. simpl in Hfresh.
    exists l, vs. split; [done|]. split; [done|]. split; [apply lookup_insert_eq|].
    assert (Hgen : forall h0 vs0 h1', decodeItems decode items h0 = (vs0, h1') ->
               h0 ⊆ h1' /\ forall h2, h1' ⊆ h2 -> holdsAll (holds h0 h2) items vs0).
    { clear -IH. intros h0. revert h0.
      induction IH as [|j items Hj _ IHitems]; intros h0 vs0 h1'; simpl.
      - intros [= <- <-]. done.
      - destruct (decode j h0) as [v0 h00] eqn:Hd.
        destruct (decodeItems decode items h00) as [vs00 h000] eqn:Hrest.
        intros [= <- <-].
        destruct (decode_frame _ _ _ _ Hd) as [Hsub0 _].
        destruct (IHitems _ _ _ Hrest) as [Hsub1 Hall].
        split; [by transitivity h00|]. intros h2 Hsub2. split.
        + apply (holds_frame j h0 h00); [by apply Hj|].
          intros l c _ Hc. apply (lookup_weaken h000); [|done].
          by apply (lookup_weaken h00).
        + specialize (Hall h2 Hsub2). clear -Hall Hsub0.
          revert vs00 Hall. induction items as [|j' items IH']; intros [|v' vs']; simpl;
            try done.
          intros [Hv Hrest]. split; [|eauto].
          apply (holds_old j' h00); [done|]. intros l. by apply subseteq_None. }
    destruct (Hgen _ _ _ Hitems) as [_ Hall]. apply Hall. by apply insert_subseteq.
  - intros Hd. pose proof (decode_frame _ _ _ _ Hd) as [_ Hfresh]. revert Hd Hfresh.
    simpl. unfold newMap. destruct (alloc h (CMap ∅)) as [l h1] eqn:Ha.
    intros [= <- <-] Hfresh. simpl in Hfresh.
    destruct (alloc_spec _ _ _ _ Ha) as [Hl ->].
    set (h1 := <[l := CMap ∅]> h).
    assert (Hmap1 : isMap h1 l) by (exists ∅; apply lookup_insert_eq).
    assert (Hempty : forall k, mapLookup h1 l k = None).
    { intros k. unfold mapLookup, h1. rewrite lookup_insert_eq. apply lookup_empty. }
    destruct (decodeMembers_frame members l h1 Hmap1) as [[m Em] _].
    exists l, m. split; [done|]. split; [done|]. split; [done|]. split.
    + intros k Hk. pose proof (decodeMembers_kept members k l h1 Hmap1) as Hkept.
      rewrite Hk in Hkept. rewrite Hempty in Hkept. unfold mapLookup in Hkept.
      by rewrite Em in Hkept.
    + assert (Hgen : forall ms, Forall (fun kj => forall h v h',
                         decode (snd kj) h = (v, h') -> holds h h' (snd kj) v) ms ->
                holdsEach (holds h (decodeMembers decode members l h1))
                          (fun k => member k members) m ms).
      { intros ms Hms. induction Hms as [|[k j] ms Hj _ IHms]; simpl; [done|].
        split; [|done]. intros Hk.
        pose proof (decodeMembers_kept members k l h1 Hmap1) as Hkept.
        rewrite Hk in Hkept. destruct Hkept as [hi [Hmi [Hdom [Hlook Hkeep]]]].
        unfold mapLookup in Hlook. rewrite Em in Hlook.
        exists (fst (decode j hi)). split; [done|].
        destruct (decode j hi) as [v' hi'] eqn:Hdj. simpl in *.
        apply (holds_old j hi).
        - apply (holds_frame j hi hi'); [by apply Hj|].
          intros l' c Hl' Hc. apply Hkeep; [|done].
          intros ->. destruct Hmi as [mi Ei]. congruence.
        - intros l' Hl'. apply Hdom in Hl'. unfold h1 in Hl'.
          destruct (decide (l' = l)) as [->|Hne]; [done|].
          by rewrite lookup_insert_ne in Hl'. }
      apply Hgen. exact IH.
Qed.

End decoded_properties.
(* ================================================================== *)
(** * The declarative filter: the resources that a notification impacts *)
(* ================================================================== *)

Section filter_listing_properties.
Import Strings Errors Resources Json Heap V1 Notifications Decoded Filter.
Context `{Resources.Pkg} `{ObjectEncoding} `{Generated.Sdk}.
Variable IsTerminal : ProvisioningState -> bool.
Variable DefaultRetryAfterDuration : Z.
Variable MustParse : string -> outcome Resources.ID.

Implicit Types (h old : heap) (l : loc) (v : value) (j : json).

#[local] Arguments mapLookup : simpl never.

#[local] Abbreviation infrastructure := (Filter.infrastructure MustParse).
#[local] Abbreviation mustParseAll := (Filter.mustParseAll MustParse).
#[local] Abbreviation impacts := (Filter.impacts MustParse).

Lemma holds_not_map old h j v l :
  holds old h j v -> v = VMap l -> exists members, j = JObject members.
Proof. destruct j; simpl; try congruence; [|eauto]. intros [l' [vs [-> _]]]. discriminate. Qed.

Lemma holds_not_string old h j v s :
  holds old h j v -> v = VString s -> j = JString s.
Proof.
  destruct j; simpl; try congruence.
  - intros [l' [vs [-> _]]]. discriminate.
  - intros [l' [m [-> _]]]. discriminate.
Qed.

Lemma mustParseAll_cons id ids :
  mustParseAll (id :: ids) =
  match MustParse id with
  | Panic msg => Panic msg
  | Done parsed =>
      match mustParseAll ids with
      | Panic msg => Panic msg
      | Done more => Done (parsed :: more)
      end
  end.
Proof. reflexivity. Qed.

Lemma omap_idOf_cons j items :
  omap idOf (j :: items) =
  match idOf j with
  | Some id => id :: omap idOf items
  | None => omap idOf items
  end.
Proof. reflexivity. Qed.

Lemma rangeOutputResources_holds old h items : forall vs results,
  holdsAll (holds old h) items vs ->
  rangeOutputResources MustParse h vs results =
  match mustParseAll (omap idOf items) with
  | Done parsed => Done (results ++ parsed)%list
  | Panic msg => Panic msg
  end.
Proof.
  induction items as [|j items IH]; intros [|v vs] results; try done.
  { intros _. simpl. by rewrite app_nil_r. }
  intros [Hv Hrest]. specialize (IH vs). rewrite omap_idOf_cons.
  destruct (idOf j) as [id|] eqn:Hid.
  - destruct j as [| | | | |resource]; try discriminate. simpl in Hid.
    assert (exists lr, v = VMap lr) as [lr ->].
    { simpl in Hv. destruct Hv as [lr [m [-> _]]]. eauto. }
    pose proof (holds_member _ _ _ _ "id" Hv) as Hm.
    destruct (member "id" resource) as [[| | |s| |]|]; try discriminate.
    injection Hid as ->. destruct Hm as [vid [Hlook Hvid]]. simpl in Hvid. subst vid.
    rewrite mustParseAll_cons. simpl. rewrite Hlook.
    destruct (MustParse id) as [parsed|msg]; [|reflexivity].
    rewrite (IH _ Hrest). destruct (mustParseAll (omap idOf items)); [|reflexivity].
    by rewrite <- app_assoc.
  - rewrite <- (IH results Hrest). simpl.
    destruct v as [| | | |lr| |]; try reflexivity.
    destruct (holds_not_map _ _ _ _ _ Hv eq_refl) as [resource ->].
    pose proof (holds_member _ _ _ _ "id" Hv) as Hm. simpl in Hid.
    destruct (member "id" resource) as [jid|].
    + destruct Hm as [vid [-> Hvid]]. destruct vid as [| | |s| | |]; try reflexivity.
      rewrite (holds_not_string _ _ _ _ _ Hvid eq_refl) in Hid. discriminate.
    + by rewrite Hm.
Qed.

(** X7. infrastructure computes the path in its comment. For a resource
    whose properties were decoded from a JSON object, infrastructure
    returns the ids parsed from $.status.outputResources[*].id: the string
    ids of the objects of that array, in order; items that are no object or
    have no string id are passed over, and a status or an array of another
    shape, or none, gives none. It panics exactly when one of these ids does
    not parse. *)
Theorem infrastructure_outputResourceIDs h0 properties l h h' id :
  decode (JObject properties) h0 = (VMap l, h) ->
  h ⊆ h' ->
  infrastructure h' (Some {| Generated.ID := id; Generated.Properties := Some l |}) =
  mustParseAll (outputResourceIDs properties).
Proof.
  intros Hd Hsub. apply decode_holds in Hd.
  assert (Hh : holds h0 h' (JObject properties) (VMap l)).
  { apply (holds_frame _ h0 h); [done|]. intros l' c _ Hc. by apply (lookup_weaken h). }
  clear Hd. unfold Filter.infrastructure, outputResourceIDs. simpl.
  pose proof (holds_member _ _ _ _ "status" Hh) as Hs.
  destruct (member "status" properties) as [js|]; [|by rewrite Hs].
  destruct Hs as [vs [-> Hvs]].
  destruct js as [| b | n | s |items|status];
    try (simpl in Hvs; subst vs; reflexivity);
    [destruct Hvs as [ls [items' [-> _]]]; reflexivity|].
  assert (exists ls, vs = VMap ls) as [ls ->]
    by (destruct Hvs as [ls [m [-> _]]]; eauto).
  pose proof (holds_member _ _ _ _ "outputResources" Hvs) as Ho.
  destruct (member "outputResources" status) as [jo|]; [|by rewrite Ho].
  destruct Ho as [vo [-> Hvo]].
  destruct jo as [| b | n | s |items|members];
    try (simpl in Hvo; subst vo; reflexivity);
    [|destruct Hvo as [lo [m [-> _]]]; reflexivity].
  simpl in Hvo. destruct Hvo as [lo [vs [-> [_ [Hlo Hall]]]]].
  unfold sliceItems. rewrite Hlo.
  rewrite (rangeOutputResources_holds _ _ _ _ [] Hall).
  by destruct (mustParseAll _).
Qed.

#[local] Abbreviation rangeInfrastructure := (Filter.rangeInfrastructure MustParse).
#[local] Abbreviation rangeValue := (Filter.rangeValue MustParse).
#[local] Abbreviation rangePages := (Filter.rangePages MustParse).
#[local] Abbreviation impactedResources := (Filter.impactedResources MustParse).

#[local] Abbreviation parsesTo := (Filter.parsesTo MustParse).

(** The loop over the infrastructure of a resource adds the id of the
    resource once when an id of the infrastructure matches, and nothing
    otherwise. *)
Lemma rangeInfrastructure_spec notification resource ids : forall results results',
  rangeInfrastructure notification resource ids results false = Done results' ->
  if existsb (fun id => EqualFold (ID_String id) (ID_String (ID notification))) ids
  then exists resourceID id,
         Filter.resourceID resource = Done resourceID /\ MustParse resourceID = Done id /\
         results' = (results ++ [id])%list
  else results' = results.
Proof.
  induction ids as [|id0 ids IH]; intros results results'; simpl.
  { by intros [= <-]. }
  destruct (EqualFold _ _); simpl.
  - destruct (Filter.resourceID resource) as [rid|msg] eqn:Hr; [|discriminate].
    destruct (MustParse rid) as [parsed|msg] eqn:Hp; [|discriminate].
    intros [= <-]. eauto.
  - apply IH.
Qed.

Lemma rangeValue_spec notification h value : forall results results',
  rangeValue notification h value results = Done results' ->
  exists new, results' = (results ++ new)%list /\
    Forall2 parsesTo (List.filter (impacts notification) (map (pair h) value)) new.
Proof.
  induction value as [|resource value IH]; intros results results'; simpl.
  { intros [= <-]. exists []. by rewrite app_nil_r. }
  unfold Filter.impacts at 1. simpl.
  destruct (infrastructure h resource) as [ids|msg] eqn:Hi; [|discriminate].
  destruct (rangeInfrastructure notification resource ids results false)
    as [results1|msg] eqn:Hr; [|discriminate].
  intros Hv. destruct (IH _ _ Hv) as [new [-> Hnew]].
  apply rangeInfrastructure_spec in Hr.
  destruct (existsb _ ids).
  - destruct Hr as [rid [id [Hrid [Hp ->]]]]. exists (id :: new).
    split; [by rewrite <- app_assoc|]. constructor; [|done]. exists rid. done.
  - subst results1. eauto.
Qed.

Lemma rangePages_spec notification fuel : forall pager results results',
  rangePages fuel notification pager results = Some (Done (inr results')) ->
  exists resources new,
    listed fuel pager = Some (inr resources) /\
    results' = (results ++ new)%list /\
    Forall2 parsesTo (List.filter (impacts notification) resources) new.
Proof.
  induction fuel as [|fuel IH]; intros pager results results'; simpl; [discriminate|].
  destruct (Generated.More pager).
  2: { intros [= <-]. exists [], []. by rewrite app_nil_r. }
  destruct (Generated.NextPage pager) as [err|[response pager']]; [discriminate|].
  destruct (rangeValue notification (Generated.Cells response) (Generated.Value response)
              results) as [results1|msg] eqn:Hv; [|discriminate].
  intros Hp. destruct (IH _ _ _ Hp) as [resources [new [-> [-> Hnew]]]].
  destruct (rangeValue_spec _ _ _ _ _ Hv) as [new1 [-> Hnew1]].
  eexists _, (new1 ++ new)%list. split; [reflexivity|]. split; [by rewrite <- app_assoc|].
  rewrite List.filter_app. by apply Forall2_app.
Qed.

(** X8. The impacted resources, once each. When impactedResources
    returns a list, the pager delivered its pages without an error, and the
    list has one id for each listed resource whose infrastructure names the
    resource of the notification under case folding, in the order of the
    listing and however many times the infrastructure names it; the id is
    the one that the id of the resource parses to. Resources that do not
    name it contribute nothing. *)
Theorem impactedResources_once fuel resourceType notification results :
  impactedResources fuel resourceType notification = Some (Done (inr results)) ->
  exists client resources,
    Generated.NewGenericResourcesClient "/planes/radius/local" resourceType = inr client /\
    listed fuel (Generated.NewListByRootScopePager client) = Some (inr resources) /\
    Forall2 parsesTo (List.filter (impacts notification) resources) results.
Proof.
  unfold Filter.impactedResources.
  destruct (Generated.NewGenericResourcesClient _ _) as [err|client]; [discriminate|].
  intros Hp. destruct (rangePages_spec _ _ _ _ _ Hp) as [resources [new [Hl [-> Hnew]]]].
  eauto.
Qed.

End filter_listing_properties.
Section filter_send_properties.
Import Strings Errors Resources Json Heap V1 Notifications Filter.
Context `{Resources.Pkg} `{ObjectEncoding} `{Generated.Sdk}.
Variable IsTerminal : ProvisioningState -> bool.
Variable DefaultRetryAfterDuration : Z.
Variable MustParse : string -> outcome Resources.ID.

#[local] Abbreviation Send := (Filter.Send IsTerminal DefaultRetryAfterDuration MustParse).

(** The loop of recipeTypes ends at once, with the results it started
    with, or not at all. *)
Lemma rangeProviders_spec fuel pager results :
  rangeProviders fuel pager results =
  match fuel with
  | O => None
  | S _ => if Generated.ResourceProvidersPager_More pager then None else Some results
  end.
Proof.
  induction fuel as [|fuel IH]; simpl; [reflexivity|].
  rewrite IH. destruct (Generated.ResourceProvidersPager_More pager); [|reflexivity].
  by destruct fuel.
Qed.

(** X9. Send notifies nothing. The body of the loop of recipeTypes is a
    comment: the loop fetches no page and adds no type. So recipeTypes
    returns the error of the creation of its client, or no recipe type when
    the pager has no page to give, and does not return while the pager has
    more; and Send, which notifies the resources of the recipe types,
    returns the same error or nil, or does not return, without a single
    call to the storage, to the queue or to the listing of resources,
    whatever the notification. *)
Theorem Send_notifies_nothing fuel notification :
  recipeTypes (S fuel) =
    match Generated.NewResourceProvidersClient with
    | inl err => Some (inl err)
    | inr client =>
        if Generated.ResourceProvidersPager_More (Generated.NewListPager client "local")
        then None else Some (inr [])
    end /\
  Send (S fuel) notification =
    match Generated.NewResourceProvidersClient with
    | inl err => Ret (Some (Some err))
    | inr client =>
        if Generated.ResourceProvidersPager_More (Generated.NewListPager client "local")
        then Ret None else Ret (Some None)
    end /\
  forall o past, snd (run o (Send (S fuel) notification) past) = past.
Proof.
  assert (Hr : recipeTypes (S fuel) =
    match Generated.NewResourceProvidersClient with
    | inl err => Some (inl err)
    | inr client =>
        if Generated.ResourceProvidersPager_More (Generated.NewListPager client "local")
        then None else Some (inr [])
    end).
  { unfold recipeTypes. destruct Generated.NewResourceProvidersClient as [err|client];
      [reflexivity|].
    rewrite rangeProviders_spec. by destruct (Generated.ResourceProvidersPager_More _). }
  assert (Hs : Send (S fuel) notification =
    match Generated.NewResourceProvidersClient with
    | inl err => Ret (Some (Some err))
    | inr client =>
        if Generated.ResourceProvidersPager_More (Generated.NewListPager client "local")
        then Ret None else Ret (Some None)
    end).
  { unfold Filter.Send. rewrite Hr.
    destruct Generated.NewResourceProvidersClient as [err|client]; [reflexivity|].
    by destruct (Generated.ResourceProvidersPager_More _). }
  split; [exact Hr|]. split; [exact Hs|].
  intros o past. rewrite Hs.
  destruct Generated.NewResourceProvidersClient as [err|client]; [reflexivity|].
  by destruct (Generated.ResourceProvidersPager_More _).
Qed.

Lemma run_bind {A B} o (p : prog A) (k : A -> prog B) : forall past,
  run o (bind p k) past =
  match run o p past with
  | (Done a, past') => run o (k a) past'
  | (Panic msg, past') => (Panic msg, past')
  end.
Proof.
  induction p as [a|msg|c k' IH]; intros past; simpl; try reflexivity. apply IH.
Qed.

(** X10. When the handler of an event asks for a retry. With a filter in
    place, eventHandler returns retry exactly when the data of the event
    decodes to a notification and the filter returns an error for it, and
    then its error wraps that one; data that does not decode is reported,
    not retried, and the filter is not called for it. *)
Theorem eventHandler_retry Unmarshal filter RawData o past retry err :
  fst (run o (eventHandler Unmarshal (Some filter) RawData) past) = Done (Some (retry, err)) ->
  (retry = true <->
   exists n cause,
     Unmarshal RawData = inr n /\
     fst (run o (filter n) past) = Done (Some (Some cause)) /\
     err = Some (Errorf "failed to send notification: " cause)) /\
  (forall cause, Unmarshal RawData = inl cause ->
     run o (eventHandler Unmarshal (Some filter) RawData) past =
     (Done (Some (false, Some (Errorf "failed to unmarshal event data: " cause))), past)).
Proof.
  unfold eventHandler. destruct (Unmarshal RawData) as [cause|n] eqn:Hu.
  - simpl. intros [= <- <-]. split; [|by intros ? [= <-]].
    split; [discriminate|]. by intros [n [c [Hc _]]].
  - rewrite run_bind. intros Hrun. split; [|discriminate].
    destruct (run o (filter n) past) as [[[[e|]|]|msg] past'] eqn:Hf; simpl in *;
      try discriminate.
    + injection Hrun as <- <-. split; [|done]. intros _. exists n, e. by rewrite Hf.
    + injection Hrun as <- <-. split; [discriminate|].
      intros [n' [c [[= <-] [Hc _]]]]. rewrite Hf in Hc. discriminate.
Qed.

End filter_send_properties.
Section filter_examples.
Import Strings Errors Resources Json Heap V1 Notifications Filter FilterExamples.
#[local] Existing Instances ResourcesModel.pkg NotifyExamples.encoding.

(** An object decodes to a new map with its members decoded into it. *)
Lemma decode_JObject members h :
  decode (JObject members) h =
  (VMap (fst (newMap h)), decodeMembers decode members (fst (newMap h)) (snd (newMap h))).
Proof. simpl. by destruct (newMap h). Qed.

Lemma infrastructure_outputResourceIDs_witness :
  infrastructure MustParse cells2 (Some container1) =
  mustParseAll MustParse (outputResourceIDs properties1).
Proof.
  apply (@infrastructure_outputResourceIDs ResourcesModel.pkg MustParse
            ∅ properties1 properties1At cells1 cells2 (Some NotifyExamples.containerKey)).
  - apply decode_JObject.
  - apply (decode_frame (JObject properties2) cells1 (VMap properties2At) cells2).
    apply decode_JObject.
Defined.

Example infrastructure_example :
  outputResourceIDs properties1 = [bucket; ToUpper bucket] /\
  (match infrastructure MustParse cells2 (Some container1) with
   | Done ids => Some (map (fun id => EqualFold (ResourcesModel.String_ id) bucket) ids)
   | Panic _ => None
   end) = Some [true; true].
Proof. split; vm_compute; reflexivity. Qed.

(** The first container names the bucket, twice, and is listed once; the
    second does not name it. *)
Lemma impactedResources_once_witness :
  exists client resources,
    @Generated.NewGenericResourcesClient (sdk 0 [page])
      "/planes/radius/local" "Applications.Core/containers" = inr client /\
    @listed (sdk 0 [page]) 2 (@Generated.NewListByRootScopePager (sdk 0 [page]) client) =
    Some (inr resources) /\
    Forall2 (parsesTo MustParse)
      (List.filter (impacts MustParse (bucketChanged bucket)) resources)
      [RoutingExamples.container].
Proof.
  apply (@impactedResources_once ResourcesModel.pkg (sdk 0 [page]) MustParse
           2 "Applications.Core/containers" (bucketChanged bucket)
           [RoutingExamples.container]).
  vm_compute. reflexivity.
Defined.

Example impactedResources_example :
  @impactedResources ResourcesModel.pkg (sdk 0 [page]) MustParse
    2 "Applications.Core/containers" (bucketChanged queue) =
  Some (Done (inr [RoutingExamples.resource "containers" "c2"])) /\
  @impactedResources ResourcesModel.pkg (sdk 0 [page; page]) MustParse
    1 "Applications.Core/containers" (bucketChanged queue) = None.
Proof. split; vm_compute; reflexivity. Qed.

(** Send with a listing of resource providers that has pages left does not
    return; with none left it returns nil; either way it calls nothing. *)
Example Send_examples :
  (let r := run (NotifyExamples.scripted NotifyExamples.succeeded None)
                (@Send ResourcesModel.pkg NotifyExamples.encoding (sdk 1 [page]) V1.IsTerminal
                   NotifyExamples.retryAfter MustParse 100 (bucketChanged bucket)) [] in
   (fst r, length (snd r))) = (Done None, 0) /\
  (let r := run (NotifyExamples.scripted NotifyExamples.succeeded None)
                (@Send ResourcesModel.pkg NotifyExamples.encoding (sdk 0 [page]) V1.IsTerminal
                   NotifyExamples.retryAfter MustParse 100 (bucketChanged bucket)) [] in
   (fst r, length (snd r))) = (Done (Some None), 0).
Proof. split; vm_compute; reflexivity. Qed.

(** The loop of Send, had recipeTypes found the type of the containers:
    the first container is read, saved and queued. *)
Example rangeRecipeTypes_example :
  map NotifyCalls.kindOf
    (snd (run (NotifyExamples.scripted NotifyExamples.succeeded None)
            (@rangeRecipeTypes ResourcesModel.pkg NotifyExamples.encoding (sdk 0 [page])
               V1.IsTerminal NotifyExamples.retryAfter MustParse
               2 (bucketChanged bucket) ["Applications.Core/containers"]) [])) =
  firstn 6 NotifyCalls.order.
Proof. vm_compute. reflexivity. Qed.

(** The control plane cannot be reached: the event of the bucket is to be
    retried. *)
Lemma eventHandler_retry_witness :
  (true = true <->
   exists n cause,
     Unmarshal bucket = inr n /\
     fst (run (NotifyExamples.scripted NotifyExamples.succeeded None)
            (@Send ResourcesModel.pkg NotifyExamples.encoding sdkDown V1.IsTerminal
               NotifyExamples.retryAfter MustParse 1 n) []) = Done (Some (Some cause)) /\
     Some (Errorf "failed to send notification: " unreachable) =
     Some (Errorf "failed to send notification: " cause)) /\
  (forall cause, Unmarshal bucket = inl cause ->
     run (NotifyExamples.scripted NotifyExamples.succeeded None)
       (eventHandler Unmarshal
          (Some (@Send ResourcesModel.pkg NotifyExamples.encoding sdkDown V1.IsTerminal
                   NotifyExamples.retryAfter MustParse 1)) bucket) [] =
     (Done (Some (false, Some (Errorf "failed to unmarshal event data: " cause))), [])).
Proof.
  apply (@eventHandler_retry ResourcesModel.pkg Unmarshal
           (@Send ResourcesModel.pkg NotifyExamples.encoding sdkDown V1.IsTerminal
              NotifyExamples.retryAfter MustParse 1)
           bucket (NotifyExamples.scripted NotifyExamples.succeeded None) []
           true (Some (Errorf "failed to send notification: " unreachable))).
  vm_compute. reflexivity.
Defined.

(** Data that is no id is reported and not retried. *)
Example eventHandler_examples :
  fst (run (NotifyExamples.scripted NotifyExamples.succeeded None)
         (eventHandler Unmarshal
            (Some (@Send ResourcesModel.pkg NotifyExamples.encoding sdkDown V1.IsTerminal
                     NotifyExamples.retryAfter MustParse 1)) "not an id") []) =
  Done (Some (false,
              Some (Errorf "failed to unmarshal event data: "
                      (ErrorString (ResourcesModel.malformed "not an id"))))) /\
  fst (run (NotifyExamples.scripted NotifyExamples.succeeded None)
         (eventHandler Unmarshal None bucket) []) = Done (Some (false, None)).
Proof. split; vm_compute; reflexivity. Qed.

End filter_examples.
(* ================================================================== *)
(** * The conversions of the dynamic resource *)
(* ================================================================== *)

Section conversion_properties.
Import Strings Errors Json Heap V1 Api DynamicRP.
Context `{DynamicRP.Pkg}.

Implicit Types (h : heap) (l : loc) (v : value).

#[local] Arguments newMap : simpl never.
#[local] Arguments mapStore : simpl never.
#[local] Arguments mapLookup : simpl never.
#[local] Opaque alloc.

Lemma fromProvisioningStateDataModel_not_empty input :
  fromProvisioningStateDataModel input <> EmptyString.
Proof.
  unfold fromProvisioningStateDataModel.
  destruct (String.eqb_spec input EmptyString) as [->|Hne]; [discriminate|done].
Qed.

(** fromSystemDataDataModel keeps every cell of the heap. *)
Lemma fromSystemDataDataModel_subseteq h input systemData h' :
  fromSystemDataDataModel h input = Done (systemData, h') -> h ⊆ h'.
Proof.
  unfold fromSystemDataDataModel. destruct (marshalSystemData input) as [bs|]; [|discriminate].
  destruct (newMap h) as [l h1] eqn:Hn. destruct (newMap_spec _ _ _ Hn) as [Hl ->].
  destruct bs as [| | | |items|members]; simpl; try discriminate.
  - intros [= <- <-]. by apply insert_subseteq.
  - intros [= <- <-].
    assert (Hmap : isMap (<[l := CMap ∅]> h) l) by (exists ∅; apply lookup_insert_eq).
    destruct (decodeMembers_frame members l _ Hmap) as [_ [Hkeep _]].
    apply map_subseteq_spec. intros l' c Hc. apply Hkeep; [congruence|].
    rewrite lookup_insert_ne by congruence. done.
Qed.

(** What ConvertFrom does with a data model: it panics when the tags or
    the system data do; otherwise it returns no error, and the properties
    of the versioned resource are the map of the data model, or a new map
    when it has none, with the provisioning state written into it and
    nothing else changed. *)
Lemma ConvertFrom_model h d dm :
  match Datamodel.Properties dm with Some l => isMap h l | None => True end ->
  match ConvertFrom h d (DynamicResourceModel (Some dm)) with
  | Panic _ =>
      to_StringMapPtr (Datamodel.Tags_ dm) = None \/
      exists msg, fromSystemDataDataModel h (Datamodel.SystemData_ dm) = Panic msg
  | Done (err, d', h') =>
      err = None /\
      exists l,
        Properties d' = Some l /\
        mapLookup h' l "provisioningState" =
          Some (VString (fromProvisioningStateDataModel (Datamodel.AsyncProvisioningState dm))) /\
        match Datamodel.Properties dm with
        | Some l0 =>
            l = l0 /\
            forall k, k <> "provisioningState" -> mapLookup h' l k = mapLookup h l k
        | None =>
            h !! l = None /\
            forall k, k <> "provisioningState" -> mapLookup h' l k = None
        end /\
        forall l' c, l' <> l -> h !! l' = Some c -> h' !! l' = Some c
  end.
Proof.
  intros Hmap. unfold ConvertFrom.
  destruct (to_StringMapPtr (Datamodel.Tags_ dm)) as [tags|]; [|by left].
  destruct (fromSystemDataDataModel h (Datamodel.SystemData_ dm)) as [[systemData h1]|msg]
    eqn:Hs; [|right; eauto].
  pose proof (fromSystemDataDataModel_subseteq _ _ _ _ Hs) as Hsub.
  destruct (Datamodel.Properties dm) as [l|]; simpl.
  - split; [done|]. exists l. split; [done|].
    assert (Hmap1 : isMap h1 l) by (by apply (isMap_subseteq h)).
    destruct Hmap1 as [m1 E1]. split; [|split; [split; [done|]|]].
    + rewrite (mapLookup_mapStore _ _ _ _ _ _ E1). by rewrite decide_True.
    + intros k Hk. rewrite (mapLookup_mapStore _ _ _ _ _ _ E1).
      rewrite decide_False by done. by apply mapLookup_subseteq.
    + intros l' c Hne Hc. rewrite mapStore_ne by done. by apply (lookup_weaken h).
  - destruct (newMap h1) as [l h2] eqn:Hn. destruct (newMap_spec _ _ _ Hn) as [Hl ->]. simpl.
    split; [done|]. exists l. split; [done|].
    assert (E2 : <[l := CMap ∅]> h1 !! l = Some (CMap ∅)) by apply lookup_insert_eq.
    split; [|split; [split|]].
    + rewrite (mapLookup_mapStore _ _ _ _ _ _ E2). by rewrite decide_True.
    + by apply (subseteq_None h h1).
    + intros k Hk. rewrite (mapLookup_mapStore _ _ _ _ _ _ E2).
      rewrite decide_False by done. unfold mapLookup. rewrite E2. apply lookup_empty.
    + intros l' c Hne Hc. rewrite mapStore_ne by done.
      rewrite lookup_insert_ne by done. by apply (lookup_weaken h).
Qed.

(** X11. The provisioning state of the versioned form. ConvertFrom of a
    dynamic resource always states a provisioning state in the properties
    of the versioned resource, and never the empty one: the state of the
    data model, or Succeeded when that is empty; whatever the properties
    held under provisioningState is overwritten. The properties are the
    very map of the data model when it has one, so the data model shows the
    new entry too; every other entry of the map and every other cell of the
    heap are as they were. A data model without properties gets a new map
    that holds the provisioning state alone. *)
Theorem ConvertFrom_provisioningState h d dm err d' h' :
  match Datamodel.Properties dm with Some l => isMap h l | None => True end ->
  ConvertFrom h d (DynamicResourceModel (Some dm)) = Done (err, d', h') ->
  err = None /\
  exists l state,
    Properties d' = Some l /\
    mapLookup h' l "provisioningState" = Some (VString state) /\
    state <> EmptyString /\
    state = (if String.eqb (Datamodel.AsyncProvisioningState dm) EmptyString
             then ProvisioningStateSucceeded else Datamodel.AsyncProvisioningState dm) /\
    match Datamodel.Properties dm with
    | Some l0 =>
        l = l0 /\ forall k, k <> "provisioningState" -> mapLookup h' l k = mapLookup h l k
    | None =>
        h !! l = None /\ forall k, k <> "provisioningState" -> mapLookup h' l k = None
    end /\
    forall l' c, l' <> l -> h !! l' = Some c -> h' !! l' = Some c.
Proof.
  intros Hmap Hc. pose proof (ConvertFrom_model h d dm Hmap) as Hm. rewrite Hc in Hm.
  destruct Hm as [-> [l [Hl [Hps [Hrest Hkeep]]]]]. split; [done|].
  exists l, (fromProvisioningStateDataModel (Datamodel.AsyncProvisioningState dm)).
  split; [done|]. split; [done|].
  split; [apply fromProvisioningStateDataModel_not_empty|]. done.
Qed.

(** X12. The conversions are not inverse to each other on the
    provisioning state. ConvertTo returns no error and a data model with
    the properties of the versioned resource and the empty provisioning
    state, whatever these properties state; so the versioned form of that
    data model states Succeeded, in the same map, also when the resource
    came in with another state in its properties. *)
Theorem ConvertTo_forgets_provisioningState h d d0 l err d' h' :
  Properties d = Some l -> isMap h l ->
  ConvertFrom h d0 (DynamicResourceModel (Some (fst (ConvertTo d)))) = Done (err, d', h') ->
  snd (ConvertTo d) = None /\
  Datamodel.AsyncProvisioningState (fst (ConvertTo d)) = EmptyString /\
  Datamodel.UpdatedAPIVersion (fst (ConvertTo d)) = Version /\
  err = None /\
  Properties d' = Some l /\
  mapLookup h' l "provisioningState" = Some (VString ProvisioningStateSucceeded).
Proof.
  intros Hl Hmap Hc.
  assert (Hp : Datamodel.Properties (fst (ConvertTo d)) = Some l) by exact Hl.
  pose proof (ConvertFrom_model h d0 (fst (ConvertTo d))) as Hm.
  rewrite Hp in Hm. specialize (Hm Hmap). rewrite Hc in Hm.
  destruct Hm as [-> [l' [Hl' [Hps [[-> _] _]]]]].
  repeat split; done.
Qed.

(** X13. The round trip of a data model. Where to.String gives back the
    string that a pointer points to, the data model that ConvertTo makes
    of the versioned form of a data model has its id, name, type and
    location, and its properties when it had some; but its provisioning
    state is empty and its API version is the one of the package, whatever
    they were. *)
Theorem ConvertTo_ConvertFrom_round_trip h d dm err d' h' :
  (forall s, to_String (Some s) = s) ->
  ConvertFrom h d (DynamicResourceModel (Some dm)) = Done (err, d', h') ->
  Datamodel.ID (fst (ConvertTo d')) = Datamodel.ID dm /\
  Datamodel.Name (fst (ConvertTo d')) = Datamodel.Name dm /\
  Datamodel.Type_ (fst (ConvertTo d')) = Datamodel.Type_ dm /\
  Datamodel.Location (fst (ConvertTo d')) = Datamodel.Location dm /\
  (forall l, Datamodel.Properties dm = Some l ->
             Datamodel.Properties (fst (ConvertTo d')) = Some l) /\
  Datamodel.AsyncProvisioningState (fst (ConvertTo d')) = EmptyString /\
  Datamodel.UpdatedAPIVersion (fst (ConvertTo d')) = Version.
Proof.
  intros Hto. unfold ConvertFrom.
  destruct (to_StringMapPtr (Datamodel.Tags_ dm)) as [tags|]; [|discriminate].
  destruct (fromSystemDataDataModel h (Datamodel.SystemData_ dm)) as [[systemData h1]|msg];
    [|discriminate].
  destruct (Datamodel.Properties dm) as [l|].
  - simpl. intros [= <- <- <-]. simpl. rewrite !Hto. repeat split. by intros l' [= <-].
  - destruct (newMap h1) as [l h2]. simpl. intros [= <- <- <-]. simpl. rewrite !Hto.
    repeat split. discriminate.
Qed.

(** A model of another type is refused: ConvertFrom returns
    v1.ErrInvalidModelConversion and leaves the versioned resource and the
    heap as they were. *)
Lemma ConvertFrom_other h d :
  ConvertFrom h d OtherModel = Done (Some ErrInvalidModelConversion, d, h).
Proof. reflexivity. Qed.

End conversion_properties.
Section system_data_properties.
Import Strings Errors Json Heap V1 Api Decoded DynamicRP.
Context `{DynamicRP.Pkg}.

Implicit Types (h : heap) (l : loc) (v : value).

#[local] Arguments newMap : simpl never.
#[local] Opaque alloc.

(** X17. The system data as a map. fromSystemDataDataModel returns a new
    map that holds the JSON form of the system data: under each name the
    member of the object, nested objects and arrays decoded alike, and
    nothing under any other name; no cell of the heap is changed. The form
    null gives the nil map. It panics when the system data has no JSON form
    and when the form is neither an object nor null. *)
Theorem fromSystemDataDataModel_holds h input :
  match marshalSystemData input with
  | None => fromSystemDataDataModel h input = Panic "marshalling system data failed"
  | Some (JObject members) =>
      exists l h',
        fromSystemDataDataModel h input = Done (Some l, h') /\
        h ⊆ h' /\ holds h h' (JObject members) (VMap l)
  | Some JNull =>
      exists h', fromSystemDataDataModel h input = Done (None, h') /\ h ⊆ h'
  | Some _ => fromSystemDataDataModel h input = Panic "unmarshalling system data failed"
  end.
Proof.
  unfold fromSystemDataDataModel.
  destruct (marshalSystemData input) as [[| b | n | s | items | members]|];
    try (destruct (newMap h); reflexivity); [|].
  - destruct (newMap h) as [l h1] eqn:Hn. simpl. eexists. split; [reflexivity|].
    destruct (newMap_spec _ _ _ Hn) as [Hl ->]. by apply insert_subseteq.
  - destruct (decode (JObject members) h) as [v h'] eqn:Hd.
    pose proof (decode_holds _ _ _ _ Hd) as Hh.
    pose proof (decode_frame _ _ _ _ Hd) as [Hsub _].
    revert Hd Hh. cbn [decode json_Unmarshal]. destruct (newMap h) as [l h1].
    intros [= <- <-] Hh.
    exists l. eexists. split; [reflexivity|]. split; [exact Hsub|exact Hh].
Qed.

End system_data_properties.
Section conversion_examples.
Import Strings Errors Json Heap V1 Api DynamicRP ConversionExamples.

Lemma returned_valueOf {A B C} (x : outcome (A * B * C)) fallback :
  returned x = true ->
  x = Done (fst (fst (valueOf fallback x)), snd (fst (valueOf fallback x)),
            snd (valueOf fallback x)).
Proof. destruct x as [[[a b] c]|msg]; [reflexivity|discriminate]. Qed.

Lemma ConvertFrom_provisioningState_witness :
  fst (fst (valueOf (None, zero, cells) converted)) = None /\
  exists l state,
    Properties versioned = Some l /\
    mapLookup cellsAfter l "provisioningState" = Some (VString state) /\
    state <> EmptyString /\
    state = ProvisioningStateFailed /\
    (l = 3%positive /\
     forall k, k <> "provisioningState" -> mapLookup cellsAfter l k = mapLookup cells l k) /\
    forall l' c, l' <> l -> cells !! l' = Some c -> cellsAfter !! l' = Some c.
Proof.
  apply (ConvertFrom_provisioningState cells zero stored).
  - exists {[ "image" := VString "nginx"; "provisioningState" := VString "Updating" ]}.
    reflexivity.
  - apply returned_valueOf. vm_compute. reflexivity.
Defined.

Example ConvertFrom_example :
  mapLookup cells 3 "provisioningState" = Some (VString "Updating") /\
  mapLookup cellsAfter 3 "provisioningState" = Some (VString "Failed") /\
  mapLookup cellsAfter 3 "image" = Some (VString "nginx") /\
  Properties versioned = Some 3%positive.
Proof. repeat split; vm_compute; reflexivity. Qed.

Lemma mapLookup_isMap h l k v : mapLookup h l k = Some v -> isMap h l.
Proof.
  unfold mapLookup, isMap. destruct (h !! l) as [[m|items|o]|]; try discriminate. eauto.
Qed.

(** The resource came back with Failed in its properties, and its
    versioned form states Succeeded. *)
Lemma ConvertTo_forgets_provisioningState_witness :
  snd (ConvertTo versioned) = None /\
  Datamodel.AsyncProvisioningState (fst (ConvertTo versioned)) = EmptyString /\
  Datamodel.UpdatedAPIVersion (fst (ConvertTo versioned)) = Version /\
  fst (fst (valueOf (None, zero, cells) received)) = None /\
  Properties (snd (fst (valueOf (None, zero, cells) received))) = Some 3%positive /\
  mapLookup (snd (valueOf (None, zero, cells) received)) 3 "provisioningState" =
  Some (VString ProvisioningStateSucceeded).
Proof.
  apply (ConvertTo_forgets_provisioningState cellsAfter versioned zero 3%positive).
  - vm_compute. reflexivity.
  - apply (mapLookup_isMap cellsAfter 3 "provisioningState" (VString "Failed")).
    vm_compute. reflexivity.
  - apply returned_valueOf. vm_compute. reflexivity.
Defined.

Lemma ConvertTo_ConvertFrom_round_trip_witness :
  Datamodel.ID (fst (ConvertTo versioned)) = Datamodel.ID stored /\
  Datamodel.Name (fst (ConvertTo versioned)) = Datamodel.Name stored /\
  Datamodel.Type_ (fst (ConvertTo versioned)) = Datamodel.Type_ stored /\
  Datamodel.Location (fst (ConvertTo versioned)) = Datamodel.Location stored /\
  (forall l, Datamodel.Properties stored = Some l ->
             Datamodel.Properties (fst (ConvertTo versioned)) = Some l) /\
  Datamodel.AsyncProvisioningState (fst (ConvertTo versioned)) = EmptyString /\
  Datamodel.UpdatedAPIVersion (fst (ConvertTo versioned)) = Version.
Proof.
  apply (ConvertTo_ConvertFrom_round_trip cells zero stored
           (fst (fst (valueOf (None, zero, cells) converted))) versioned cellsAfter).
  - reflexivity.
  - apply returned_valueOf. vm_compute. reflexivity.
Defined.

End conversion_examples.
(* ================================================================== *)
(** * The handler of the dynamic resource provider *)
(* ================================================================== *)

Section handler_properties.
Import Strings Errors Resources Heap V1 DynamicRP DynamicFrontend.
Context `{DynamicFrontend.Pkg}.

Lemma length_append (s t : string) :
  String.length (s ++ t) = String.length s + String.length t.
Proof. induction s as [|c s IH]; [reflexivity|]. rewrite append_cons. simpl. by rewrite IH. Qed.

Lemma substring_all (s : string) : substring 0 (String.length s) s = s.
Proof. induction s as [|c s IH]; [reflexivity|]. simpl. by rewrite IH. Qed.

Lemma substring_append (s t : string) :
  substring (String.length s) (String.length t) (s ++ t) = t.
Proof.
  induction s as [|c s IH]; [apply substring_all|]. rewrite append_cons. simpl. exact IH.
Qed.

Lemma HasSuffix_append (s t : string) : HasSuffix (s ++ t) t = true.
Proof.
  unfold HasSuffix. rewrite length_append.
  replace (String.length s + String.length t - String.length t) with (String.length s) by lia.
  rewrite substring_append, String.eqb_refl, andb_true_r. apply Nat.leb_le. lia.
Qed.

(** X14. Operation statuses and operation results share their rows. When
    the type of the id of a request ends with locations/operationstatuses
    or with locations/operationresults, in whatever case, the handler asks
    the data provider for the storage client of one type, the provider
    namespace followed by /operationstatuses, and hands the factory options
    with that resource type and that client; the operation type of the
    request keeps the type of the id, in upper case. *)
Theorem dynamicOperationHandler_operation_storage
    method opts factory path id prefix segment :
  Parse path = inr id ->
  ID_Type id = prefix ++ segment ->
  EqualFold segment "locations/operationstatuses" = true \/
  EqualFold segment "locations/operationresults" = true ->
  storageResourceType id = ID_ProviderNamespace id ++ "/operationstatuses" /\
  dynamicOperationHandler method opts factory path =
  match GetStorageClient (ID_ProviderNamespace id ++ "/operationstatuses") with
  | inl err => badRequest (Error err)
  | inr client =>
      match
        factory {| Address := Address opts; PathBase := PathBase opts;
                   StorageClient_ := Some client;
                   ResourceType := ID_ProviderNamespace id ++ "/operationstatuses" |}
                converters
      with
      | inl err => badRequest (Error err)
      | inr ctrl =>
          Served ctrl {| V1.Type_ := ToUpper (ID_Type id); V1.Method := method |}
      end
  end.
Proof.
  intros Hp Ht Hs.
  assert (Hst : storageResourceType id = ID_ProviderNamespace id ++ "/operationstatuses").
  { unfold storageResourceType. rewrite Ht, ToLower_app.
    destruct Hs as [Hs|Hs]; apply EqualFold_true in Hs; rewrite Hs.
    - change (ToLower "locations/operationstatuses") with "locations/operationstatuses".
      by rewrite HasSuffix_append.
    - change (ToLower "locations/operationresults") with "locations/operationresults".
      by rewrite HasSuffix_append, orb_true_r. }
  split; [exact Hst|].
  unfold dynamicOperationHandler. rewrite Hp. simpl. rewrite Hst. reflexivity.
Qed.

End handler_properties.
Section handler_examples.
Import Strings Errors Resources Heap V1 DynamicRP DynamicFrontend HandlerExamples.
#[local] Existing Instances ResourcesModel.pkg ConversionExamples.pkg.

Lemma dynamicOperationHandler_operation_storage_witness :
  storageResourceType operationResultID = "Applications.Test/operationstatuses" /\
  dynamicOperationHandler "GET" options factory operationResult =
  Served "Applications.Test/operationstatuses"
    {| V1.Type_ := "APPLICATIONS.TEST/LOCATIONS/OPERATIONRESULTS"; V1.Method := "GET" |}.
Proof.
  apply (dynamicOperationHandler_operation_storage "GET" options factory operationResult
           operationResultID "Applications.Test/" "locations/operationResults").
  - reflexivity.
  - reflexivity.
  - right. reflexivity.
Defined.

(** The two operation routes of one provider are served from the same
    storage client; a resource is served from the client of its type; a
    path that is no id is a bad request. *)
Example dynamicOperationHandler_examples :
  dynamicOperationHandler "GET" options factory operationStatus =
  Served "Applications.Test/operationstatuses"
    {| V1.Type_ := "APPLICATIONS.TEST/LOCATIONS/OPERATIONSTATUSES"; V1.Method := "GET" |} /\
  dynamicOperationHandler "PUT" options factory NotifyExamples.containerKey =
  Served "Applications.Core/containers"
    {| V1.Type_ := "APPLICATIONS.CORE/CONTAINERS"; V1.Method := "PUT" |} /\
  dynamicOperationHandler "GET" options factory "planes" =
  BadRequest (ResourcesModel.malformed "planes").
Proof. repeat split; vm_compute; reflexivity. Qed.

End handler_examples.
(* ================================================================== *)
(** * The routes of the dynamic resource provider *)
(* ================================================================== *)

Section routes_properties.
Import Strings Validator Frontend ResourcePaths.

Lemma mountMatches_Static pathBase : forall path rest,
  mountMatches (map Static pathBase) path = Some rest <-> path = (pathBase ++ rest)%list.
Proof.
  induction pathBase as [|s pathBase IH]; intros path rest; simpl.
  - split; [by intros [= ->]|by intros ->].
  - destruct path as [|s' path]; [split; discriminate|].
    destruct (String.eqb_spec s s') as [->|Hne].
    + rewrite IH. split; [by intros ->|by intros [= ->]].
    + split; [discriminate|]. intros [= -> _]. done.
Qed.

Lemma patternMatches_Static pathBase pattern path :
  patternMatches (map Static pathBase ++ pattern)%list path = true <->
  exists rest, path = (pathBase ++ rest)%list /\ patternMatches pattern rest = true.
Proof.
  rewrite patternMatches_app.
  destruct (mountMatches (map Static pathBase) path) as [rest|] eqn:E.
  - apply mountMatches_Static in E. split; [eauto|].
    intros [rest' [Hp Hm]]. rewrite E in Hp. apply app_inv_head in Hp. by subst.
  - split; [discriminate|]. intros [rest [Hp _]].
    apply mountMatches_Static in Hp. congruence.
Qed.

Lemma resourcePattern_matches pathBase path :
  patternMatches (map Static pathBase ++ resourcePattern)%list path = true <->
  resourcePath pathBase path.
Proof.
  rewrite patternMatches_Static. unfold resourcePath. split.
  - intros [rest [-> Hm]]. unfold resourcePattern in Hm.
    do 9 (destruct rest as [|? rest];
          [cbn [patternMatches] in Hm; rewrite ?andb_false_r in Hm; discriminate Hm|]).
    destruct rest;
      [|cbn [patternMatches] in Hm; rewrite !andb_false_r in Hm; discriminate Hm].
    cbn [patternMatches segmentMatches existsb] in Hm.
    rewrite !andb_true_r, ?orb_false_r in Hm.
    repeat match goal with
           | H : _ && _ = true |- _ => apply andb_prop in H as [? H]
           end.
    repeat match goal with
           | H : String.eqb _ _ = true |- _ => apply String.eqb_eq in H; subst
           | H : true = true |- _ => clear H
           end.
    match goal with
    | H : _ || _ = true |- _ => apply orb_prop in H as [H|H]; apply String.eqb_eq in H; subst
    end; eauto 10.
  - intros [plane [rg [group [namespace [type [name [Hrg ->]]]]]]]. eexists. split; [reflexivity|].
    destruct Hrg as [-> | ->]; reflexivity.
Qed.

(** An operation registered once, under a method registered once, is
    invoked for the requests of that method whose path matches its pattern,
    and for no other. *)
Lemma ServeHTTP_Invoke mux r method pattern operation :
  In (method, pattern, operation) (registeredAll (routes mux)) ->
  (forall m p o, In (m, p, o) (registeredAll (routes mux)) ->
                 m = method \/ o = operation -> (m, p, o) = (method, pattern, operation)) ->
  ServeHTTP mux r = Invoke operation <->
  Method r = method /\ patternMatches pattern (Path r) = true.
Proof.
  intros Hreg Honce. unfold ServeHTTP. split.
  - destruct (reachedAll (routes mux) (Path r)) as [|mo found] eqn:E; [discriminate|].
    destruct (find _ (mo :: found)) as [[m o]|] eqn:Hf; [|discriminate].
    intros [= ->]. apply find_some in Hf as [Hin Hm]. simpl in Hm.
    apply String.eqb_eq in Hm. rewrite <- E in Hin.
    apply reachedAll_registered in Hin as [p [Hp Hpm]].
    pose proof (Honce _ _ _ Hp (or_intror eq_refl)) as [= -> ->]. done.
  - intros [Hm Hp].
    assert (Hin : In (method, operation) (reachedAll (routes mux) (Path r))).
    { apply reachedAll_registered. eauto. }
    destruct (reachedAll (routes mux) (Path r)) as [|mo found] eqn:E; [destruct Hin|].
    destruct (find _ (mo :: found)) as [[m o]|] eqn:Hf.
    + apply find_some in Hf as [Hin' Hm']. simpl in Hm'. apply String.eqb_eq in Hm'.
      rewrite <- E in Hin'. apply reachedAll_registered in Hin' as [p [Hp' _]].
      assert (m = method) by congruence.
      pose proof (Honce _ _ _ Hp' (or_introl H)) as [= _ _ ->]. done.
    + eapply find_none in Hf; [|exact Hin]. simpl in Hf.
      rewrite Hm, String.eqb_refl in Hf. discriminate.
Qed.

(** X15. The requests that change a resource. The server set up by
    registerRoutes dispatches a request to the PUT operation exactly when
    its method is PUT and its path is, under the path base,
    planes/radius/{plane}/{resourcegroups or resourceGroups}/{group}/providers/
    {namespace}/{type}/{name}; and to the DELETE operation exactly when its
    method is DELETE and its path is of that shape. No other path, plane
    kind or spelling of the keyword reaches them. *)
Theorem registerRoutes_mutations pathBase (r : Request) :
  (ServeHTTP (registerRoutes pathBase) r = Invoke OperationPut <->
   Method r = "PUT" /\ resourcePath pathBase (Path r)) /\
  (ServeHTTP (registerRoutes pathBase) r = Invoke OperationDelete <->
   Method r = "DELETE" /\ resourcePath pathBase (Path r)).
Proof.
  split.
  - rewrite <- resourcePattern_matches. apply ServeHTTP_Invoke.
    + cbn. do 5 right. left. reflexivity.
    + intros m p o Hin Hcase. cbn in Hin.
      repeat (destruct Hin as [Hin|Hin];
              [injection Hin as <- <- <-;
               first [reflexivity | destruct Hcase; discriminate]|]).
      destruct Hin.
  - rewrite <- resourcePattern_matches. apply ServeHTTP_Invoke.
    + cbn. do 6 right. left. reflexivity.
    + intros m p o Hin Hcase. cbn in Hin.
      repeat (destruct Hin as [Hin|Hin];
              [injection Hin as <- <- <-;
               first [reflexivity | destruct Hcase; discriminate]|]).
      destruct Hin.
Qed.

End routes_properties.
Section routes_unambiguous.
Import Strings Validator Frontend ResourcePaths.

(** X16. No two routes overlap. For every path and every method, at most one
    of the handlers that registerRoutes registers is reached: the dispatch
    of a request does not depend on the order in which the routes were
    registered. *)
Theorem registerRoutes_unambiguous pathBase path method :
  length (List.filter (fun mo => String.eqb (fst mo) method)
            (reachedAll (routes (registerRoutes pathBase)) path)) <= 1.
Proof.
  unfold registerRoutes. cbn [routes]. unfold reachedAll at 1. cbn [flat_map].
  rewrite app_nil_r, reached_Route.
  destruct (mountMatches (map Static pathBase) path) as [rest|]; [|simpl; lia].
  clear path pathBase.
  do 10 try (destruct rest as [|? rest];
    cbn -[String.eqb Nat.leb];
    repeat match goal with
           | |- context [String.eqb ?a ?b] =>
               first
                 [ is_var a; destruct (String.eqb_spec a b); [subst a|]
                 | is_var b; destruct (String.eqb_spec a b); [subst b|]
                 | let v := eval vm_compute in (String.eqb a b) in
                   change (String.eqb a b) with v ];
               cbn -[String.eqb Nat.leb]
           end;
    try lia; try congruence).
Qed.
End routes_unambiguous.
Section notify_status_manager.
Import Strings Errors Resources Json Heap V1 Notifications NotifyCalls.
Context `{Resources.Pkg} `{ObjectEncoding}.
Variable IsTerminal : ProvisioningState -> bool.
Variable DefaultRetryAfterDuration : Z.

Implicit Types (h : heap) (l : loc) (v : value) (j : json) (o : oracle).

#[local] Abbreviation notify := (Notifications.notify IsTerminal DefaultRetryAfterDuration).

(** X18. Without a status manager. statusManager returns nil when the
    client of the queue cannot be made. Then notify queues nothing and
    never returns nil: it returns an error or panics before the first save
    is done, or else, the resource saved, it panics on the nil status
    manager, its calls being storage client, read, save, UUID and status
    manager. *)
Theorem notify_no_status_manager o id :
  (forall past, o past GetStatusManager = false) ->
  fst (run o (notify id) []) <> Done None /\
  existsb isQueue (snd (run o (notify id) [])) = false /\
  (In GetStatusManager (snd (run o (notify id) [])) ->
   fst (run o (notify id) []) = Panic nilDereference /\
   map kindOf (snd (run o (notify id) [])) = take 5 order).
Proof.
  intros Hnil. unfold Notifications.notify. simpl.
  destruct (o [] (GetStorageClient (ID_Type id))) as [err|]; simpl.
  { split; [discriminate|]. split; [reflexivity|]. intros [Hc|[]]. discriminate. }
  destruct (o _ (StorageGet (ID_String id))) as [err|[h0 obj0]]; simpl.
  { split; [discriminate|]. split; [reflexivity|]. intros [Hc|[Hc|[]]]; discriminate. }
  destruct (provisioningState h0 (VObject obj0)) as [[ps0 h1]|msg]; simpl.
  2: { split; [discriminate|]. split; [reflexivity|]. intros [Hc|[Hc|[]]]; discriminate. }
  destruct (IsTerminal ps0); simpl.
  2: { split; [discriminate|]. split; [reflexivity|]. intros [Hc|[Hc|[]]]; discriminate. }
  destruct (setProvisioningState h1 (VObject obj0) ProvisioningStateUpdating) as [h2|msg]; simpl.
  2: { split; [discriminate|]. split; [reflexivity|]. intros [Hc|[Hc|[]]]; discriminate. }
  unfold save. destruct (objectETag h2 obj0) as [etag0|]; simpl.
  2: { split; [discriminate|]. split; [reflexivity|]. intros [Hc|[Hc|[]]]; discriminate. }
  destruct (o _ (StorageSave h2 obj0 etag0)) as [err|]; simpl.
  { split; [discriminate|]. split; [reflexivity|].
    intros [Hc|[Hc|[Hc|[]]]]; discriminate. }
  rewrite Hnil. simpl. split; [discriminate|]. split; [reflexivity|]. intros _. done.
Qed.

End notify_status_manager.

Section notify_status_manager_examples.
Import Strings Errors Resources Json Heap V1 Notifications NotifyCalls.
Import NotifyExamples NotifyExamples2.
#[local] Existing Instances ResourcesModel.pkg NotifyExamples.encoding.

Lemma notify_no_status_manager_witness :
  fst (run (withoutStatusManager (scripted succeeded None)) notifyContainer []) <> Done None /\
  existsb isQueue (snd (run (withoutStatusManager (scripted succeeded None))
                          notifyContainer [])) = false /\
  (In GetStatusManager (snd (run (withoutStatusManager (scripted succeeded None))
                               notifyContainer [])) ->
   fst (run (withoutStatusManager (scripted succeeded None)) notifyContainer []) =
   Panic nilDereference /\
   map kindOf (snd (run (withoutStatusManager (scripted succeeded None))
                      notifyContainer [])) = take 5 order).
Proof.
  apply (@notify_no_status_manager ResourcesModel.pkg encoding V1.IsTerminal retryAfter
           (withoutStatusManager (scripted succeeded None)) RoutingExamples.container).
  intros past. reflexivity.
Defined.

(** The resource is saved, and then notify panics. *)
Example notify_no_status_manager_run :
  fst (run (withoutStatusManager (scripted succeeded None)) notifyContainer []) =
  Panic nilDereference /\
  map kindOf (snd (run (withoutStatusManager (scripted succeeded None)) notifyContainer [])) =
  [KStorageClient; KGet; KSave; KUUID; KStatusManager].
Proof. split; vm_compute; reflexivity. Qed.

End notify_status_manager_examples.
(* ================================================================== *)
(** * The two revisions of package frontend compared *)
(* ================================================================== *)

Section revisions.
Import Strings Validator Frontend.

Lemma reachedAll_mount pattern sub path :
  reachedAll [Route pattern sub] path =
  match mountMatches pattern path with
  | Some rest => reachedAll sub rest
  | None => []
  end.
Proof. unfold reachedAll at 1. cbn [flat_map]. by rewrite app_nil_r, reached_Route. Qed.

(** X19. The routes of the two revisions. Under a path base that is not
    empty, every request that the list of routes of the other revision
    dispatches to an operation is dispatched to the same operation by the
    nested routes of registerRoutes; and the nested routes dispatch nothing
    more, but for the requests for an operation result or status whose path
    spells the keyword operationresults or operationstatuses in lower
    case. *)
Theorem registerRoutes_serves_flat pathBase (r : Request) operation :
  pathBase <> [] ->
  (ServeHTTP (FrontendFlat.registerRoutes pathBase) r = Invoke operation ->
   ServeHTTP (registerRoutes pathBase) r = Invoke operation) /\
  (ServeHTTP (registerRoutes pathBase) r = Invoke operation ->
   ServeHTTP (FrontendFlat.registerRoutes pathBase) r = Invoke operation \/
   operation = OperationGet /\
   (In "operationresults" (Path r) \/ In "operationstatuses" (Path r))).
Proof.
  intros _. unfold ServeHTTP, registerRoutes, FrontendFlat.registerRoutes.
  cbn [routes notFoundHandler methodNotAllowedHandler].
  rewrite !reachedAll_mount.
  destruct (mountMatches (map Static pathBase) (Path r)) as [rest|] eqn:Hmount;
    [|split; discriminate].
  apply mountMatches_Static in Hmount. rewrite Hmount.
  generalize (Method r). clear r Hmount. intros method.
  assert (Hin : forall s, In s rest -> In s (pathBase ++ rest)%list).
  { intros s Hs. apply in_or_app. by right. }
  split.
  - clear Hin.
    do 10 try (destruct rest as [|? rest];
      cbn -[String.eqb Nat.leb];
      repeat match goal with
             | |- context [String.eqb ?a ?b] =>
                 first
                   [ is_var a; destruct (String.eqb_spec a b); [subst a|]
                   | is_var b; destruct (String.eqb_spec a b); [subst b|]
                   | let v := eval vm_compute in (String.eqb a b) in
                     change (String.eqb a b) with v ];
                 cbn -[String.eqb Nat.leb]
             end;
      try done; try congruence).
  - do 10 try (destruct rest as [|? rest];
      cbn -[String.eqb Nat.leb In];
      repeat match goal with
             | |- context [String.eqb ?a ?b] =>
                 first
                   [ is_var a; destruct (String.eqb_spec a b); [subst a|]
                   | is_var b; destruct (String.eqb_spec a b); [subst b|]
                   | let v := eval vm_compute in (String.eqb a b) in
                     change (String.eqb a b) with v ];
                 cbn -[String.eqb Nat.leb In]
             end;
      try done; try congruence;
      try (intros [= <-]; first
             [ by left
             | right; split; [reflexivity|]; first
                 [ left; apply Hin; simpl; tauto
                 | right; apply Hin; simpl; tauto ] ])).
Qed.

(** A request for an operation result under the path base /apis, in the
    spelling that both revisions route. *)
Lemma registerRoutes_serves_flat_witness :
  (ServeHTTP (FrontendFlat.registerRoutes ["apis"]) FrontendFlat.operationResult =
   Invoke OperationGet ->
   ServeHTTP (registerRoutes ["apis"]) FrontendFlat.operationResult = Invoke OperationGet) /\
  (ServeHTTP (registerRoutes ["apis"]) FrontendFlat.operationResult = Invoke OperationGet ->
   ServeHTTP (FrontendFlat.registerRoutes ["apis"]) FrontendFlat.operationResult =
   Invoke OperationGet \/
   OperationGet = OperationGet /\
   (In "operationresults" (Path FrontendFlat.operationResult) \/
    In "operationstatuses" (Path FrontendFlat.operationResult))).
Proof.
  apply (registerRoutes_serves_flat ["apis"] FrontendFlat.operationResult OperationGet).
  discriminate.
Defined.

(** The lower-case spelling is routed by the nested routes alone. *)
Example registerRoutes_revisions :
  ServeHTTP (FrontendFlat.registerRoutes ["apis"]) FrontendFlat.operationResult =
  Invoke OperationGet /\
  ServeHTTP (registerRoutes ["apis"]) FrontendFlat.operationResult = Invoke OperationGet /\
  ServeHTTP (FrontendFlat.registerRoutes ["apis"])
    {| Method := "GET";
       Path := ["apis"; "planes"; "radius"; "local"; "providers"; "Applications.Test";
                "locations"; "global"; "operationresults"; "op1"] |} = Status 404 /\
  ServeHTTP (registerRoutes ["apis"])
    {| Method := "GET";
       Path := ["apis"; "planes"; "radius"; "local"; "providers"; "Applications.Test";
                "locations"; "global"; "operationresults"; "op1"] |} = Invoke OperationGet.
Proof. repeat split; reflexivity. Qed.

End revisions.
